(** * Verification of [scripts/isomap.py]

    The script synthesises a grid of amplitude-modulated exponential chirps,
    extracts five feature families from them, embeds every feature table
    with Isomap and plots how well the nearest neighbours recover the
    synthesis parameters.

    Conventions of the embedding.
    - NumPy [float64] arrays are lists of real numbers: the rounding of a
      value is not modelled, every arithmetic operation on values is the
      exact one.  Where NumPy leaves the reals ([log 0], division by zero,
      the mean of nothing) the value is an [npfloat], which adds the two
      infinities and NaN.
    - Where the outcome depends on float64 arithmetic itself, the operation
      is evaluated on binary64 floats (module [f64]): the number of
      elements of [np.arange], which NumPy derives from a float quotient,
      the normalisation of a waveform whose squares underflow, and a
      recovery ratio that overflows.
    - Python exceptions are values of [exn]; a computation that may raise
      returns an [outcome].  Code that touches the file system, the warning
      machinery or module globals runs in the state monad [M] over [world].
    - The scientific libraries (librosa, kymatio, openl3, the auditory
      model, scikit-learn, matplotlib) are collaborators outside the
      repository: they are fields of the record [libs].
    - Console output ([print], [tqdm]) is not part of the model. *)

From Stdlib Require Import Reals Lra Lia ZArith Ascii String.
From Stdlib Require Floats.
From stdpp Require Import base list strings gmap.

Local Open Scope R_scope.

Set Warnings "-clear-no-such-hyp".

(** ** Exceptions and the error monad *)

Inductive exn : Type :=
  | ZeroDivisionError
  | OverflowError
  | IndexError
  | ValueError (msg : string)
  | NameError (name : string)
  | ImportError (name : string)
  | FileExistsError (path : string)
  | LibraryError (msg : string).

Inductive outcome (A : Type) : Type :=
  | Ok (a : A)
  | Raise (e : exn).
Arguments Ok {A} a.
Arguments Raise {A} e.

#[global] Instance outcome_ret : MRet outcome := fun A a => Ok a.
#[global] Instance outcome_bind : MBind outcome := fun A B f m =>
  match m with
  | Ok a => f a
  | Raise e => Raise e
  end.

Abbreviation vec := (list R).
Abbreviation mat := (list (list R)).
Abbreviation tens3 := (list (list (list R))).
Abbreviation tens4 := (list (list (list (list R)))).

(** ** Binary64 floats

    Rocq's primitive floats are IEEE 754 binary64 numbers with the rounding
    to nearest that Python's [float] and NumPy's [float64] have. *)

Module f64.
Import Floats.
Local Open Scope float_scope.

Abbreviation float := PrimFloat.float.

(** [float(z)] for a Python integer (of magnitude below [2^63]). *)
Definition of_int (z : Z) : float :=
  if (z <? 0)%Z then - of_uint63 (Uint63.of_Z (- z))
  else of_uint63 (Uint63.of_Z z).

(** [a / b] on two Python integers. *)
Definition truediv (a b : Z) : float := of_int a / of_int b.

(** [math.ceil] of a finite float (0 stands for what has no ceiling). *)
Definition ceil (x : float) : Z :=
  match Prim2SF x with
  | S754_finite s m e =>
      let v := if s then Z.neg m else Z.pos m in
      if (0 <=? e)%Z then (v * 2 ^ e)%Z else (- ((- v) / 2 ^ (- e)))%Z
  | _ => 0%Z
  end.

(** The number of elements of [np.arange(start, stop, step)]:
    [ceil((stop - start) / step)] with the difference and the quotient taken
    in float64, and nothing for a negative count. *)
Definition arange_len (start stop step : float) : nat :=
  Z.to_nat (ceil ((stop - start) / step)).

(** [np.linalg.norm(x)] of a one-dimensional array: [sqrt(x.dot(x))]. *)
Definition linalg_norm (x : list float) : float :=
  sqrt (fold_left (fun acc v => acc + v * v) x 0).

(** [x / s] for an array and a scalar. *)
Definition div_scalar (x : list float) (s : float) : list float :=
  map (fun v => v / s) x.



(** [np.log], [np.exp] and [np.log2] are the C library's, which rounds as
    it sees fit.  The C standard (Annex F) fixes their value at a few
    arguments, [log(1) = +0], [exp(0) = 1], [log2(1) = +0] and
    [log2(+inf) = +inf]: this is all that is taken of them here, and
    [None] stands for every other value. *)
Definition libm_log (x : float) : option float :=
  if x =? 1 then Some 0 else None.

Definition libm_exp (x : float) : option float :=
  if x =? 0 then Some 1 else None.

Definition libm_log2 (x : float) : option float :=
  if x =? infinity then Some infinity
  else if x =? 1 then Some 0
  else None.

(** [np.mean] of a one-dimensional array. *)
Definition mean (x : list float) : float :=
  fold_left (fun acc v => acc + v) x 0 / of_int (Z.of_nat (length x)).

(** Line 216 in float64:
    [np.exp(np.mean(np.log(cmap[:, ind[i, :]]), axis=1)) / cmap[:, i]]. *)
Definition ratio_row (cmap : list (list float)) (ind : list (list nat))
    (i : nat) : option (list float) :=
  nb ← ind !! i;
  mapM (fun row =>
          vals ← mapM (fun j => row !! j) nb;
          logs ← mapM libm_log vals;
          geo ← libm_exp (mean logs);
          own ← row !! i;
          Some (geo / own)) cmap.

(** A parameter map of three samples, all values strictly positive, the
    first parameter of the first sample being [2^-1030]; and the two
    nearest neighbours of every sample. *)
Definition tiny_parameter_map : list (list float) :=
  [[0x1p-1030; 1; 1]; [1; 1; 1]; [1; 1; 1]].

Definition tiny_parameter_neighbours : list (list nat) :=
  [[1; 2]; [0; 2]; [0; 1]]%nat.

(** [x > 0] for every element of the map. *)
Definition all_positive (cmap : list (list float)) : bool :=
  forallb (forallb (fun v => 0 <? v)) cmap.

End f64.

(** ** Non-finite floating-point values

    [Fin r] is the float of value [r]; a zero divisor counts as [+0]. *)

Inductive npfloat : Type :=
  | Fin (r : R)
  | PInf
  | NInf
  | NaN.

Definition np_add (a b : npfloat) : npfloat :=
  match a, b with
  | NaN, _ | _, NaN => NaN
  | Fin x, Fin y => Fin (x + y)
  | PInf, NInf | NInf, PInf => NaN
  | PInf, _ | _, PInf => PInf
  | NInf, _ | _, NInf => NInf
  end.

(** The sign of a product with an infinity: NaN for a zero factor. *)
Definition np_signed_inf (positive : bool) (x : R) : npfloat :=
  if Req_dec_T x 0 then NaN
  else if Rlt_dec 0 x then (if positive then PInf else NInf)
  else (if positive then NInf else PInf).

Definition np_mul (a b : npfloat) : npfloat :=
  match a, b with
  | NaN, _ | _, NaN => NaN
  | Fin x, Fin y => Fin (x * y)
  | Fin x, PInf | PInf, Fin x => np_signed_inf true x
  | Fin x, NInf | NInf, Fin x => np_signed_inf false x
  | PInf, PInf | NInf, NInf => PInf
  | PInf, NInf | NInf, PInf => NInf
  end.

Definition np_div (a b : npfloat) : npfloat :=
  match a, b with
  | NaN, _ | _, NaN => NaN
  | Fin x, Fin y =>
      if Req_dec_T y 0
      then (if Req_dec_T x 0 then NaN else if Rlt_dec 0 x then PInf else NInf)
      else Fin (x / y)
  | Fin _, _ => Fin 0
  | PInf, Fin y => if Rlt_dec y 0 then NInf else PInf
  | NInf, Fin y => if Rlt_dec y 0 then PInf else NInf
  | _, _ => NaN
  end.

(** [np.log] and [np.log2]. *)
Definition np_log (a : npfloat) : npfloat :=
  match a with
  | Fin x => if Rlt_dec 0 x then Fin (ln x) else if Req_dec_T x 0 then NInf else NaN
  | PInf => PInf
  | NInf | NaN => NaN
  end.

Definition np_log2 (a : npfloat) : npfloat :=
  match a with
  | Fin x =>
      if Rlt_dec 0 x then Fin (ln x / ln 2)
      else if Req_dec_T x 0 then NInf else NaN
  | PInf => PInf
  | NInf | NaN => NaN
  end.

Definition np_exp (a : npfloat) : npfloat :=
  match a with
  | Fin x => Fin (exp x)
  | PInf => PInf
  | NInf => Fin 0
  | NaN => NaN
  end.

Definition np_sum (l : list npfloat) : npfloat := foldr np_add (Fin 0) l.

(** [np.mean] of a one-dimensional array; the mean of nothing is NaN. *)
Definition np_mean (l : list npfloat) : npfloat :=
  np_div (np_sum l) (Fin (INR (length l))).

Definition is_finite (a : npfloat) : Prop := exists r, a = Fin r.

(** The value of a finite float as a real number (0 stands for what has no
    value). *)
Definition np_value (a : npfloat) : R :=
  match a with
  | Fin r => r
  | _ => 0
  end.

#[global] Arguments np_log : simpl never.
#[global] Arguments np_log2 : simpl never.
#[global] Arguments np_exp : simpl never.
#[global] Arguments np_div : simpl never.
#[global] Arguments np_mean : simpl never.

(** ** NumPy and SciPy operations used by the script *)

Module np.

(** [np.arange(start, stop, step)] on floats: [len] values
    [start + n*step], where [len] is the number of elements that NumPy
    derives from its arguments in float64 ([f64.arange_len]).  For a step
    [1/sr] that is not a float exactly, the rounded quotient can exceed the
    exact one, and the array then has one element more. *)
Definition arange (start step : R) (len : nat) : vec :=
  map (fun n => start + INR n * step) (seq 0 len).

(** Element-wise binary operation on one-dimensional arrays, with NumPy's
    broadcasting: equal lengths, or one operand of length one. *)
Definition broadcast2 {A B C : Type} (f : A -> B -> C) (a : list A) (b : list B)
    : outcome (list C) :=
  if decide (length a = length b) then Ok (zip_with f a b)
  else match a, b with
       | [x], _ => Ok (map (f x) b)
       | _, [y] => Ok (map (fun x => f x y) a)
       | _, _ => Raise (ValueError "operands could not be broadcast together")
       end.

Definition mul : vec -> vec -> outcome vec := broadcast2 Rmult.

Definition sum (x : vec) : R := foldr Rplus 0 x.

(** [np.linalg.norm] of a one-dimensional array, over the reals: in
    float64 the square of a sample below about [1e-162] underflows, which
    [f64.linalg_norm], the same function on floats, shows. *)
Definition linalg_norm (x : vec) : R := sqrt (sum (map (fun v => v * v) x)).

(** [np.logspace(start, stop, num)]: [10 ** np.linspace(start, stop, num)],
    end point included; a single point is [10 ** start]. *)
Definition linspace (start stop : R) (num : nat) : vec :=
  match num with
  | O => []
  | 1%nat => [start]
  | S div =>
      map (fun i => if decide (i = div) then stop
                    else start + INR i * ((stop - start) / INR div))
          (seq 0 num)
  end.

(** [np.log10] of a positive number. *)
Definition log10 (x : R) : R := ln x / ln 10.

Definition logspace (start stop : R) (num : nat) : vec :=
  map (fun y => Rpower 10 y) (linspace start stop num).

End np.

(** [scipy.signal.gaussian(M, std)], symmetric: all ones for [M <= 1],
    otherwise [exp(-n**2 / (2*std*std))] for [n = arange(0, M) - (M-1)/2].
    With [std = 0] the quotient is [-inf], or NaN at the centre of an odd
    length, so that the window is zero, or NaN there. *)
Definition gaussian_sample (M : nat) (std : R) (n : nat) : npfloat :=
  let c := INR n - (INR M - 1) / 2 in
  np_exp (np_div (Fin (- (c * c))) (Fin (2 * std * std))).

Definition scipy_signal_gaussian (M : nat) (std : R) : list npfloat :=
  if (M <=? 1)%nat then replicate M (Fin 1)
  else map (gaussian_sample M std) (seq 0 M).

(** ** Signal generator *)

Definition sigma0 : R := 1 / 10.

Definition chirp_phase (f_c gamma t : R) : R :=
  2 * PI * f_c / (gamma * ln 2) * (Rpower 2 (gamma * t) - 1).

(** [sinusoid(f0, duration, sr)] (lines 22 to 24); [duration] and [sr] are
    integers, as in [generate]. *)
Definition sinusoid (f0 : R) (duration sr : nat) : outcome vec :=
  if decide (sr = 0%nat) then Raise ZeroDivisionError
  else
    let t := np.arange 0 (1 / INR sr)
               (f64.arange_len (f64.of_int 0) (f64.of_int (Z.of_nat duration))
                  (f64.truediv 1 (Z.of_nat sr))) in
    Ok (map (fun tn => sin (2 * PI * f0 * tn)) t).

(** [generate(f_c, f_m, gamma, bw, duration, sr)].  [duration] and [sr] are
    the integers that size the arrays; [1/sr] raises for [sr = 0].  The
    other arguments are Python numbers, as in a call of the function by
    hand, so that [sigma0 * bw / gamma] raises for [gamma = 0] (a NumPy
    scalar taken from an array gives an infinity there; the grids of
    [run_isomap] hold no zero).  The product of the carrier and the
    modulator, of as many samples as the time axis, meets the window of
    [duration * sr] samples under NumPy's broadcasting. *)
Definition generate (f_c f_m gamma bw : R) (duration sr : nat)
    : outcome (list npfloat) :=
  if decide (sr = 0%nat) then Raise ZeroDivisionError
  else
    let t := np.arange (- INR duration / 2) (1 / INR sr)
               (f64.arange_len (f64.truediv (- Z.of_nat duration) 2)
                  (f64.truediv (Z.of_nat duration) 2)
                  (f64.truediv 1 (Z.of_nat sr))) in
    let carrier := map (fun tn => sin (chirp_phase f_c gamma tn)) t in
    let modulator := map (fun tn => sin (2 * PI * f_m * tn)) t in
    if Req_dec_T gamma 0 then Raise ZeroDivisionError
    else
      let window_std := sigma0 * bw / gamma in
      let window := scipy_signal_gaussian (duration * sr) (window_std * INR sr) in
      cm ← np.mul carrier modulator;
      np.broadcast2 (fun a w => np_mul (Fin a) w) cm window.

(** Python loops. *)
Fixpoint for_each {A S : Type} (xs : list A) (body : A -> S -> outcome S)
    (s : S) : outcome S :=
  match xs with
  | [] => Ok s
  | x :: xs' => s' ← body x s; for_each xs' body s'
  end.

Fixpoint enumerate_from {A : Type} (i : nat) (l : list A) : list (nat * A) :=
  match l with
  | [] => []
  | x :: l' => (i, x) :: enumerate_from (S i) l'
  end.

Definition enumerate {A : Type} (l : list A) : list (nat * A) :=
  enumerate_from 0 l.

Definition zeros2 (r c : nat) : mat := replicate r (replicate c 0).
Definition zeros4 (a b c d : nat) : tens4 :=
  replicate a (replicate b (replicate c (replicate d 0))).

(** Indexing raises [IndexError] out of range (indices are never negative
    here: they come from [enumerate] and [range]). *)
Definition getitem {A : Type} (l : list A) (i : nat) : outcome A :=
  match l !! i with
  | Some x => Ok x
  | None => Raise IndexError
  end.

Definition getitem3 (t : tens4) (i j k : nat) : outcome vec :=
  plane ← getitem t i;
  line ← getitem plane j;
  getitem line k.

(** [t[i, j, k, :] = x]: the value has the row's length or is broadcast
    from length one. *)
Definition setitem3 (t : tens4) (i j k : nat) (x : vec) : outcome tens4 :=
  old ← getitem3 t i j k;
  if decide (length x = length old)
  then Ok (alter (alter (<[k := x]>) j) i t)
  else match x with
       | [v] => Ok (alter (alter (<[k := replicate (length old) v]>) j) i t)
       | _ => Raise (ValueError "could not broadcast input array")
       end.

(** [m[r, c] = v]. *)
Definition setitem2 (m : mat) (r c : nat) (v : R) : outcome mat :=
  row ← getitem m r;
  _ ← getitem row c;
  Ok (alter (<[c := v]>) r m).

(** [t.reshape(-1, L)] for a four-dimensional array whose last axis has
    length [L]: the unknown dimension cannot be inferred when [L = 0]. *)
Definition reshape_rows (L : nat) (t : tens4) : outcome mat :=
  if decide (L = 0%nat)
  then Raise (ValueError "cannot reshape array of size 0")
  else Ok (concat (concat t)).

(** Division of an array by a scalar, exact for a nonzero divisor (NumPy
    answers a zero divisor with infinities and NaN). *)
Definition div_scalar (x : vec) (s : R) : vec := map (fun v => v / s) x.

(** The state of the three nested loops of [generate_audio]. *)
Definition gen_state : Type := tens4 * mat * nat.

(** One iteration of the innermost loop (lines 48 to 51).  The tensor holds
    the samples as reals: at the default bandwidth every sample that
    [generate] returns is finite. *)
Definition generate_audio_body (duration sr : nat) (i : nat) (f0 : R)
    (j : nat) (fm : R) (k : nat) (gamma : R) (st : gen_state)
    : outcome gen_state :=
  let '(audio, cmap, c) := st in
  x ← generate f0 fm gamma 2 duration sr;
  audio ← setitem3 audio i j k (np_value <$> x);
  row ← getitem3 audio i j k;
  audio ← setitem3 audio i j k (div_scalar row (np.linalg_norm row));
  cmap ← setitem2 cmap 0 c f0;
  cmap ← setitem2 cmap 1 c fm;
  cmap ← setitem2 cmap 2 c gamma;
  Ok (audio, cmap, S c).

#[global] Arguments generate_audio_body : simpl never.

Definition generate_audio (f0s fms gammas : vec) (duration sr : nat)
    : outcome (tens4 * mat) :=
  let audio := zeros4 (length f0s) (length fms) (length gammas) (duration * sr) in
  let cmap := zeros2 3 (length f0s * length fms * length gammas) in
  st ← for_each (enumerate f0s) (fun '(i, f0) =>
         for_each (enumerate fms) (fun '(j, fm) =>
           for_each (enumerate gammas) (fun '(k, gamma) =>
             generate_audio_body duration sr i f0 j fm k gamma)))
       (audio, cmap, 0%nat);
  Ok (st.1.1, st.1.2).

(** Sequencing of a fallible function over a list (a list comprehension
    whose element expression may raise). *)
Fixpoint traverse {A B : Type} (f : A -> outcome B) (l : list A)
    : outcome (list B) :=
  match l with
  | [] => Ok []
  | x :: l' => y ← f x; ys ← traverse f l'; Ok (y :: ys)
  end.

(** [m[:, c]] of a two-dimensional array. *)
Definition column {A : Type} (m : list (list A)) (c : nat) : outcome (list A) :=
  traverse (fun row => getitem row c) m.

(** [m[i, :] = x] with the broadcasting of [setitem3]. *)
Definition setitem_row (m : mat) (i : nat) (x : vec) : outcome mat :=
  old ← getitem m i;
  if decide (length x = length old) then Ok (<[i := x]> m)
  else match x with
       | [v] => Ok (<[i := replicate (length old) v]> m)
       | _ => Raise (ValueError "could not broadcast input array")
       end.

(** ** The world: file system, warnings, module globals *)

(** [openl3.get_audio_embedding(audio_list, sr, batch_size=32,
    frontend='kapre', content_type='music')]: the embeddings (one
    time-by-dimension array per waveform) and their time stamps. *)
Definition openl3_module : Type :=
  list vec -> nat -> outcome (list mat * list vec).

(** What a run does to its environment, in order. *)
Inductive event : Type :=
  | EvWarn (msg : string)
  | EvMakedirs (path : string)
  | EvIsomapFit (n_neighbors n_samples : nat)
  | EvSavefig (path : string).

Record world : Type := World {
  cwd : string;
  fs_dirs : gset string;
  fs_files : gset string;
  trace : list event;
  openl3 : option openl3_module;
  skip_openl3 : bool
}.

Definition M (A : Type) : Type := world -> outcome A * world.

#[global] Instance M_ret : MRet M := fun A a w => (Ok a, w).
#[global] Instance M_bind : MBind M := fun A B f m w =>
  match m w with
  | (Ok a, w') => f a w'
  | (Raise e, w') => (Raise e, w')
  end.

Definition lift {A : Type} (o : outcome A) : M A := fun w => (o, w).

(** Updates of the world. *)
Definition add_event (ev : event) (w : world) : world :=
  World (cwd w) (fs_dirs w) (fs_files w) (trace w ++ [ev]) (openl3 w)
        (skip_openl3 w).

Definition add_dirs (ds : gset string) (w : world) : world :=
  World (cwd w) (fs_dirs w ∪ ds) (fs_files w) (trace w) (openl3 w)
        (skip_openl3 w).

Definition add_file (p : string) (w : world) : world :=
  World (cwd w) (fs_dirs w) (fs_files w ∪ {[ p ]}) (trace w) (openl3 w)
        (skip_openl3 w).

Definition log_event (ev : event) : M unit := fun w => (Ok (), add_event ev w).

Fixpoint for_each_M {A S : Type} (xs : list A) (body : A -> S -> M S)
    (s : S) : M S :=
  match xs with
  | [] => mret s
  | x :: xs' => s' ← body x s; for_each_M xs' body s'
  end.

(** *** Paths *)

Definition starts_with_sep (s : string) : bool :=
  match s with
  | String c _ => bool_decide (c = "/"%char)
  | EmptyString => false
  end.

Fixpoint ends_with_sep (s : string) : bool :=
  match s with
  | EmptyString => false
  | String c EmptyString => bool_decide (c = "/"%char)
  | String _ s' => ends_with_sep s'
  end.

(** [os.path.join(a, b)] on POSIX. *)
Definition path_join (a b : string) : string :=
  if starts_with_sep b then b
  else if bool_decide (a = "") || ends_with_sep a then a +:+ b
  else a +:+ "/" +:+ b.

(** The proper ancestors named by a path: its prefixes that end just
    before a separator. *)
Fixpoint path_ancestors (pre rest : string) : list string :=
  match rest with
  | EmptyString => []
  | String c rest' =>
      (if bool_decide (c = "/"%char) && negb (bool_decide (pre = ""))
       then [pre] else [])
      ++ path_ancestors (pre +:+ String c "") rest'
  end.

Definition os_getcwd : M string := fun w => (Ok (cwd w), w).

Definition os_path_exists (p : string) : M bool := fun w =>
  (Ok (bool_decide (p ∈ fs_dirs w ∨ p ∈ fs_files w)), w).

(** [os.makedirs(p, exist_ok)]: creates the directory and the missing
    intermediate ones; an existing target is an error unless [exist_ok].
    Directories are identified by the path string as given.  The file
    system is taken to permit the creation: no regular file stands in the
    way and permissions suffice. *)
Definition os_makedirs (p : string) (exist_ok : bool) : M unit := fun w =>
  if decide (p ∈ fs_dirs w)
  then ((if exist_ok then Ok () else Raise (FileExistsError p)), w)
  else (Ok (),
        add_event (EvMakedirs p)
          (add_dirs (list_to_set (path_ancestors "" p) ∪ {[ p ]}) w)).

(** [plt.savefig(p)]; the directory of [p] has been created by the caller,
    and the write is taken to succeed. *)
Definition plt_savefig (p : string) : M unit := fun w =>
  (Ok (), add_event (EvSavefig p) (add_file p w)).

(** *** Module load: the optional import (lines 13 to 19)

    [import_result] is what [import openl3] does in the environment at
    hand; the bare [except] catches every exception. *)
Definition module_load (import_result : outcome openl3_module) : M unit :=
  fun w =>
  match import_result with
  | Ok m =>
      (Ok (),
       World (cwd w) (fs_dirs w) (fs_files w) (trace w) (Some m) false)
  | Raise _ =>
      (Ok (),
       add_event (EvWarn "Could not import `openl3`, will skip experiment")
         (World (cwd w) (fs_dirs w) (fs_files w) (trace w) (openl3 w) true))
  end.

(** ** The external collaborators *)

Record libs : Type := Libs {
  (** [librosa.feature.mfcc(y=y, sr=sr)]: coefficients by frames. *)
  librosa_feature_mfcc : vec -> nat -> outcome mat;
  (** [Scattering1D(shape=(N,), T=N, Q=1, pad_mode='zero', J=J).cuda()]:
      the transform, paths by time. *)
  Scattering1D : nat -> Z -> outcome (vec -> outcome mat);
  (** [TimeFrequencyScattering1D(shape=(N,), T=N, Q=8, J=J, ...).cuda()]:
      the transform, batch by paths by time. *)
  TimeFrequencyScattering1D : nat -> Z -> outcome (vec -> outcome tens3);
  (** [torch.tensor(audio).cuda()]: the same values on the accelerator, or
      an error without one. *)
  torch_cuda : outcome unit;
  (** [import auditory] from the sibling directory, giving
      [auditory.strf(x, audio_fs=sr, duration=duration)]; the first
      component is returned with its trailing axes flattened, as
      [S[0].reshape((S[0].shape[0], S[0].shape[1], -1))] makes it. *)
  import_auditory : outcome (vec -> nat -> nat -> outcome (tens3 * mat));
  (** The fitted state of [Isomap(n_components, n_neighbors)]. *)
  isomap_model : Type;
  Isomap_fit_transform : nat -> nat -> mat -> outcome (mat * isomap_model);
  (** [model.nbrs_.kneighbors()]: distances and neighbour indices. *)
  nbrs_kneighbors : isomap_model -> outcome (mat * list (list nat));
  (** [ax.scatter3D(xs, ys, zs, c=c, cmap='bwr')]. *)
  scatter3D : vec -> vec -> vec -> vec -> outcome unit;
  (** [ax.plot(np.random.uniform(i - 0.1, i + 0.1, N), y, ".")] with the
      tick and grid decoration that follows it. *)
  ax_plot : nat -> nat -> list npfloat -> outcome unit
}.

(** ** Feature extractors *)

(** [np.mean(m, axis=-1)]. *)
Definition mean_last_axis (m : mat) : vec :=
  map (fun row => np.sum row / INR (length row)) m.

(** [int(np.log2(N) - 1)]: the logarithm of zero is minus infinity, which
    [int] refuses; otherwise the value is truncated. *)
Definition scattering_J (N : nat) : outcome Z :=
  if decide (N = 0%nat) then Raise OverflowError
  else Ok (Z.log2 (Z.of_nat N) - 1)%Z.

(** [np.mean(t, axis=0)] of a rectangular three-dimensional array. *)
Definition mean_axis0 (t : tens3) : mat :=
  match t with
  | [] => []
  | first :: _ =>
      imap (fun f row0 =>
        imap (fun p _ =>
          np.sum (map (fun plane => nth p (nth f plane []) 0) t)
          / INR (length t)) row0) first
  end.

(** [np.stack(X).mean(axis=1)] for a list of two-dimensional arrays: the
    arrays must be as many as one at least and of one shape. *)
Definition stack_mean_axis1 (X : list mat) : outcome mat :=
  match X with
  | [] => Raise (ValueError "need at least one array to stack")
  | first :: _ =>
      if forallb (fun m => bool_decide (length <$> m = length <$> first)) X
      then Ok (map (fun m =>
             imap (fun d _ =>
               np.sum (map (fun row => nth d row 0) m) / INR (length m))
               (nth 0 m [])) X)
      else Raise (ValueError "all input arrays must have the same shape")
  end.

Section pipeline.

Context (L : libs).

Definition extract_mfcc_body (audio : tens4) (sr : nat) (i j k : nat)
    (mfcc : tens4) : outcome tens4 :=
  y ← getitem3 audio i j k;
  m ← librosa_feature_mfcc L y sr;
  setitem3 mfcc i j k (mean_last_axis m).

Definition extract_mfcc (audio : tens4) (f0s fms gammas : vec) (sr : nat)
    (n_mfcc : nat) : outcome mat :=
  let mfcc := zeros4 (length f0s) (length fms) (length gammas) n_mfcc in
  mfcc ← for_each (enumerate f0s) (fun '(i, _) =>
           for_each (enumerate fms) (fun '(j, _) =>
             for_each (enumerate gammas) (fun '(k, _) =>
               extract_mfcc_body audio sr i j k)))
         mfcc;
  reshape_rows n_mfcc mfcc.

Definition extract_time_scattering (audio : mat) (duration sr : nat)
    : outcome mat :=
  let N := (duration * sr)%nat in
  J ← scattering_J N;
  scat ← Scattering1D L N J;
  _ ← torch_cuda L;
  let X := audio in
  let n_samples := length X in
  x0 ← getitem X 0;
  s0 ← scat x0;
  let n_paths := length s0 in
  for_each (seq 0 n_samples) (fun i sx =>
      xi ← getitem X i;
      s ← scat xi;
      col ← column s 0;
      setitem_row sx i col)
    (zeros2 n_samples n_paths).

Definition extract_jtfs (audio : mat) (duration sr : nat) : outcome mat :=
  let N := (duration * sr)%nat in
  J ← scattering_J N;
  jtfs ← TimeFrequencyScattering1D L N J;
  _ ← torch_cuda L;
  let X := audio in
  let n_samples := length X in
  x0 ← getitem X 0;
  s0 ← jtfs x0;
  let n_paths := length (nth 0 s0 []) in
  for_each (seq 0 n_samples) (fun i sx =>
      xi ← getitem X i;
      s ← jtfs xi;
      v ← traverse (fun plane => column plane 0) s;
      match v with
      | [row] => setitem_row sx i row
      | _ => Raise (LibraryError "shape mismatch")
      end)
    (zeros2 n_samples n_paths).

(** The only reader of the global [openl3]; it does not look at
    [skip_openl3]. *)
Definition extract_openl3 (audio : mat) (sr : nat) : M mat := fun w =>
  match openl3 w with
  | None => (Raise (NameError "openl3"), w)
  | Some get_audio_embedding =>
      (r ← get_audio_embedding audio sr; stack_mean_axis1 r.1, w)
  end.

(** The reshaping of one [auditory.strf] result (lines 126 to 129). *)
Definition strf_features (S : tens3 * mat) : outcome mat :=
  if bool_decide (((fun plane => length plane) <$> S.1) = ((fun row => length row) <$> S.2))
  then Ok (mean_axis0
             (zip_with (zip_with (fun paths v => paths ++ [v])) S.1 S.2))
  else Raise (ValueError "all the input array dimensions must match").

Definition extract_strf (audio : mat) (duration sr : nat) : outcome mat :=
  strf ← import_auditory L;
  let X := audio in
  let n_samples := length X in
  x0 ← getitem X 0;
  S ← strf x0 sr duration;
  S ← strf_features S;
  let n_freqs := length S in
  let n_paths := length (nth 0 S []) in
  sx ← @for_each nat tens3 (seq 0 n_samples) (fun i sx =>
          xi ← getitem X i;
          S ← strf xi sr duration;
          S ← strf_features S;
          _ ← getitem sx i;
          if bool_decide (length <$> S = replicate n_freqs n_paths)
          then Ok (<[i := S]> sx)
          else Raise (ValueError "could not broadcast input array"))
        (replicate n_samples (replicate n_freqs (replicate n_paths 0)));
  Ok (map (fun S : mat => concat S) sx).

(** ** Plots *)

Definition plot_isomap (Y cmap : mat) (out_dir : string) : M unit :=
  y0 ← lift (column Y 0);
  y1 ← lift (column Y 1);
  y2 ← lift (column Y 2);
  c0 ← lift (getitem cmap 0);
  _ ← lift (scatter3D L y0 y1 y2 c0);
  c1 ← lift (getitem cmap 1);
  _ ← lift (scatter3D L y0 y1 y2 c1);
  c2 ← lift (getitem cmap 2);
  _ ← lift (scatter3D L y0 y1 y2 c2);
  plt_savefig (path_join out_dir "isomap.png").

Definition plot_knn_regression (ratios : list (string * list (list npfloat)))
    (out_dir : string) : M unit :=
  first ← lift (getitem ratios 0);
  col0 ← lift (column first.2 0);
  let N := length col0 in
  _ ← lift (for_each (enumerate ratios) (fun '(i, (_, ratio)) _ =>
         for_each (seq 0 3) (fun idx _ =>
           col ← column ratio idx;
           ax_plot L i N (np_log2 <$> col)) ()) ());
  plt_savefig (path_join out_dir "knn.png").

(** ** Manifold embedding and recovery ratios *)

(** [X[feat]] and [d[feat] = v] on a dictionary kept in insertion order. *)
Definition dict_get {V : Type} (d : list (string * V)) (key : string)
    : outcome V :=
  match list_find (fun kv => kv.1 = key) d with
  | Some (_, kv) => Ok kv.2
  | None => Raise (LibraryError "KeyError")
  end.

Definition dict_set {V : Type} (d : list (string * V)) (key : string) (v : V)
    : list (string * V) :=
  match list_find (fun kv => kv.1 = key) d with
  | Some (i, _) => <[i := (key, v)]> d
  | None => d ++ [(key, v)]
  end.

(** [np.exp(np.mean(np.log(cmap[:, ind[i, :]]), axis=1)) / cmap[:, i]]. *)
Definition ratio_row (cmap : mat) (ind : list (list nat)) (i : nat)
    : outcome (list npfloat) :=
  nb ← getitem ind i;
  sel ← traverse (fun row => traverse (getitem row) nb) cmap;
  let geo := (fun vals => np_exp (np_mean ((fun v => np_log (Fin v)) <$> vals)))
             <$> sel in
  own ← column cmap i;
  Ok (zip_with np_div geo (Fin <$> own)).

(** [np.vstack] of a list of rows. *)
Definition vstack {A : Type} (rows : list (list A)) : outcome (list (list A)) :=
  match rows with
  | [] => Raise (ValueError "need at least one array to concatenate")
  | _ => Ok rows
  end.

Definition compute_ratios (cmap : mat) (ind : list (list nat)) (n_samples : nat)
    : outcome (list (list npfloat)) :=
  rows ← traverse (ratio_row cmap ind) (seq 0 n_samples);
  vstack rows.

Definition isomap_fit (n_neighbors : nat) (X : mat)
    : M (mat * isomap_model L) :=
  _ ← log_event (EvIsomapFit n_neighbors (length X));
  lift (Isomap_fit_transform L 3 n_neighbors X).

Definition run_isomaps_feat (X : list (string * mat)) (cmap : mat)
    (out_dir : string) (n_neighbors : nat) (feat : string)
    (ratios : list (string * list (list npfloat)))
    : M (list (string * list (list npfloat))) :=
  let feat_dir := path_join out_dir feat in
  _ ← os_makedirs feat_dir true;
  table ← lift (dict_get X feat);
  fitted ← isomap_fit n_neighbors table;
  _ ← plot_isomap fitted.1 cmap feat_dir;
  knn ← lift (nbrs_kneighbors L fitted.2);
  ratio ← lift (compute_ratios cmap knn.2 (length table));
  mret (dict_set ratios feat ratio).

(** The loop over the feature families (lines 205 to 218). *)
Definition run_isomaps_loop (X : list (string * mat)) (cmap : mat)
    (out_dir : string) (n_neighbors : nat)
    : M (list (string * list (list npfloat))) :=
  for_each_M (X.*1) (run_isomaps_feat X cmap out_dir n_neighbors) [].

Definition run_isomaps (X : list (string * mat)) (cmap : mat)
    (out_dir : string) (n_neighbors : nat) : M unit :=
  ratios ← run_isomaps_loop X cmap out_dir n_neighbors;
  plot_knn_regression ratios out_dir.

(** ** The entry point *)

(** Lines 241 to 256 of [run_isomap], once the output directory is known. *)
Definition run_isomap_grid (n_steps : nat)
    (f0_min f0_max fm_min fm_max gamma_min gamma_max : R)
    (duration sr : nat) (out_dir : string) : M unit :=
  let f0s := np.logspace (np.log10 f0_min) (np.log10 f0_max) n_steps in
  let fms := np.logspace (np.log10 fm_min) (np.log10 fm_max) n_steps in
  let gammas := np.logspace (np.log10 gamma_min) (np.log10 gamma_max) n_steps in
  ac ← lift (generate_audio f0s fms gammas duration sr);
  let audio := ac.1 in
  let cmap := ac.2 in
  mfcc ← lift (extract_mfcc audio f0s fms gammas sr 20);
  flat ← lift (reshape_rows (duration * sr) audio);
  ts ← lift (extract_time_scattering flat duration sr);
  flat ← lift (reshape_rows (duration * sr) audio);
  jtfs ← lift (extract_jtfs flat duration sr);
  flat ← lift (reshape_rows (duration * sr) audio);
  ol3 ← extract_openl3 flat sr;
  flat ← lift (reshape_rows (duration * sr) audio);
  strf ← lift (extract_strf flat duration sr);
  let X := [("MFCC", mfcc); ("TS", ts); ("JTFS", jtfs); ("OPEN-L3", ol3);
            ("STRF", strf)] in
  run_isomaps X cmap out_dir 40.

(** [bw] is accepted and not used: [generate_audio] calls [generate] with
    its default bandwidth. *)
Definition run_isomap (n_steps : nat)
    (f0_min f0_max fm_min fm_max gamma_min gamma_max bw : R)
    (duration sr : nat) (out_dir : string) : M unit :=
  here ← os_getcwd;
  let out_dir := here +:+ out_dir in
  present ← os_path_exists out_dir;
  _ ← (if present : bool then mret () else os_makedirs out_dir false);
  run_isomap_grid n_steps f0_min f0_max fm_min fm_max gamma_min gamma_max
    duration sr out_dir.

End pipeline.

#[global] Arguments extract_mfcc_body : simpl never.

(** ** Closed forms used to state the results

    These definitions are not part of the script: they name what its loops
    are proved to compute. *)

(** The number of samples of the time axis of [generate], and of that of
    [sinusoid], as NumPy counts them. *)
Definition time_axis_len (duration sr : nat) : nat :=
  f64.arange_len (f64.truediv (- Z.of_nat duration) 2)
    (f64.truediv (Z.of_nat duration) 2) (f64.truediv 1 (Z.of_nat sr)).

Definition sinusoid_len (duration sr : nat) : nat :=
  f64.arange_len (f64.of_int 0) (f64.of_int (Z.of_nat duration))
    (f64.truediv 1 (Z.of_nat sr)).

(** The value of sample [n] of the Gaussian window for a standard deviation
    that is not zero. *)
Definition gaussian_weight (M : nat) (std : R) (n : nat) : R :=
  let c := INR n - (INR M - 1) / 2 in
  exp (- (c * c) / (2 * std * std)).

(** The product of the carrier and the modulator at sample [n]. *)
Definition chirp_sample (f_c f_m gamma : R) (duration sr n : nat) : R :=
  let t := - INR duration / 2 + INR n * (1 / INR sr) in
  sin (chirp_phase f_c gamma t) * sin (2 * PI * f_m * t).

(** The sample of index [n] of [generate], as the three factors of the
    source, for a window of nonzero standard deviation. *)
Definition generate_sample (f_c f_m gamma bw : R) (duration sr n : nat) : R :=
  let t := - INR duration / 2 + INR n * (1 / INR sr) in
  sin (chirp_phase f_c gamma t) * sin (2 * PI * f_m * t)
  * gaussian_weight (duration * sr) (sigma0 * bw / gamma * INR sr) n.

Definition raw_waveform (f0 fm gamma : R) (duration sr : nat) : vec :=
  map (generate_sample f0 fm gamma 2 duration sr) (seq 0 (duration * sr)).

(** What [generate_audio] stores for one grid point. *)
Definition unit_waveform (f0 fm gamma : R) (duration sr : nat) : vec :=
  div_scalar (raw_waveform f0 fm gamma duration sr)
             (np.linalg_norm (raw_waveform f0 fm gamma duration sr)).

(** The mean over the time frames (the rows) of one embedding, as
    [stack_mean_axis1] takes it. *)
Definition time_mean (m : mat) : vec :=
  imap (fun d _ => np.sum (map (fun row => nth d row 0) m) / INR (length m))
       (nth 0 m []).

(** The grid points in the order of the three nested loops. *)
Definition grid_points (f0s fms gammas : vec) : list (R * R * R) :=
  f0 ← f0s; fm ← fms; (fun gamma => (f0, fm, gamma)) <$> gammas.

(** A parameter map whose first columns are filled with [pts] and whose
    last [r] columns are still zero. *)
Definition param_map (pts : list (R * R * R)) (r : nat) : mat :=
  [ ((fun p => p.1.1) <$> pts) ++ replicate r 0;
    ((fun p => p.1.2) <$> pts) ++ replicate r 0;
    ((fun p => p.2) <$> pts) ++ replicate r 0 ].

Definition audio_tensor (f0s fms gammas : vec) (duration sr : nat) : tens4 :=
  (fun f0 => (fun fm => (fun gamma =>
     unit_waveform f0 fm gamma duration sr) <$> gammas) <$> fms) <$> f0s.

(** The row of the MFCC table computed from the waveform [y]. *)
Definition mfcc_row (L : libs) (sr : nat) (y : vec) : vec :=
  match librosa_feature_mfcc L y sr with
  | Ok m => mean_last_axis m
  | Raise _ => []
  end.

(** [librosa.feature.mfcc] answers on [y] with [n] coefficient rows. *)
Definition mfcc_answers (L : libs) (sr n : nat) (y : vec) : Prop :=
  exists m, librosa_feature_mfcc L y sr = Ok m /\ length m = n.

(** The shape of an array held as nested lists. *)
Definition has_shape4 (t : tens4) (a b c d : nat) : Prop :=
  length t = a
  /\ Forall (fun plane => length plane = b
       /\ Forall (fun line => length line = c
            /\ Forall (fun row : vec => length row = d) line) plane) t.

Definition has_shape2 {A : Type} (m : list (list A)) (r c : nat) : Prop :=
  length m = r /\ Forall (fun row => length row = c) m.

(** A world with an empty file system below the working directory [here],
    no warning raised and [openl3] not bound. *)
Definition initial_world (here : string) : world :=
  World here ∅ ∅ [] None false.

(** The product of the values of an array. *)
Definition np_prod (x : vec) : R := foldr Rmult 1 x.

(** The geometric mean of positive values. *)
Definition geometric_mean (x : vec) : R := Rpower (np_prod x) (/ INR (length x)).

(** The ratio table of feature [feat]: computed from the neighbours that
    the model fitted on [X[feat]] reports. *)
Definition ratio_table_of (L : libs) (X : list (string * mat)) (cmap : mat)
    (n_neighbors : nat) (feat : string) (ratio : list (list npfloat))
    (ind : list (list nat)) (table : mat) : Prop :=
  exists Y model dist,
    dict_get X feat = Ok table
    /\ Isomap_fit_transform L 3 n_neighbors table = Ok (Y, model)
    /\ nbrs_kneighbors L model = Ok (dist, ind)
    /\ compute_ratios cmap ind (length table) = Ok ratio.

(** The feature table of [run_isomap], with one-sample tables, and a
    one-sample parameter map. *)
Definition five_families : list (string * mat) :=
  [("MFCC", [[0]]); ("TS", [[0]]); ("JTFS", [[0]]); ("OPEN-L3", [[0]]);
   ("STRF", [[0]])].

Definition one_sample_map : mat := [[512]; [4]; [1 / 2]].

(** [w'] is [w] after some steps of a run: the working directory and the
    module globals are the same, directories, files and events have only
    been added. *)
Definition extends (w w' : world) : Prop :=
  cwd w' = cwd w /\ openl3 w' = openl3 w /\ skip_openl3 w' = skip_openl3 w
  /\ fs_dirs w ⊆ fs_dirs w' /\ fs_files w ⊆ fs_files w'
  /\ trace w `prefix_of` trace w'.

Definition monotone {A : Type} (m : M A) : Prop :=
  forall w, extends w (m w).2.

(** The same world with another value of the flag [skip_openl3]. *)
Definition with_skip (b : bool) (w : world) : world :=
  World (cwd w) (fs_dirs w) (fs_files w) (trace w) (openl3 w) b.

(** [m] neither reads nor writes the flag. *)
Definition ignores_skip {A : Type} (m : M A) : Prop :=
  forall w b, m (with_skip b w) = ((m w).1, with_skip b (m w).2).

(** A scikit-learn that refuses to fit when the neighbour count reaches the
    number of samples; everything else as in [constant_libs]. *)
Definition strict_isomap_fit (n_components n_neighbors : nat) (X : mat)
    : outcome (mat * list (list nat)) :=
  if decide (length X <= n_neighbors)%nat
  then Raise (ValueError "Expected n_neighbors <= n_samples")
  else Ok ((fun _ => [0; 0; 0]) <$> X, (fun _ => [0%nat]) <$> X).

(** What is left of one iteration of the loop once the model is fitted. *)
Definition after_fit (L : libs) (cmap : mat) (out_dir feat : string)
    (acc : list (string * list (list npfloat))) (table : mat)
    (fitted : mat * isomap_model L)
    : M (list (string * list (list npfloat))) :=
  _ ← plot_isomap L fitted.1 cmap (path_join out_dir feat);
  knn ← lift (nbrs_kneighbors L fitted.2);
  ratio ← lift (compute_ratios cmap knn.2 (length table));
  mret (dict_set acc feat ratio).

(** [s.split("/")]: the components of a path string. *)
Fixpoint split_sep (s : string) : list string :=
  match s with
  | EmptyString => [""]
  | String c s' =>
      if bool_decide (c = "/"%char) then "" :: split_sep s'
      else match split_sep s' with
           | h :: t => String c h :: t
           | [] => [String c ""]
           end
  end.

(** The components of a concatenation: the last component of the first
    string and the first component of the second become one. *)
Fixpoint fuse (xs ys : list string) : list string :=
  match xs with
  | [] => ys
  | x :: xs' =>
      match xs' with
      | [] => match ys with
              | [] => [x]
              | y :: ys' => (x +:+ y) :: ys'
              end
      | _ :: _ => x :: fuse xs' ys
      end
  end.

(** ** Predicates on runs

    Used to state what a run does to the world whatever its outcome. *)

(** [m] adds no file outside [P]. *)
Definition writes_within {A : Type} (P : gset string) (m : M A) : Prop :=
  forall w, fs_files (m w).2 ⊆ fs_files w ∪ P.

(** The result of [m] (not the world it leaves) is the same in every
    world. *)
Definition world_blind {A : Type} (m : M A) : Prop :=
  forall w1 w2, (m w1).1 = (m w2).1.

Definition is_makedirs (ev : event) : bool :=
  match ev with EvMakedirs _ => true | _ => false end.

(** The events of a trace other than the creation of directories. *)
Definition without_makedirs (t : list event) : list event :=
  List.filter (fun ev => negb (is_makedirs ev)) t.

(** The magnitudes of a ground-truth parameter for which the ratio of line
    216 stays far inside the range of float64. *)
Definition parameter_range (v : R) : Prop := / 2 ^ 500 <= v <= 2 ^ 500.

(** The contract of scikit-learn's [kneighbors] on a fitted model: every
    sample has at least one neighbour ([n_neighbors] of them, and a model
    is fitted only with [n_neighbors >= 1]). *)
Definition kneighbors_nonempty (L : libs) (n_neighbors : nat) : Prop :=
  forall table Y model dist ind,
    Isomap_fit_transform L 3 n_neighbors table = Ok (Y, model) ->
    nbrs_kneighbors L model = Ok (dist, ind) ->
    Forall (fun nb => nb <> []) ind.

(** ** Collaborators with constant answers

    A stand-in for the libraries, used to exhibit concrete runs: every
    transform answers with zeros of a fixed shape, and the embedding accepts
    any neighbour count and names sample 0 as the neighbour of every
    sample. *)
Definition constant_libs : libs := {|
  librosa_feature_mfcc := fun _ _ => Ok (replicate 20 [0]);
  Scattering1D := fun _ _ => Ok (fun _ => Ok [[0]]);
  TimeFrequencyScattering1D := fun _ _ => Ok (fun _ => Ok [[[0]]]);
  torch_cuda := Ok ();
  import_auditory := Ok (fun _ _ _ => Ok ([[[0]]], [[0]]));
  isomap_model := list (list nat);
  Isomap_fit_transform := fun _ _ X =>
    Ok ((fun _ => [0; 0; 0]) <$> X, (fun _ => [0%nat]) <$> X);
  nbrs_kneighbors := fun ind => Ok ([], ind);
  scatter3D := fun _ _ _ _ => Ok ();
  ax_plot := fun _ _ _ => Ok ()
|}.

Definition strict_libs : libs := {|
  librosa_feature_mfcc := librosa_feature_mfcc constant_libs;
  Scattering1D := Scattering1D constant_libs;
  TimeFrequencyScattering1D := TimeFrequencyScattering1D constant_libs;
  torch_cuda := torch_cuda constant_libs;
  import_auditory := import_auditory constant_libs;
  isomap_model := list (list nat);
  Isomap_fit_transform := strict_isomap_fit;
  nbrs_kneighbors := fun ind => Ok ([], ind);
  scatter3D := scatter3D constant_libs;
  ax_plot := ax_plot constant_libs
|}.

(** ** Collaborators with a neighbour graph

    A scikit-learn that refuses to fit when the neighbour count reaches the
    number of samples, as the real one does, and otherwise reports for
    every sample the [n_neighbors] samples that follow it, cyclically. *)
Definition ring_isomap_fit (n_components n_neighbors : nat) (X : mat)
    : outcome (mat * list (list nat)) :=
  if decide (length X <= n_neighbors)%nat
  then Raise (ValueError "Expected n_neighbors <= n_samples_fit")
  else Ok ((fun _ => replicate n_components 0) <$> X,
           (fun i => (fun d => (i + d) mod length X) <$> seq 1 n_neighbors)
           <$> seq 0 (length X)).

Definition ring_libs : libs := {|
  librosa_feature_mfcc := librosa_feature_mfcc constant_libs;
  Scattering1D := Scattering1D constant_libs;
  TimeFrequencyScattering1D := TimeFrequencyScattering1D constant_libs;
  torch_cuda := torch_cuda constant_libs;
  import_auditory := import_auditory constant_libs;
  isomap_model := list (list nat);
  Isomap_fit_transform := ring_isomap_fit;
  nbrs_kneighbors := fun ind =>
    Ok ((fun row : list nat => (fun _ : nat => 0) <$> row) <$> ind, ind);
  scatter3D := scatter3D constant_libs;
  ax_plot := ax_plot constant_libs
|}.

(** Five feature tables of six samples, and the parameter map of six grid
    points. *)
Definition six_sample_table : mat :=
  [[0; 0]; [1; 1]; [2; 4]; [3; 9]; [4; 16]; [5; 25]].

Definition six_sample_families : list (string * mat) :=
  [("MFCC", six_sample_table); ("TS", six_sample_table);
   ("JTFS", six_sample_table); ("OPEN-L3", six_sample_table);
   ("STRF", six_sample_table)].

Definition six_sample_map : mat :=
  [[512; 512; 512; 1024; 1024; 1024]; [4; 4; 4; 4; 4; 4];
   [1 / 2; 1; 2; 1 / 2; 1; 2]].

(** * Properties *)

(** ** The error monad *)

Lemma bind_Ok {A B : Type} (m : outcome A) (f : A -> outcome B) (b : B) :
  m ≫= f = Ok b -> exists a, m = Ok a /\ f a = Ok b.
Proof. destruct m as [a|e]; simpl; [eauto | discriminate]. Qed.

Lemma getitem_lookup {A : Type} (l : list A) (i : nat) (x : A) :
  l !! i = Some x -> getitem l i = Ok x.
Proof. unfold getitem. intros ->. reflexivity. Qed.

Lemma getitem_Ok {A : Type} (l : list A) (i : nat) (x : A) :
  getitem l i = Ok x -> l !! i = Some x.
Proof. unfold getitem. destruct (l !! i); [congruence|discriminate]. Qed.

(** ** Arrays *)

Lemma arange_length (start step : R) (len : nat) :
  length (np.arange start step len) = len.
Proof. unfold np.arange. rewrite length_map. apply length_seq. Qed.

Lemma arange_lookup (start step : R) (len n : nat) :
  (n < len)%nat ->
  np.arange start step len !! n = Some (start + INR n * step).
Proof.
  intros Hn. unfold np.arange.
  rewrite list_lookup_fmap, lookup_seq_lt by exact Hn. reflexivity.
Qed.

Lemma broadcast2_same_length {A B C : Type} (f : A -> B -> C)
    (a : list A) (b : list B) :
  length a = length b -> np.broadcast2 f a b = Ok (zip_with f a b).
Proof. intros H. unfold np.broadcast2. rewrite decide_True by exact H. reflexivity. Qed.

(** One second at one sample per second has one sample. *)
Lemma time_axis_len_one : time_axis_len 1 1 = 1%nat.
Proof. vm_compute. reflexivity. Qed.

Lemma gaussian_length (M : nat) (std : R) :
  length (scipy_signal_gaussian M std) = M.
Proof.
  unfold scipy_signal_gaussian. destruct (M <=? 1)%nat.
  - apply length_replicate.
  - rewrite length_map. apply length_seq.
Qed.

Lemma gaussian_sample_nonzero (M : nat) (std : R) (n : nat) :
  std <> 0 -> gaussian_sample M std n = Fin (gaussian_weight M std n).
Proof.
  intros Hstd. unfold gaussian_sample, gaussian_weight, np_exp, np_div.
  destruct (Req_dec_T (2 * std * std) 0) as [H0|_]; [|reflexivity].
  exfalso. assert (std * std = 0) by lra.
  apply Rmult_integral in H. tauto.
Qed.

Lemma gaussian_sample_zero (M : nat) (n : nat) :
  gaussian_sample M 0 n
  = if Req_dec_T (INR n - (INR M - 1) / 2) 0 then NaN else Fin 0.
Proof.
  unfold gaussian_sample, np_exp, np_div.
  set (c := INR n - (INR M - 1) / 2).
  destruct (Req_dec_T (2 * 0 * 0) 0) as [_|H0]; [|exfalso; apply H0; ring].
  destruct (Req_dec_T c 0) as [Hc|Hc].
  - rewrite Hc. destruct (Req_dec_T (- (0 * 0)) 0) as [_|H0]; [reflexivity|].
    exfalso. apply H0. ring.
  - destruct (Req_dec_T (- (c * c)) 0) as [H0|_].
    + exfalso. assert (c * c = 0) by lra. apply Rmult_integral in H. tauto.
    + destruct (Rlt_dec 0 (- (c * c))) as [Hlt|_]; [|reflexivity].
      exfalso. nra.
Qed.

Lemma gaussian_lookup (M : nat) (std : R) (n : nat) :
  (n < M)%nat -> std <> 0 ->
  scipy_signal_gaussian M std !! n = Some (Fin (gaussian_weight M std n)).
Proof.
  intros Hn Hstd. unfold scipy_signal_gaussian.
  destruct (M <=? 1)%nat eqn:HM.
  - apply Nat.leb_le in HM. assert (M = 1%nat) by lia. subst M.
    assert (n = 0%nat) by lia. subst n. simpl.
    unfold gaussian_weight. simpl.
    replace (- ((0 - (1 - 1) / 2) * (0 - (1 - 1) / 2)) / (2 * std * std)) with 0.
    + rewrite exp_0. reflexivity.
    + unfold Rdiv. ring.
  - rewrite list_lookup_fmap, lookup_seq_lt by exact Hn. simpl.
    rewrite gaussian_sample_nonzero by exact Hstd. reflexivity.
Qed.

Lemma gaussian_lookup_zero (M : nat) (n : nat) :
  (1 < M)%nat -> (n < M)%nat ->
  scipy_signal_gaussian M 0 !! n
  = Some (if Req_dec_T (INR n - (INR M - 1) / 2) 0 then NaN else Fin 0).
Proof.
  intros HM Hn. unfold scipy_signal_gaussian.
  destruct (M <=? 1)%nat eqn:E; [apply Nat.leb_le in E; lia|].
  rewrite list_lookup_fmap, lookup_seq_lt by exact Hn. simpl.
  rewrite gaussian_sample_zero. reflexivity.
Qed.

Lemma gaussian_weight_range (M : nat) (std : R) (n : nat) :
  std <> 0 -> 0 < gaussian_weight M std n <= 1.
Proof.
  intros Hstd. unfold gaussian_weight. split; [apply exp_pos|].
  set (c := INR n - (INR M - 1) / 2).
  assert (Hs : 0 < 2 * std * std).
  { assert (0 < std * std) by nra. lra. }
  assert (He : - (c * c) / (2 * std * std) <= 0).
  { replace (- (c * c) / (2 * std * std)) with (- ((c * c) / (2 * std * std)))
      by (unfold Rdiv; ring).
    assert (0 <= (c * c) / (2 * std * std)).
    { apply Rmult_le_pos; [nra|]. left. apply Rinv_0_lt_compat. exact Hs. }
    lra. }
  destruct He as [He|He].
  - left. rewrite <- exp_0. apply exp_increasing. exact He.
  - rewrite He, exp_0. lra.
Qed.

Lemma sin_product_bound (a b : R) : Rabs (sin a * sin b) <= 1.
Proof.
  rewrite Rabs_mult.
  assert (Ha : Rabs (sin a) <= 1) by (apply Rabs_le; pose proof (SIN_bound a); lra).
  assert (Hb : Rabs (sin b) <= 1) by (apply Rabs_le; pose proof (SIN_bound b); lra).
  pose proof (Rabs_pos (sin a)). pose proof (Rabs_pos (sin b)). nra.
Qed.

(** ** [generate] *)

Lemma window_std_nonzero (gamma bw : R) (sr : nat) :
  gamma <> 0 -> bw <> 0 -> sr <> 0%nat -> sigma0 * bw / gamma * INR sr <> 0.
Proof.
  intros Hg Hbw Hsr. unfold sigma0.
  assert (INR sr <> 0) by (apply not_0_INR; exact Hsr).
  assert (/ gamma <> 0) by (apply Rinv_neq_0_compat; exact Hg).
  unfold Rdiv. repeat apply Rmult_integral_contrapositive_currified;
    try assumption; lra.
Qed.

(** Past its two divisions, [generate] is the broadcast product of the
    carrier times the modulator, on the time axis, with the window. *)
Lemma generate_unfold (f_c f_m gamma bw : R) (duration sr : nat) :
  sr <> 0%nat -> gamma <> 0 ->
  generate f_c f_m gamma bw duration sr
  = np.broadcast2 (fun a w => np_mul (Fin a) w)
      (map (chirp_sample f_c f_m gamma duration sr) (seq 0 (time_axis_len duration sr)))
      (scipy_signal_gaussian (duration * sr) (sigma0 * bw / gamma * INR sr)).
Proof.
  intros Hsr Hg. unfold generate. rewrite decide_False by exact Hsr.
  destruct (Req_dec_T gamma 0) as [H0|_]; [contradiction|].
  fold (time_axis_len duration sr). unfold np.arange, np.mul.
  rewrite broadcast2_same_length by (rewrite !length_map; reflexivity).
  simpl. f_equal. apply list_eq. intros n.
  rewrite lookup_zip_with, !list_lookup_fmap.
  destruct (seq 0 (time_axis_len duration sr) !! n); reflexivity.
Qed.

Lemma generate_Ok (f_c f_m gamma bw : R) (duration sr : nat) :
  sr <> 0%nat -> gamma <> 0 ->
  time_axis_len duration sr = (duration * sr)%nat ->
  generate f_c f_m gamma bw duration sr
  = Ok (zip_with (fun a w => np_mul (Fin a) w)
          (map (chirp_sample f_c f_m gamma duration sr) (seq 0 (duration * sr)))
          (scipy_signal_gaussian (duration * sr) (sigma0 * bw / gamma * INR sr))).
Proof.
  intros Hsr Hg Ht. rewrite generate_unfold by assumption. rewrite Ht.
  apply broadcast2_same_length.
  rewrite length_map, length_seq, gaussian_length. reflexivity.
Qed.

(** With a nonzero bandwidth every sample is finite. *)
Lemma generate_Ok_finite (f_c f_m gamma bw : R) (duration sr : nat) :
  sr <> 0%nat -> gamma <> 0 -> bw <> 0 ->
  time_axis_len duration sr = (duration * sr)%nat ->
  generate f_c f_m gamma bw duration sr
  = Ok (Fin <$> map (generate_sample f_c f_m gamma bw duration sr)
                  (seq 0 (duration * sr))).
Proof.
  intros Hsr Hg Hbw Ht. rewrite generate_Ok by assumption. f_equal.
  pose proof (window_std_nonzero gamma bw sr Hg Hbw Hsr) as Hstd.
  apply list_eq. intros n.
  rewrite lookup_zip_with, !list_lookup_fmap.
  destruct (decide (n < duration * sr)%nat) as [Hn|Hn].
  - rewrite lookup_seq_lt by exact Hn. rewrite gaussian_lookup by assumption.
    reflexivity.
  - rewrite (lookup_ge_None_2 (seq _ _)) by (rewrite length_seq; lia).
    reflexivity.
Qed.

(** What a returned waveform is made of, also when the time axis does not
    have the length of the window (one of the two then has one element,
    which is broadcast). *)
Lemma generate_Ok_inv (f_c f_m gamma bw : R) (duration sr : nat)
    (x : list npfloat) :
  generate f_c f_m gamma bw duration sr = Ok x ->
  sr <> 0%nat /\ gamma <> 0
  /\ length x = (duration * sr)%nat
  /\ forall n, (n < duration * sr)%nat ->
       exists a wn,
         Rabs a <= 1
         /\ scipy_signal_gaussian (duration * sr) (sigma0 * bw / gamma * INR sr) !! n
            = Some wn
         /\ x !! n = Some (np_mul (Fin a) wn)
         /\ (time_axis_len duration sr = (duration * sr)%nat ->
             a = chirp_sample f_c f_m gamma duration sr n).
Proof.
  intros H.
  assert (Hsr : sr <> 0%nat).
  { intros ->. unfold generate in H. simpl in H. discriminate. }
  assert (Hg : gamma <> 0).
  { intros ->. unfold generate in H. rewrite decide_False in H by exact Hsr.
    destruct (Req_dec_T 0 0) as [_|H0]; [discriminate|]. apply H0. reflexivity. }
  split; [exact Hsr|]. split; [exact Hg|].
  rewrite generate_unfold in H by assumption.
  set (w := scipy_signal_gaussian _ _) in *.
  set (cm := map _ _) in *.
  assert (Hw : length w = (duration * sr)%nat) by apply gaussian_length.
  assert (Hcm : length cm = time_axis_len duration sr)
    by (unfold cm; rewrite length_map; apply length_seq).
  assert (Hbound : forall n a, cm !! n = Some a -> Rabs a <= 1).
  { intros n a Ha. unfold cm in Ha. rewrite list_lookup_fmap in Ha.
    destruct (seq _ _ !! n); [|discriminate]. injection Ha as <-.
    apply sin_product_bound. }
  unfold np.broadcast2 in H.
  destruct (decide (length cm = length w)) as [Heq|Hne].
  - injection H as <-. split; [rewrite length_zip_with; lia|].
    intros n Hn.
    destruct (lookup_lt_is_Some_2 cm n) as [a Ha]; [lia|].
    destruct (lookup_lt_is_Some_2 w n) as [wn Hwn]; [lia|].
    exists a, wn. split; [eapply Hbound; exact Ha|]. split; [exact Hwn|].
    split; [rewrite lookup_zip_with, Ha, Hwn; reflexivity|].
    intros _. unfold cm in Ha. rewrite list_lookup_fmap in Ha.
    rewrite lookup_seq_lt in Ha by lia. injection Ha as <-. reflexivity.
  - destruct cm as [|a0 [|a1 cm']] eqn:Ecm.
    + destruct w as [|y [|y' w']]; try discriminate.
      exfalso. simpl in Hw.
      symmetry in Hw. apply Nat.eq_mul_1 in Hw as [-> ->].
      rewrite time_axis_len_one in Hcm. simpl in Hcm. lia.
    + injection H as <-. split; [rewrite length_map; exact Hw|].
      intros n Hn.
      destruct (lookup_lt_is_Some_2 w n) as [wn Hwn]; [lia|].
      exists a0, wn. split; [apply (Hbound 0%nat); reflexivity|].
      split; [exact Hwn|].
      split; [rewrite list_lookup_fmap, Hwn; reflexivity|].
      intros Ht. exfalso. apply Hne. rewrite Hw, <- Ht, <- Hcm. reflexivity.
    + destruct w as [|y [|y' w']]; try discriminate.
      exfalso. simpl in Hw.
      symmetry in Hw. apply Nat.eq_mul_1 in Hw as [-> ->].
      rewrite time_axis_len_one in Hcm. simpl in Hcm. lia.
Qed.

(** The samples that [generate] returns at a nonzero bandwidth are finite:
    this is how [generate_audio] calls it. *)
Lemma generate_default_finite (f_c f_m gamma bw : R) (duration sr : nat)
    (x : list npfloat) :
  bw <> 0 ->
  generate f_c f_m gamma bw duration sr = Ok x -> Forall is_finite x.
Proof.
  intros Hbw H. apply generate_Ok_inv in H as (Hsr & Hg & Hlen & Hx).
  pose proof (window_std_nonzero gamma bw sr Hg Hbw Hsr) as Hstd.
  apply Forall_lookup. intros n v Hv.
  assert (Hn : (n < duration * sr)%nat)
    by (rewrite <- Hlen; eapply lookup_lt_Some; exact Hv).
  destruct (Hx n Hn) as (a & wn & _ & Hwn & Hxn & _).
  rewrite gaussian_lookup in Hwn by assumption. injection Hwn as <-.
  rewrite Hxn in Hv. injection Hv as <-. eexists. reflexivity.
Qed.

(** When the time axis and the window differ in length and neither has one
    element, the product cannot be formed. *)
Lemma generate_raises (f_c f_m gamma bw : R) (duration sr : nat) :
  gamma <> 0 ->
  time_axis_len duration sr <> (duration * sr)%nat ->
  (1 < time_axis_len duration sr)%nat -> (1 < duration * sr)%nat ->
  generate f_c f_m gamma bw duration sr
  = Raise (ValueError "operands could not be broadcast together").
Proof.
  intros Hg Hne HL HN.
  assert (Hsr : sr <> 0%nat) by lia.
  rewrite generate_unfold by assumption.
  set (w := scipy_signal_gaussian _ _) in *.
  set (cm := map _ _) in *.
  assert (Hw : length w = (duration * sr)%nat) by apply gaussian_length.
  assert (Hcm : length cm = time_axis_len duration sr)
    by (unfold cm; rewrite length_map; apply length_seq).
  unfold np.broadcast2. rewrite decide_False by lia.
  destruct cm as [|a0 [|a1 cm']]; simpl in Hcm; try lia.
  destruct w as [|y [|y' w']]; simpl in Hw; try lia.
  reflexivity.
Qed.

(** ** [generate_audio] *)

Lemma alter_middle {A : Type} (f : A -> A) (l1 : list A) (x : A) (l2 : list A) :
  alter f (length l1) (l1 ++ x :: l2) = l1 ++ f x :: l2.
Proof. rewrite <- (Nat.add_0_r (length l1)), alter_app_r. reflexivity. Qed.

Lemma insert_middle {A : Type} (l1 : list A) (x y : A) (l2 : list A) :
  <[length l1 := y]> (l1 ++ x :: l2) = l1 ++ y :: l2.
Proof. rewrite <- (Nat.add_0_r (length l1)), insert_app_r. reflexivity. Qed.

Lemma getitem_middle {A : Type} (l1 : list A) (x : A) (l2 : list A) :
  getitem (l1 ++ x :: l2) (length l1) = Ok x.
Proof. apply getitem_lookup, list_lookup_middle. reflexivity. Qed.

Lemma getitem3_middle (P : tens4) (Q : tens3) (D : mat) (row : vec)
    (T : mat) (Qr : tens3) (Pr : tens4) :
  getitem3 (P ++ (Q ++ (D ++ row :: T) :: Qr) :: Pr)
           (length P) (length Q) (length D) = Ok row.
Proof.
  unfold getitem3. rewrite getitem_middle. simpl.
  rewrite getitem_middle. simpl. apply getitem_middle.
Qed.

Lemma setitem3_middle (P : tens4) (Q : tens3) (D : mat) (row x : vec)
    (T : mat) (Qr : tens3) (Pr : tens4) :
  length x = length row ->
  setitem3 (P ++ (Q ++ (D ++ row :: T) :: Qr) :: Pr)
           (length P) (length Q) (length D) x
  = Ok (P ++ (Q ++ (D ++ x :: T) :: Qr) :: Pr).
Proof.
  intros Hlen. unfold setitem3. rewrite getitem3_middle. simpl.
  rewrite decide_True by exact Hlen.
  rewrite alter_middle, alter_middle, insert_middle. reflexivity.
Qed.

Lemma setitem2_middle (R1 : mat) (A : vec) (x v : R) (T : vec) (R2 : mat) :
  setitem2 (R1 ++ (A ++ x :: T) :: R2) (length R1) (length A) v
  = Ok (R1 ++ (A ++ v :: T) :: R2).
Proof.
  unfold setitem2. rewrite getitem_middle. simpl.
  rewrite getitem_middle. simpl.
  rewrite alter_middle, insert_middle. reflexivity.
Qed.

Lemma setitem2_param_map {B : Type} (pts : list (R * R * R)) (r : nat)
    (f0 fm gamma : R) (K : mat -> outcome B) :
  (cmap ← setitem2 (param_map pts (S r)) 0 (length pts) f0;
   cmap ← setitem2 cmap 1 (length pts) fm;
   cmap ← setitem2 cmap 2 (length pts) gamma;
   K cmap)
  = K (param_map (pts ++ [(f0, fm, gamma)]) r).
Proof.
  unfold param_map. rewrite !fmap_app, <- !app_assoc. simpl.
  set (A0 := (fun p : R * R * R => p.1.1) <$> pts).
  set (A1 := (fun p : R * R * R => p.1.2) <$> pts).
  set (A2 := (fun p : R * R * R => p.2) <$> pts).
  assert (H0 : length pts = length A0) by (symmetry; apply length_fmap).
  assert (H1 : length pts = length A1) by (symmetry; apply length_fmap).
  assert (H2 : length pts = length A2) by (symmetry; apply length_fmap).
  clearbody A0 A1 A2.
  pose proof (setitem2_middle [] A0 0 f0 (replicate r 0)) as E0.
  pose proof (fun a => setitem2_middle [a] A1 0 fm (replicate r 0)) as E1.
  pose proof (fun a b => setitem2_middle [a; b] A2 0 gamma (replicate r 0) []) as E2.
  simpl in E0, E1, E2.
  rewrite H0 at 1. rewrite E0. simpl.
  rewrite H1 at 1. rewrite E1. simpl.
  rewrite H2 at 1. rewrite E2. reflexivity.
Qed.

Lemma raw_waveform_length (f0 fm gamma : R) (duration sr : nat) :
  length (raw_waveform f0 fm gamma duration sr) = (duration * sr)%nat.
Proof. unfold raw_waveform. rewrite length_map. apply length_seq. Qed.

Lemma unit_waveform_length (f0 fm gamma : R) (duration sr : nat) :
  length (unit_waveform f0 fm gamma duration sr) = (duration * sr)%nat.
Proof.
  unfold unit_waveform, div_scalar. rewrite length_map.
  apply raw_waveform_length.
Qed.

Lemma np_value_Fin (x : vec) : np_value <$> (Fin <$> x) = x.
Proof.
  apply list_eq. intros n. rewrite !list_lookup_fmap.
  destruct (x !! n); reflexivity.
Qed.

(** The call of [generate] that [generate_audio] makes, when the time axis
    has the length of the window. *)
Lemma generate_default_Ok (f0 fm gamma : R) (duration sr : nat) :
  sr <> 0%nat -> time_axis_len duration sr = (duration * sr)%nat -> gamma <> 0 ->
  generate f0 fm gamma 2 duration sr
  = Ok (Fin <$> raw_waveform f0 fm gamma duration sr).
Proof.
  intros Hsr Ht Hg. apply generate_Ok_finite; try assumption. lra.
Qed.

(** One iteration of the innermost loop fills row [(i, j, k)] of the audio
    tensor and column [c] of the parameter map. *)
Lemma generate_audio_body_middle (duration sr : nat) (f0 fm gamma : R)
    (P : tens4) (Q : tens3) (D T : mat) (Qr : tens3) (Pr : tens4)
    (pts : list (R * R * R)) (r : nat) :
  sr <> 0%nat -> time_axis_len duration sr = (duration * sr)%nat -> gamma <> 0 ->
  generate_audio_body duration sr (length P) f0 (length Q) fm (length D) gamma
    (P ++ (Q ++ (D ++ replicate (duration * sr) 0 :: T) :: Qr) :: Pr,
     param_map pts (S r), length pts)
  = Ok (P ++ (Q ++ (D ++ unit_waveform f0 fm gamma duration sr :: T) :: Qr) :: Pr,
        param_map (pts ++ [(f0, fm, gamma)]) r, S (length pts)).
Proof.
  intros Hsr Ht Hg. unfold generate_audio_body.
  rewrite generate_default_Ok by assumption.
  simpl. rewrite np_value_Fin. rewrite setitem3_middle
    by (rewrite raw_waveform_length, length_replicate; reflexivity).
  simpl. rewrite getitem3_middle. simpl.
  rewrite setitem3_middle by (unfold div_scalar; apply length_map).
  simpl. fold (unit_waveform f0 fm gamma duration sr).
  rewrite setitem2_param_map. reflexivity.
Qed.

Lemma generate_audio_inner (duration sr : nat) (f0 fm : R)
    (P : tens4) (Q : tens3) (Qr : tens3) (Pr : tens4) (r : nat) (todo : vec) :
  sr <> 0%nat -> time_axis_len duration sr = (duration * sr)%nat ->
  Forall (fun gamma => gamma <> 0) todo ->
  forall (D : mat) (pts : list (R * R * R)),
  for_each (enumerate_from (length D) todo)
    (fun '(k, gamma) =>
       generate_audio_body duration sr (length P) f0 (length Q) fm k gamma)
    (P ++ (Q ++ (D ++ replicate (length todo) (replicate (duration * sr) 0)) :: Qr) :: Pr,
     param_map pts (length todo + r), length pts)
  = Ok (P ++ (Q ++ (D ++ ((fun gamma => unit_waveform f0 fm gamma duration sr) <$> todo))
                :: Qr) :: Pr,
        param_map (pts ++ ((fun gamma => (f0, fm, gamma)) <$> todo)) r,
        (length pts + length todo)%nat).
Proof.
  intros Hsr Ht Hnz. induction todo as [|gamma todo IH]; intros D pts.
  - simpl. rewrite !app_nil_r, Nat.add_0_r. reflexivity.
  - apply Forall_cons in Hnz as [Hg Hnz]. specialize (IH Hnz).
    simpl. rewrite generate_audio_body_middle by assumption. simpl.
    specialize (IH (D ++ [unit_waveform f0 fm gamma duration sr])
                   (pts ++ [(f0, fm, gamma)])).
    rewrite !length_app in IH. simpl in IH.
    rewrite !Nat.add_1_r in IH. rewrite <- !app_assoc in IH. simpl in IH.
    rewrite IH. f_equal. f_equal. lia.
Qed.

Lemma generate_audio_middle (duration sr : nat) (f0 : R) (gammas : vec)
    (P Pr : tens4) (r : nat) (todo : vec) :
  sr <> 0%nat -> time_axis_len duration sr = (duration * sr)%nat ->
  Forall (fun gamma => gamma <> 0) gammas ->
  forall (Q : tens3) (pts : list (R * R * R)),
  for_each (enumerate_from (length Q) todo)
    (fun '(j, fm) =>
       for_each (enumerate gammas) (fun '(k, gamma) =>
         generate_audio_body duration sr (length P) f0 j fm k gamma))
    (P ++ (Q ++ replicate (length todo)
                  (replicate (length gammas) (replicate (duration * sr) 0))) :: Pr,
     param_map pts (length todo * length gammas + r), length pts)
  = Ok (P ++ (Q ++ ((fun fm => (fun gamma =>
                       unit_waveform f0 fm gamma duration sr) <$> gammas) <$> todo))
             :: Pr,
        param_map (pts ++ (fm ← todo; (fun gamma => (f0, fm, gamma)) <$> gammas)) r,
        (length pts + length todo * length gammas)%nat).
Proof.
  intros Hsr Ht Hnz. induction todo as [|fm todo IH]; intros Q pts.
  - simpl. rewrite !app_nil_r, Nat.add_0_r. reflexivity.
  - cbn [enumerate_from for_each length replicate].
    pose proof (generate_audio_inner duration sr f0 fm P Q
                  (replicate (length todo)
                     (replicate (length gammas) (replicate (duration * sr) 0)))
                  Pr (length todo * length gammas + r) gammas Hsr Ht Hnz [] pts) as E.
    cbn [app length enumerate_from] in E. unfold enumerate.
    replace (S (length todo) * length gammas + r)%nat
      with (length gammas + (length todo * length gammas + r))%nat by lia.
    rewrite E. clear E. cbn [mbind outcome_bind].
    specialize (IH (Q ++ [(fun gamma => unit_waveform f0 fm gamma duration sr) <$> gammas])
                   (pts ++ ((fun gamma => (f0, fm, gamma)) <$> gammas))).
    rewrite !length_app, length_fmap in IH. cbn [length] in IH.
    rewrite !Nat.add_1_r in IH. rewrite <- !app_assoc in IH.
    cbn [app] in IH. unfold enumerate in IH.
    rewrite IH. rewrite bind_cons, fmap_cons. f_equal. f_equal. lia.
Qed.

Lemma generate_audio_outer (duration sr : nat) (fms gammas : vec)
    (r : nat) (todo : vec) :
  sr <> 0%nat -> time_axis_len duration sr = (duration * sr)%nat ->
  Forall (fun gamma => gamma <> 0) gammas ->
  forall (P : tens4) (pts : list (R * R * R)),
  for_each (enumerate_from (length P) todo)
    (fun '(i, f0) =>
       for_each (enumerate fms) (fun '(j, fm) =>
         for_each (enumerate gammas) (fun '(k, gamma) =>
           generate_audio_body duration sr i f0 j fm k gamma)))
    (P ++ replicate (length todo)
            (replicate (length fms)
               (replicate (length gammas) (replicate (duration * sr) 0))),
     param_map pts (length todo * (length fms * length gammas) + r), length pts)
  = Ok (P ++ audio_tensor todo fms gammas duration sr,
        param_map (pts ++ grid_points todo fms gammas) r,
        (length pts + length todo * (length fms * length gammas))%nat).
Proof.
  intros Hsr Ht Hnz. induction todo as [|f0 todo IH]; intros P pts.
  - simpl. rewrite !app_nil_r, Nat.add_0_r. reflexivity.
  - cbn [enumerate_from for_each length replicate].
    pose proof (generate_audio_middle duration sr f0 gammas P
                  (replicate (length todo)
                     (replicate (length fms)
                        (replicate (length gammas) (replicate (duration * sr) 0))))
                  (length todo * (length fms * length gammas) + r) fms Hsr Ht Hnz
                  [] pts) as E.
    cbn [app length enumerate_from] in E. unfold enumerate.
    replace (S (length todo) * (length fms * length gammas) + r)%nat
      with (length fms * length gammas
            + (length todo * (length fms * length gammas) + r))%nat by lia.
    unfold enumerate in E. rewrite E. clear E. cbn [mbind outcome_bind].
    specialize (IH (P ++ [(fun fm => (fun gamma =>
                      unit_waveform f0 fm gamma duration sr) <$> gammas) <$> fms])
                   (pts ++ (fm ← fms; (fun gamma => (f0, fm, gamma)) <$> gammas))).
    assert (Hlen : length (fm ← fms; (fun gamma => (f0, fm, gamma)) <$> gammas)
                   = (length fms * length gammas)%nat).
    { clear. induction fms as [|fm fms IHf]; [reflexivity|].
      rewrite bind_cons, length_app, length_fmap, IHf. reflexivity. }
    rewrite !length_app, Hlen in IH. cbn [length] in IH.
    rewrite !Nat.add_1_r in IH. rewrite <- !app_assoc in IH.
    cbn [app] in IH. unfold enumerate in IH.
    rewrite IH. unfold grid_points, audio_tensor.
    rewrite bind_cons, fmap_cons. f_equal. f_equal. lia.
Qed.

(** The three loops fill the whole tensor and the whole map, when every
    call of [generate] returns: the sampling rate is not zero, the time
    axis has [duration * sr] samples and no chirp rate is zero. *)
Lemma generate_audio_Ok (f0s fms gammas : vec) (duration sr : nat) :
  sr <> 0%nat -> time_axis_len duration sr = (duration * sr)%nat ->
  Forall (fun gamma => gamma <> 0) gammas ->
  generate_audio f0s fms gammas duration sr
  = Ok (audio_tensor f0s fms gammas duration sr,
        param_map (grid_points f0s fms gammas) 0).
Proof.
  intros Hsr Ht Hnz. unfold generate_audio, zeros4, zeros2.
  pose proof (generate_audio_outer duration sr fms gammas 0 f0s Hsr Ht Hnz [] []) as E.
  cbn [app length] in E. unfold enumerate in *.
  replace (length f0s * length fms * length gammas)%nat
    with (length f0s * (length fms * length gammas) + 0)%nat by lia.
  change (replicate 3 (replicate ?n 0)) with (param_map [] n).
  rewrite E. reflexivity.
Qed.

(** C4.  For [gamma > 0], and whatever the bandwidth: the window of
    [generate] is [scipy.signal.gaussian] of length [duration * sr] and of
    standard deviation [sigma0 * bw / gamma * sr], a constant divided by
    [gamma], and every waveform that [generate] returns has
    [duration * sr] samples.  When the time axis has [duration * sr]
    samples, [generate] returns, and sample [n] is the exponential-chirp
    carrier times the sinusoidal modulator, taken at
    [t_n = -duration/2 + n/sr], times sample [n] of the window: for a
    nonzero bandwidth the window sample is the Gaussian
    [exp(-c^2 / (2 sigma^2))] at the centred index [c]; for a zero
    bandwidth the standard deviation is zero and SciPy's window is zero,
    and NaN at the centre of an odd length.  When NumPy gives the time axis
    another number of samples, more than one, [generate] returns nothing:
    it raises at the product with the window; and it raises at [1/sr] for
    [sr = 0]. *)
Theorem generate_is_windowed_chirp (f_c f_m gamma bw : R) (duration sr : nat) :
  0 < gamma ->
  let N := (duration * sr)%nat in
  let sigma := sigma0 * bw / gamma * INR sr in
  let w := scipy_signal_gaussian N sigma in
  sigma = (sigma0 * bw * INR sr) / gamma
  /\ length w = N
  /\ (forall x, generate f_c f_m gamma bw duration sr = Ok x -> length x = N)
  /\ (sr <> 0%nat -> time_axis_len duration sr = N ->
      exists x,
        generate f_c f_m gamma bw duration sr = Ok x
        /\ forall n, (n < N)%nat ->
             let t_n := - INR duration / 2 + INR n / INR sr in
             let c := INR n - (INR N - 1) / 2 in
             let cm := sin (2 * PI * f_c / (gamma * ln 2)
                            * (Rpower 2 (gamma * t_n) - 1))
                       * sin (2 * PI * f_m * t_n) in
             exists wn,
               w !! n = Some wn
               /\ x !! n = Some (np_mul (Fin cm) wn)
               /\ (bw <> 0 ->
                   sigma <> 0
                   /\ wn = Fin (exp (- (c * c) / (2 * sigma * sigma)))
                   /\ x !! n
                      = Some (Fin (cm * exp (- (c * c) / (2 * sigma * sigma)))))
               /\ (bw = 0 -> (1 < N)%nat ->
                   sigma = 0
                   /\ wn = (if Req_dec_T c 0 then NaN else Fin 0)))
  /\ (time_axis_len duration sr <> N ->
      (1 < time_axis_len duration sr)%nat -> (1 < N)%nat ->
      generate f_c f_m gamma bw duration sr
      = Raise (ValueError "operands could not be broadcast together"))
  /\ (sr = 0%nat ->
      generate f_c f_m gamma bw duration sr = Raise ZeroDivisionError).
Proof.
  intros Hg N sigma w.
  assert (Hg0 : gamma <> 0) by lra.
  split; [unfold sigma; field; lra|].
  split; [apply gaussian_length|].
  split; [intros x Hx; apply generate_Ok_inv in Hx as (_ & _ & Hlen & _); exact Hlen|].
  split; [|split].
  - intros Hsr Ht. eexists. split; [apply generate_Ok; assumption|].
    intros n Hn t_n c cm.
    assert (Hcm : chirp_sample f_c f_m gamma duration sr n = cm).
    { unfold chirp_sample, chirp_phase, cm.
      replace (- INR duration / 2 + INR n * (1 / INR sr)) with t_n
        by (unfold t_n; unfold Rdiv; ring).
      reflexivity. }
    destruct (lookup_lt_is_Some_2 w n) as [wn Hwn];
      [unfold w; rewrite gaussian_length; exact Hn|].
    exists wn. split; [exact Hwn|].
    assert (Hxn : zip_with (fun a w0 => np_mul (Fin a) w0)
                    (map (chirp_sample f_c f_m gamma duration sr) (seq 0 (duration * sr)))
                    (scipy_signal_gaussian (duration * sr)
                       (sigma0 * bw / gamma * INR sr)) !! n
                  = Some (np_mul (Fin cm) wn)).
    { rewrite lookup_zip_with, list_lookup_fmap, lookup_seq_lt by exact Hn.
      fold sigma N w. rewrite Hwn. simpl. rewrite Hcm. reflexivity. }
    split; [exact Hxn|]. split.
    + intros Hbw.
      pose proof (window_std_nonzero gamma bw sr Hg0 Hbw Hsr) as Hstd.
      fold sigma in Hstd. split; [exact Hstd|].
      unfold w in Hwn. rewrite gaussian_lookup in Hwn by assumption.
      injection Hwn as <-. split; [reflexivity|].
      rewrite Hxn. reflexivity.
    + intros Hbw HN.
      assert (Hs : sigma = 0) by (unfold sigma; rewrite Hbw; unfold Rdiv; ring).
      split; [exact Hs|].
      unfold w in Hwn. rewrite Hs, gaussian_lookup_zero in Hwn by assumption.
      injection Hwn as <-. reflexivity.
  - intros Hne HL HN. apply generate_raises; assumption.
  - intros ->. reflexivity.
Qed.

Lemma time_axis_len_one_second_at_4 : time_axis_len 1 4 = (1 * 4)%nat.
Proof. vm_compute. reflexivity. Qed.

Lemma time_axis_len_one_second_at_49 : time_axis_len 1 49 = 50%nat.
Proof. vm_compute. reflexivity. Qed.

(** At four samples per second the time axis has four samples and
    [generate] returns; at 49 samples per second [1.0 / (1/49)] is just
    above 49, the time axis has 50 samples against 49 of the window, and
    [generate] raises. *)
Lemma generate_is_windowed_chirp_witness :
  0 < 1 / 2
  /\ (exists x, generate 512 4 (1 / 2) 2 1 4 = Ok x /\ length x = 4%nat)
  /\ generate 512 4 (1 / 2) 2 1 49
     = Raise (ValueError "operands could not be broadcast together").
Proof.
  assert (Hg : 0 < 1 / 2) by lra.
  split; [exact Hg|]. split.
  - destruct (generate_is_windowed_chirp 512 4 (1 / 2) 2 1 4 Hg)
      as (_ & _ & Hlen & Hret & _).
    destruct Hret as (x & Hx & _); [lia | exact time_axis_len_one_second_at_4 |].
    exists x. split; [exact Hx|]. apply Hlen. exact Hx.
  - destruct (generate_is_windowed_chirp 512 4 (1 / 2) 2 1 49 Hg)
      as (_ & _ & _ & _ & Hraise & _).
    apply Hraise; rewrite ?time_axis_len_one_second_at_49; simpl; lia.
Defined.

(** ** Unit energy *)





Lemma audio_tensor_getitem3 (f0s fms gammas : vec) (duration sr : nat)
    (i j k : nat) (f0 fm gamma : R) :
  f0s !! i = Some f0 -> fms !! j = Some fm -> gammas !! k = Some gamma ->
  getitem3 (audio_tensor f0s fms gammas duration sr) i j k
  = Ok (unit_waveform f0 fm gamma duration sr).
Proof.
  intros Hi Hj Hk. unfold getitem3, audio_tensor, getitem.
  rewrite list_lookup_fmap, Hi. simpl.
  rewrite list_lookup_fmap, Hj. simpl.
  rewrite list_lookup_fmap, Hk. reflexivity.
Qed.






(** ** Flattening and the ordering of samples *)

Lemma concat_lookup_same_length {A : Type} (n : nat) (ls : list (list A))
    (i j : nat) (l : list A) :
  Forall (fun l => length l = n) ls ->
  ls !! i = Some l -> (j < n)%nat ->
  concat ls !! (i * n + j)%nat = l !! j.
Proof.
  intros Hall. revert i. induction Hall as [|l0 ls Hl0 Hall IH]; intros i Hi Hj.
  - discriminate.
  - simpl. destruct i as [|i]; simpl in Hi.
    + injection Hi as ->. simpl. apply lookup_app_l. lia.
    + rewrite lookup_app_r by lia.
      replace (S i * n + j - length l0)%nat with (i * n + j)%nat by lia.
      apply IH; assumption.
Qed.

Lemma concat_length_same_length {A : Type} (n : nat) (ls : list (list A)) :
  Forall (fun l => length l = n) ls ->
  length (concat ls) = (length ls * n)%nat.
Proof.
  induction 1 as [|l ls Hl Hall IH]; simpl; [reflexivity|].
  rewrite length_app, IH, Hl. reflexivity.
Qed.

Lemma bind_lookup_same_length {A B : Type} (n : nat) (f : A -> list B)
    (l : list A) (i j : nat) (x : A) :
  (forall y, length (f y) = n) ->
  l !! i = Some x -> (j < n)%nat ->
  (l ≫= f) !! (i * n + j)%nat = f x !! j.
Proof.
  intros Hf. revert i. induction l as [|y l IH]; intros i Hi Hj.
  - discriminate.
  - rewrite bind_cons. destruct i as [|i]; simpl in Hi.
    + injection Hi as ->. simpl. apply lookup_app_l. rewrite Hf. exact Hj.
    + rewrite lookup_app_r by (rewrite Hf; lia). rewrite Hf.
      replace (S i * n + j - n)%nat with (i * n + j)%nat by lia.
      apply IH; assumption.
Qed.

Lemma bind_length_same_length {A B : Type} (n : nat) (f : A -> list B)
    (l : list A) :
  (forall y, length (f y) = n) -> length (l ≫= f) = (length l * n)%nat.
Proof.
  intros Hf. induction l as [|y l IH]; [reflexivity|].
  rewrite bind_cons, length_app, Hf, IH. reflexivity.
Qed.

Lemma grid_points_lookup (f0s fms gammas : vec) (i j k : nat) (f0 fm gamma : R) :
  f0s !! i = Some f0 -> fms !! j = Some fm -> gammas !! k = Some gamma ->
  grid_points f0s fms gammas !! ((i * length fms + j) * length gammas + k)%nat
  = Some (f0, fm, gamma).
Proof.
  intros Hi Hj Hk. unfold grid_points.
  pose proof (lookup_lt_Some _ _ _ Hj) as Hjlt.
  pose proof (lookup_lt_Some _ _ _ Hk) as Hklt.
  assert (Hin : forall f0' : R,
             length (fm' ← fms; (fun g => (f0', fm', g)) <$> gammas)
             = (length fms * length gammas)%nat).
  { intros f0'. apply bind_length_same_length. intros y. apply length_fmap. }
  replace ((i * length fms + j) * length gammas + k)%nat
    with (i * (length fms * length gammas) + (j * length gammas + k))%nat by lia.
  rewrite (bind_lookup_same_length (length fms * length gammas) _ f0s i _ f0 Hin Hi)
    by nia.
  rewrite (bind_lookup_same_length (length gammas) _ fms j k fm)
    by (try (intros y; apply length_fmap); assumption).
  rewrite list_lookup_fmap, Hk. reflexivity.
Qed.

Lemma grid_points_length (f0s fms gammas : vec) :
  length (grid_points f0s fms gammas)
  = (length f0s * length fms * length gammas)%nat.
Proof.
  unfold grid_points.
  rewrite (bind_length_same_length (length fms * length gammas)).
  - lia.
  - intros f0. apply bind_length_same_length. intros y. apply length_fmap.
Qed.

Lemma audio_tensor_shape (f0s fms gammas : vec) (duration sr : nat) :
  has_shape4 (audio_tensor f0s fms gammas duration sr)
             (length f0s) (length fms) (length gammas) (duration * sr).
Proof.
  unfold has_shape4, audio_tensor. split; [apply length_fmap|].
  apply Forall_fmap, Forall_forall. intros f0 _. simpl.
  split; [apply length_fmap|].
  apply Forall_fmap, Forall_forall. intros fm _. simpl.
  split; [apply length_fmap|].
  apply Forall_fmap, Forall_forall. intros gamma _. simpl.
  apply unit_waveform_length.
Qed.

Lemma flatten_lookup (t : tens4) (a b c d : nat) (i j k : nat) (row : vec) :
  has_shape4 t a b c d ->
  getitem3 t i j k = Ok row ->
  concat (concat t) !! ((i * b + j) * c + k)%nat = Some row.
Proof.
  intros [Ha Hall] Hget. unfold getitem3, getitem in Hget.
  destruct (t !! i) as [plane|] eqn:Hi; [simpl in Hget|discriminate].
  destruct (plane !! j) as [line|] eqn:Hj; [simpl in Hget|discriminate].
  destruct (line !! k) as [row'|] eqn:Hk; [|discriminate].
  injection Hget as ->.
  pose proof (proj1 (Forall_lookup _ _) Hall i plane Hi) as [Hb Hplane].
  pose proof (proj1 (Forall_lookup _ _) Hplane j line Hj) as [Hc Hline].
  rewrite (concat_lookup_same_length c (concat t) (i * b + j) k line).
  - exact Hk.
  - clear -Hall. induction Hall as [|p t [_ Hp] _ IH]; simpl; [constructor|].
    apply Forall_app. split; [|exact IH].
    eapply Forall_impl; [exact Hp|]. intros l [Hl _]. exact Hl.
  - rewrite (concat_lookup_same_length b t i j plane).
    + exact Hj.
    + eapply Forall_impl; [exact Hall|]. intros p [Hp _]. exact Hp.
    + exact Hi.
    + rewrite <- Hb. eapply lookup_lt_Some. exact Hj.
  - rewrite <- Hc. eapply lookup_lt_Some. exact Hk.
Qed.

Lemma flatten_length (t : tens4) (a b c d : nat) :
  has_shape4 t a b c d -> length (concat (concat t)) = (a * b * c)%nat.
Proof.
  intros [Ha Hall].
  rewrite (concat_length_same_length c).
  - rewrite (concat_length_same_length b), Ha; [reflexivity|].
    eapply Forall_impl; [exact Hall|]. intros p [Hp _]. exact Hp.
  - clear -Hall. induction Hall as [|p t [_ Hp] _ IH]; simpl; [constructor|].
    apply Forall_app. split; [|exact IH].
    eapply Forall_impl; [exact Hp|]. intros l [Hl _]. exact Hl.
Qed.

Lemma flat_index_inverse (b c i j k : nat) :
  (j < b)%nat -> (k < c)%nat ->
  let n := ((i * b + j) * c + k)%nat in
  i = (n / (b * c))%nat /\ j = ((n / c) mod b)%nat /\ k = (n mod c)%nat.
Proof.
  intros Hj Hk n.
  assert (Hk' : k = (n mod c)%nat).
  { unfold n. rewrite Nat.add_comm, Nat.Div0.mod_add. symmetry.
    apply Nat.mod_small. exact Hk. }
  assert (Hq : (n / c = i * b + j)%nat).
  { unfold n. rewrite Nat.add_comm, Nat.div_add by lia.
    rewrite Nat.div_small by exact Hk. reflexivity. }
  split; [|split; [|exact Hk']].
  - rewrite (Nat.mul_comm b c), <- Nat.Div0.div_div, Hq.
    rewrite Nat.add_comm, Nat.div_add by lia.
    rewrite Nat.div_small by exact Hj. reflexivity.
  - rewrite Hq, Nat.add_comm, Nat.Div0.mod_add. symmetry.
    apply Nat.mod_small. exact Hj.
Qed.

(** ** [extract_mfcc] *)

Section mfcc_loops.

Context (L : libs) (audio : tens4) (sr n_mfcc : nat).

Lemma mean_last_axis_length (m : mat) : length (mean_last_axis m) = length m.
Proof. apply length_map. Qed.

Lemma extract_mfcc_body_middle (P : tens4) (Q : tens3) (D T : mat)
    (Qr : tens3) (Pr : tens4) (y : vec) :
  getitem3 audio (length P) (length Q) (length D) = Ok y ->
  mfcc_answers L sr n_mfcc y ->
  extract_mfcc_body L audio sr (length P) (length Q) (length D)
    (P ++ (Q ++ (D ++ replicate n_mfcc 0 :: T) :: Qr) :: Pr)
  = Ok (P ++ (Q ++ (D ++ mfcc_row L sr y :: T) :: Qr) :: Pr).
Proof.
  intros Hy (m & Hm & Hlen). unfold extract_mfcc_body, mfcc_row.
  rewrite Hy. simpl. rewrite Hm. simpl.
  apply setitem3_middle.
  rewrite mean_last_axis_length, length_replicate. exact Hlen.
Qed.

Lemma extract_mfcc_inner (P : tens4) (Q Qr : tens3) (Pr : tens4) (todo : vec) :
  forall (atodo D : mat),
  length atodo = length todo ->
  (forall n y, atodo !! n = Some y ->
     getitem3 audio (length P) (length Q) (length D + n) = Ok y) ->
  Forall (mfcc_answers L sr n_mfcc) atodo ->
  for_each (enumerate_from (length D) todo)
    (fun '(k, _) => extract_mfcc_body L audio sr (length P) (length Q) k)
    (P ++ (Q ++ (D ++ replicate (length todo) (replicate n_mfcc 0)) :: Qr) :: Pr)
  = Ok (P ++ (Q ++ (D ++ (mfcc_row L sr <$> atodo)) :: Qr) :: Pr).
Proof.
  induction todo as [|g todo IH]; intros atodo D Hlen Hget Hans.
  - destruct atodo; [|discriminate]. reflexivity.
  - destruct atodo as [|y atodo]; [discriminate|].
    simpl in Hlen. injection Hlen as Hlen.
    apply Forall_cons in Hans as [Hy Hans]. simpl.
    rewrite extract_mfcc_body_middle with (y := y); [|
      rewrite <- (Nat.add_0_r (length D)); apply Hget; reflexivity | exact Hy].
    simpl.
    specialize (IH atodo (D ++ [mfcc_row L sr y]) Hlen).
    rewrite length_app, Nat.add_1_r, <- !app_assoc in IH. simpl in IH.
    apply IH; [|exact Hans].
    intros n y' Hn. replace (S (length D + n))%nat with (length D + S n)%nat by lia.
    apply Hget. exact Hn.
Qed.

Lemma extract_mfcc_middle (gammas : vec) (P Pr : tens4) (todo : vec) :
  forall (alines Q : tens3),
  length alines = length todo ->
  (forall n line, alines !! n = Some line ->
     length line = length gammas
     /\ Forall (mfcc_answers L sr n_mfcc) line
     /\ forall k y, line !! k = Some y ->
          getitem3 audio (length P) (length Q + n) k = Ok y) ->
  for_each (enumerate_from (length Q) todo)
    (fun '(j, _) =>
       for_each (enumerate gammas) (fun '(k, _) =>
         extract_mfcc_body L audio sr (length P) j k))
    (P ++ (Q ++ replicate (length todo)
                  (replicate (length gammas) (replicate n_mfcc 0))) :: Pr)
  = Ok (P ++ (Q ++ ((fun line : mat => mfcc_row L sr <$> line) <$> alines)) :: Pr).
Proof.
  induction todo as [|fm todo IH]; intros alines Q Hlen Hlines.
  - destruct alines; [|discriminate]. reflexivity.
  - destruct alines as [|line alines]; [discriminate|].
    simpl in Hlen. injection Hlen as Hlen.
    destruct (Hlines 0%nat line eq_refl) as (Hll & Hans & Hget).
    cbn [enumerate_from for_each length replicate].
    pose proof (extract_mfcc_inner P Q
                  (replicate (length todo)
                     (replicate (length gammas) (replicate n_mfcc 0)))
                  Pr gammas line [] Hll) as E.
    cbn [app length enumerate_from] in E. unfold enumerate.
    rewrite E; [|intros n y Hn; rewrite <- (Nat.add_0_r (length Q));
                  apply Hget; exact Hn | exact Hans].
    clear E. cbn [mbind outcome_bind].
    specialize (IH alines (Q ++ [mfcc_row L sr <$> line]) Hlen).
    rewrite length_app, Nat.add_1_r, <- !app_assoc in IH. cbn [app] in IH.
    unfold enumerate in IH. rewrite fmap_cons. apply IH.
    intros n line' Hn.
    replace (S (length Q) + n)%nat with (length Q + S n)%nat by lia.
    apply Hlines. exact Hn.
Qed.

Lemma extract_mfcc_outer (fms gammas : vec) (todo : vec) :
  forall (aplanes P : tens4),
  length aplanes = length todo ->
  (forall n plane, aplanes !! n = Some plane ->
     length plane = length fms
     /\ forall j line, plane !! j = Some line ->
          length line = length gammas
          /\ Forall (mfcc_answers L sr n_mfcc) line
          /\ forall k y, line !! k = Some y ->
               getitem3 audio (length P + n) j k = Ok y) ->
  for_each (enumerate_from (length P) todo)
    (fun '(i, _) =>
       for_each (enumerate fms) (fun '(j, _) =>
         for_each (enumerate gammas) (fun '(k, _) =>
           extract_mfcc_body L audio sr i j k)))
    (P ++ replicate (length todo)
            (replicate (length fms)
               (replicate (length gammas) (replicate n_mfcc 0))))
  = Ok (P ++ ((fun plane : tens3 => (fun line : mat => mfcc_row L sr <$> line) <$> plane)
              <$> aplanes)).
Proof.
  induction todo as [|f0 todo IH]; intros aplanes P Hlen Hplanes.
  - destruct aplanes; [|discriminate]. reflexivity.
  - destruct aplanes as [|plane aplanes]; [discriminate|].
    simpl in Hlen. injection Hlen as Hlen.
    destruct (Hplanes 0%nat plane eq_refl) as (Hpl & Hlines).
    cbn [enumerate_from for_each length replicate].
    pose proof (extract_mfcc_middle gammas P
                  (replicate (length todo)
                     (replicate (length fms)
                        (replicate (length gammas) (replicate n_mfcc 0))))
                  fms plane [] Hpl) as E.
    cbn [app length enumerate_from] in E. unfold enumerate.
    unfold enumerate in E. rewrite E.
    + clear E. cbn [mbind outcome_bind].
      specialize (IH aplanes
        (P ++ [(fun line : mat => mfcc_row L sr <$> line) <$> plane]) Hlen).
      rewrite length_app, Nat.add_1_r, <- !app_assoc in IH. cbn [app] in IH.
      unfold enumerate in IH. rewrite fmap_cons. apply IH.
      intros n plane' Hn.
      replace (S (length P) + n)%nat with (length P + S n)%nat by lia.
      apply Hplanes. exact Hn.
    + intros n line Hn. specialize (Hlines n line Hn).
      rewrite Nat.add_0_r in Hlines. exact Hlines.
Qed.

End mfcc_loops.

Lemma concat_concat_fmap {A B : Type} (f : A -> B) (t : list (list (list A))) :
  concat (concat ((fun plane : list (list A) =>
                     (fun line : list A => f <$> line) <$> plane) <$> t))
  = f <$> concat (concat t).
Proof.
  induction t as [|plane t IH]; [reflexivity|].
  rewrite fmap_cons. cbn [concat]. rewrite !concat_app, fmap_app, IH.
  f_equal. clear. induction plane as [|line plane IH]; [reflexivity|].
  rewrite fmap_cons. cbn [concat]. rewrite fmap_app, IH. reflexivity.
Qed.

(** With a librosa that answers on every waveform with [n_mfcc]
    coefficient rows, the MFCC table is the waveforms' rows in the order of
    the flattened audio. *)
Lemma extract_mfcc_Ok (L : libs) (audio : tens4) (f0s fms gammas : vec)
    (sr n_mfcc d : nat) :
  n_mfcc <> 0%nat ->
  has_shape4 audio (length f0s) (length fms) (length gammas) d ->
  Forall (mfcc_answers L sr n_mfcc) (concat (concat audio)) ->
  extract_mfcc L audio f0s fms gammas sr n_mfcc
  = Ok (mfcc_row L sr <$> concat (concat audio)).
Proof.
  intros Hn [Ha Hall] Hans. unfold extract_mfcc, zeros4.
  pose proof (extract_mfcc_outer L audio sr n_mfcc fms gammas f0s audio [] Ha) as E.
  cbn [app length] in E. unfold enumerate in *. rewrite E.
  - cbn [mbind outcome_bind]. unfold reshape_rows.
    rewrite decide_False by exact Hn. rewrite concat_concat_fmap. reflexivity.
  - intros i plane Hi.
    pose proof (proj1 (Forall_lookup _ _) Hall i plane Hi) as [Hb Hplane].
    split; [exact Hb|]. intros j line Hj.
    pose proof (proj1 (Forall_lookup _ _) Hplane j line Hj) as [Hc Hline].
    split; [exact Hc|]. split.
    + apply Forall_forall. intros y Hy.
      apply (proj1 (Forall_forall _ _) Hans).
      apply list_elem_of_In, in_concat. exists line. split.
      * apply in_concat. exists plane. split; apply list_elem_of_In.
        -- eapply list_elem_of_lookup_2. exact Hi.
        -- eapply list_elem_of_lookup_2. exact Hj.
      * apply list_elem_of_In. exact Hy.
    + intros k y Hk. unfold getitem3, getitem. simpl.
      rewrite Hi. simpl. rewrite Hj. simpl. rewrite Hk. reflexivity.
Qed.

(** ** The extractors that loop over the rows of the flattened audio *)

Lemma for_each_seq_fill {A : Type} (I : list A -> Prop) (R : nat -> A -> Prop)
    (body : nat -> list A -> outcome (list A)) :
  (forall i sx sx', I sx -> body i sx = Ok sx' ->
     exists v, sx' = <[i := v]> sx /\ (i < length sx)%nat /\ R i v /\ I sx') ->
  forall n a sx0 sx,
    I sx0 -> for_each (seq a n) body sx0 = Ok sx ->
    I sx /\ length sx = length sx0
    /\ (forall i, (i < a)%nat -> sx !! i = sx0 !! i)
    /\ (forall i, (a <= i < a + n)%nat -> exists v, sx !! i = Some v /\ R i v).
Proof.
  intros Hbody. induction n as [|n IH]; intros a sx0 sx HI Hrun.
  - simpl in Hrun. injection Hrun as <-.
    split; [exact HI|]. split; [reflexivity|]. split; [reflexivity|].
    intros i Hi. lia.
  - simpl in Hrun. apply bind_Ok in Hrun as (sx1 & Hstep & Hrun).
    destruct (Hbody a sx0 sx1 HI Hstep) as (v & -> & Ha & Hv & HI1).
    destruct (IH (S a) _ sx HI1 Hrun) as (HIf & Hlen & Hbefore & Hfilled).
    rewrite length_insert in Hlen.
    split; [exact HIf|]. split; [exact Hlen|]. split.
    + intros i Hi. rewrite Hbefore by lia. apply list_lookup_insert_ne. lia.
    + intros i Hi. destruct (decide (i = a)) as [->|Hne].
      * exists v. split; [|exact Hv].
        rewrite Hbefore by lia. apply list_lookup_insert_eq. exact Ha.
      * apply Hfilled. lia.
Qed.

Lemma setitem_row_Ok (m : mat) (i : nat) (x : vec) (m' : mat) :
  setitem_row m i x = Ok m' ->
  exists old v,
    m !! i = Some old /\ m' = <[i := v]> m /\ length v = length old
    /\ (v = x \/ exists c0, x = [c0] /\ v = replicate (length old) c0).
Proof.
  unfold setitem_row. intros H. apply bind_Ok in H as (old & Hold & H).
  apply getitem_Ok in Hold. exists old.
  destruct (decide (length x = length old)) as [Hlen|Hlen].
  - injection H as <-. exists x. auto.
  - destruct x as [|c0 [|c1 x]]; try discriminate. injection H as <-.
    exists (replicate (length old) c0).
    split; [exact Hold|]. split; [reflexivity|].
    split; [apply length_replicate|]. right. eauto.
Qed.

(** [sx[i, :] = scat(X[i, :])[:, 0]] for every [i]: the table has one row
    per waveform, and row [c] comes from waveform [c]. *)
Lemma extract_time_scattering_rows (L : libs) (audio : mat) (duration sr : nat)
    (ts : mat) :
  extract_time_scattering L audio duration sr = Ok ts ->
  length ts = length audio
  /\ forall c x, audio !! c = Some x ->
       exists J scat s col row,
         scattering_J (duration * sr) = Ok J
         /\ Scattering1D L (duration * sr) J = Ok scat
         /\ scat x = Ok s /\ column s 0 = Ok col
         /\ ts !! c = Some row
         /\ (row = col \/ exists c0, col = [c0] /\ row = replicate (length row) c0).
Proof.
  unfold extract_time_scattering. intros H.
  apply bind_Ok in H as (J & HJ & H).
  apply bind_Ok in H as (scat & Hscat & H).
  apply bind_Ok in H as (u & _ & H).
  apply bind_Ok in H as (x0 & _ & H).
  apply bind_Ok in H as (s0 & _ & H).
  match type of H with
  | for_each _ ?body _ = _ =>
      pose proof (for_each_seq_fill
        (fun sx : mat => Forall (fun r => length r = length s0) sx)
        (fun i v => exists xi s col,
           audio !! i = Some xi /\ scat xi = Ok s /\ column s 0 = Ok col
           /\ (v = col \/ exists c0, col = [c0] /\ v = replicate (length v) c0))
        body) as Hfill
  end.
  edestruct Hfill as (_ & Hlen & _ & Hrows); [| | exact H |].
  - clear. intros i sx sx' HI Hbody.
    apply bind_Ok in Hbody as (xi & Hxi & Hbody).
    apply bind_Ok in Hbody as (s & Hs & Hbody).
    apply bind_Ok in Hbody as (col & Hcol & Hbody).
    apply setitem_row_Ok in Hbody as (old & v & Hold & -> & Hv & Hcase).
    exists v. split; [reflexivity|].
    split; [eapply lookup_lt_Some; exact Hold|].
    pose proof (proj1 (Forall_lookup _ _) HI i old Hold) as Holdlen.
    split.
    + exists xi, s, col. split; [apply getitem_Ok; exact Hxi|].
      split; [exact Hs|]. split; [exact Hcol|].
      destruct Hcase as [->|(c0 & -> & ->)]; [left; reflexivity|].
      right. exists c0. split; [reflexivity|].
      rewrite length_replicate. reflexivity.
    + apply Forall_insert; [exact HI | congruence].
  - unfold zeros2. apply Forall_replicate. apply length_replicate.
  - unfold zeros2 in Hlen. rewrite length_replicate in Hlen.
    split; [exact Hlen|]. intros c x Hc.
    destruct (Hrows c) as (row & Hrow & xi & s & col & Hxi & Hs & Hcol & Hcase).
    { split; [lia|]. simpl. eapply lookup_lt_Some. exact Hc. }
    assert (xi = x) by congruence. subst xi.
    exists J, scat, s, col, row. auto 10.
Qed.

Lemma extract_jtfs_rows (L : libs) (audio : mat) (duration sr : nat)
    (table : mat) :
  extract_jtfs L audio duration sr = Ok table ->
  length table = length audio
  /\ forall c x, audio !! c = Some x ->
       exists J jtfs s first row,
         scattering_J (duration * sr) = Ok J
         /\ TimeFrequencyScattering1D L (duration * sr) J = Ok jtfs
         /\ jtfs x = Ok s
         /\ traverse (fun plane => column plane 0) s = Ok [first]
         /\ table !! c = Some row
         /\ (row = first
             \/ exists c0, first = [c0] /\ row = replicate (length row) c0).
Proof.
  unfold extract_jtfs. intros H.
  apply bind_Ok in H as (J & HJ & H).
  apply bind_Ok in H as (jtfs & Hjtfs & H).
  apply bind_Ok in H as (u & _ & H).
  apply bind_Ok in H as (x0 & _ & H).
  apply bind_Ok in H as (s0 & _ & H).
  match type of H with
  | for_each _ ?body _ = _ =>
      pose proof (for_each_seq_fill
        (fun sx : mat => Forall (fun r => length r = length (nth 0 s0 [])) sx)
        (fun i v => exists xi s first,
           audio !! i = Some xi /\ jtfs xi = Ok s
           /\ traverse (fun plane => column plane 0) s = Ok [first]
           /\ (v = first
               \/ exists c0, first = [c0] /\ v = replicate (length v) c0))
        body) as Hfill
  end.
  edestruct Hfill as (_ & Hlen & _ & Hrows); [| | exact H |].
  - clear. intros i sx sx' HI Hbody.
    apply bind_Ok in Hbody as (xi & Hxi & Hbody).
    apply bind_Ok in Hbody as (s & Hs & Hbody).
    apply bind_Ok in Hbody as (v0 & Hv0 & Hbody).
    destruct v0 as [|first [|second v0]]; try discriminate.
    apply setitem_row_Ok in Hbody as (old & v & Hold & -> & Hv & Hcase).
    exists v. split; [reflexivity|].
    split; [eapply lookup_lt_Some; exact Hold|].
    pose proof (proj1 (Forall_lookup _ _) HI i old Hold) as Holdlen.
    split.
    + exists xi, s, first. split; [apply getitem_Ok; exact Hxi|].
      split; [exact Hs|]. split; [exact Hv0|].
      destruct Hcase as [->|(c0 & -> & ->)]; [left; reflexivity|].
      right. exists c0. split; [reflexivity|].
      rewrite length_replicate. reflexivity.
    + apply Forall_insert; [exact HI | congruence].
  - unfold zeros2. apply Forall_replicate. apply length_replicate.
  - unfold zeros2 in Hlen. rewrite length_replicate in Hlen.
    split; [exact Hlen|]. intros c x Hc.
    destruct (Hrows c) as (row & Hrow & xi & s & first & Hxi & Hs & Hfirst & Hcase).
    { split; [lia|]. simpl. eapply lookup_lt_Some. exact Hc. }
    assert (xi = x) by congruence. subst xi.
    exists J, jtfs, s, first, row. auto 10.
Qed.

Lemma extract_strf_rows (L : libs) (audio : mat) (duration sr : nat)
    (table : mat) :
  extract_strf L audio duration sr = Ok table ->
  length table = length audio
  /\ forall c x, audio !! c = Some x ->
       exists strf S features,
         import_auditory L = Ok strf
         /\ strf x sr duration = Ok S /\ strf_features S = Ok features
         /\ table !! c = Some (concat features).
Proof.
  unfold extract_strf. intros H.
  apply bind_Ok in H as (strf & Hstrf & H).
  apply bind_Ok in H as (x0 & _ & H).
  apply bind_Ok in H as (S0 & _ & H).
  apply bind_Ok in H as (F0 & _ & H).
  apply bind_Ok in H as (sx & Hloop & H).
  injection H as <-.
  match type of Hloop with
  | for_each _ ?body _ = _ =>
      pose proof (for_each_seq_fill
        (fun _ : tens3 => True)
        (fun i v => exists xi S,
           audio !! i = Some xi /\ strf xi sr duration = Ok S
           /\ strf_features S = Ok v)
        body) as Hfill
  end.
  edestruct Hfill as (_ & Hlen & _ & Hrows); [| | exact Hloop |].
  - clear. intros i sx sx' _ Hbody.
    apply bind_Ok in Hbody as (xi & Hxi & Hbody).
    apply bind_Ok in Hbody as (S & HS & Hbody).
    apply bind_Ok in Hbody as (F & HF & Hbody).
    apply bind_Ok in Hbody as (old & Hold & Hbody).
    destruct (bool_decide _) in Hbody; [|discriminate].
    injection Hbody as <-. exists F. split; [reflexivity|].
    split; [eapply lookup_lt_Some; apply getitem_Ok; exact Hold|].
    split; [|exact I].
    exists xi, S. split; [apply getitem_Ok; exact Hxi|]. auto.
  - exact I.
  - rewrite length_replicate in Hlen. rewrite length_map.
    split; [exact Hlen|]. intros c x Hc.
    destruct (Hrows c) as (F & HFc & xi & S & Hxi & HS & HF).
    { split; [lia|]. simpl. eapply lookup_lt_Some. exact Hc. }
    assert (xi = x) by congruence. subst xi.
    exists strf, S, F. split; [exact Hstrf|]. split; [exact HS|].
    split; [exact HF|]. rewrite list_lookup_fmap, HFc. reflexivity.
Qed.

(** [extract_openl3] returns the time averages of the embeddings that the
    library returns for the whole list of waveforms, in their order. *)
Lemma extract_openl3_rows (audio : mat) (sr : nat) (w w' : world) (table : mat) :
  extract_openl3 audio sr w = (Ok table, w') ->
  exists get_audio_embedding embeddings stamps,
    openl3 w = Some get_audio_embedding
    /\ get_audio_embedding audio sr = Ok (embeddings, stamps)
    /\ table = time_mean <$> embeddings.
Proof.
  unfold extract_openl3. intros H.
  destruct (openl3 w) as [g|]; [|discriminate].
  injection H as H _. apply bind_Ok in H as ([embeddings stamps] & Hg & H).
  exists g, embeddings, stamps. split; [reflexivity|]. split; [exact Hg|].
  unfold stack_mean_axis1 in H. cbn [fst] in H.
  destruct embeddings as [|first rest]; [discriminate|].
  destruct (forallb _ _); [|discriminate].
  injection H as <-. reflexivity.
Qed.

(** C3.  For the grid point [(i, j, k)] and the flat index
    [c = (i * len(fms) + j) * len(gammas) + k], in a run of
    [generate_audio] that returns (the time axis has [duration * sr]
    samples and no chirp rate is zero): column [c] of the parameter map is
    [(f0s[i], fms[j], gammas[k])], row [c] of
    [audio.reshape(-1, duration * sr)] (the array handed to the extractors)
    is the waveform stored at [audio[i, j, k, :]], the one generated from
    that triple, and [(i, j, k)] is recovered from [c] by division and
    remainder.  [extract_mfcc], which is handed the four-dimensional array
    and flattens its own result, puts the features of that same waveform in
    row [c] of its table (for a librosa that answers on every waveform).
    The tables returned by the time-scattering, JTFS and STRF extractors
    have one row per row of the flattened audio, and their row [c] is what
    the transform built from the library for [duration * sr] samples (the
    auditory model for STRF) answers on that waveform.  The table of
    [extract_openl3] holds in row [c] the time average of embedding [c] of
    the list that the library returns for the waveforms. *)
Theorem parameter_map_follows_audio_rows (L : libs) (f0s fms gammas : vec)
    (duration sr : nat) (i j k : nat) (f0 fm gamma : R) :
  (0 < duration)%nat -> (0 < sr)%nat ->
  time_axis_len duration sr = (duration * sr)%nat ->
  Forall (fun g => g <> 0) gammas ->
  f0s !! i = Some f0 -> fms !! j = Some fm -> gammas !! k = Some gamma ->
  let c := ((i * length fms + j) * length gammas + k)%nat in
  exists audio r0 r1 r2 flat wave raw,
    generate_audio f0s fms gammas duration sr = Ok (audio, [r0; r1; r2])
    /\ r0 !! c = Some f0 /\ r1 !! c = Some fm /\ r2 !! c = Some gamma
    /\ reshape_rows (duration * sr) audio = Ok flat
    /\ length flat = (length f0s * length fms * length gammas)%nat
    /\ length r0 = length flat /\ length r1 = length flat
    /\ length r2 = length flat
    /\ generate f0 fm gamma 2 duration sr = Ok (Fin <$> raw)
    /\ wave = div_scalar raw (np.linalg_norm raw)
    /\ getitem3 audio i j k = Ok wave
    /\ flat !! c = Some wave
    /\ i = (c / (length fms * length gammas))%nat
    /\ j = ((c / length gammas) mod length fms)%nat
    /\ k = (c mod length gammas)%nat
    /\ (Forall (mfcc_answers L sr 20) flat ->
        exists table,
          extract_mfcc L audio f0s fms gammas sr 20 = Ok table
          /\ length table = length flat
          /\ table !! c = Some (mfcc_row L sr wave))
    /\ (forall ts, extract_time_scattering L flat duration sr = Ok ts ->
        length ts = length flat
        /\ exists J scat s col row,
             scattering_J (duration * sr) = Ok J
             /\ Scattering1D L (duration * sr) J = Ok scat
             /\ scat wave = Ok s /\ column s 0 = Ok col /\ ts !! c = Some row
             /\ (row = col
                 \/ exists c0, col = [c0] /\ row = replicate (length row) c0))
    /\ (forall table, extract_jtfs L flat duration sr = Ok table ->
        length table = length flat
        /\ exists J jtfs s first row,
             scattering_J (duration * sr) = Ok J
             /\ TimeFrequencyScattering1D L (duration * sr) J = Ok jtfs
             /\ jtfs wave = Ok s
             /\ traverse (fun plane => column plane 0) s = Ok [first]
             /\ table !! c = Some row
             /\ (row = first
                 \/ exists c0, first = [c0] /\ row = replicate (length row) c0))
    /\ (forall table, extract_strf L flat duration sr = Ok table ->
        length table = length flat
        /\ exists strf S features,
             import_auditory L = Ok strf
             /\ strf wave sr duration = Ok S /\ strf_features S = Ok features
             /\ table !! c = Some (concat features))
    /\ (forall w w' table, extract_openl3 flat sr w = (Ok table, w') ->
        exists get_audio_embedding embeddings stamps,
          openl3 w = Some get_audio_embedding
          /\ get_audio_embedding flat sr = Ok (embeddings, stamps)
          /\ length table = length embeddings
          /\ table !! c = time_mean <$> embeddings !! c).
Proof.
  intros Hd Hsr Ht Hnz Hi Hj Hk c.
  assert (Hsr' : sr <> 0%nat) by lia.
  assert (Hg : gamma <> 0) by (apply (proj1 (Forall_lookup _ _) Hnz k gamma Hk)).
  pose proof (grid_points_lookup f0s fms gammas i j k f0 fm gamma Hi Hj Hk) as Hc.
  fold c in Hc.
  pose proof (audio_tensor_shape f0s fms gammas duration sr) as Hshape.
  pose proof (audio_tensor_getitem3 f0s fms gammas duration sr i j k f0 fm gamma
                Hi Hj Hk) as Hget.
  pose proof (flatten_length _ _ _ _ _ Hshape) as Hflat.
  pose proof (grid_points_length f0s fms gammas) as Hpts.
  exists (audio_tensor f0s fms gammas duration sr),
         (((fun p => p.1.1) <$> grid_points f0s fms gammas) ++ []),
         (((fun p => p.1.2) <$> grid_points f0s fms gammas) ++ []),
         (((fun p => p.2) <$> grid_points f0s fms gammas) ++ []),
         (concat (concat (audio_tensor f0s fms gammas duration sr))),
         (unit_waveform f0 fm gamma duration sr),
         (raw_waveform f0 fm gamma duration sr).
  rewrite !app_nil_r, !length_fmap, !list_lookup_fmap, Hc.
  split; [rewrite generate_audio_Ok by assumption; unfold param_map;
          rewrite !app_nil_r; reflexivity|].
  do 3 (split; [reflexivity|]).
  split; [unfold reshape_rows; rewrite decide_False by nia; reflexivity|].
  split; [exact Hflat|].
  do 3 (split; [congruence|]).
  split; [apply generate_default_Ok; assumption|].
  split; [reflexivity|].
  split; [exact Hget|].
  pose proof (flatten_lookup _ _ _ _ _ _ _ _ _ Hshape Hget) as Hrow.
  split; [exact Hrow|].
  split; [|split; [|split]];
    try (apply flat_index_inverse; eapply lookup_lt_Some; eassumption).
  split; [|split; [|split; [|split]]].
  - intros Hans.
    exists (mfcc_row L sr
            <$> concat (concat (audio_tensor f0s fms gammas duration sr))).
    split; [apply (extract_mfcc_Ok L _ f0s fms gammas sr 20 (duration * sr));
            [lia | exact Hshape | exact Hans]|].
    split; [apply length_fmap|].
    rewrite list_lookup_fmap. unfold c. rewrite Hrow. reflexivity.
  - intros ts Hts.
    apply extract_time_scattering_rows in Hts as [Hlen Hrows].
    split; [exact Hlen|]. exact (Hrows _ _ Hrow).
  - intros table Htable.
    apply extract_jtfs_rows in Htable as [Hlen Hrows].
    split; [exact Hlen|]. exact (Hrows _ _ Hrow).
  - intros table Htable.
    apply extract_strf_rows in Htable as [Hlen Hrows].
    split; [exact Hlen|]. exact (Hrows _ _ Hrow).
  - intros w w' table Htable.
    apply extract_openl3_rows in Htable as (g & embeddings & stamps & Hw & Hcall & ->).
    exists g, embeddings, stamps. split; [exact Hw|]. split; [exact Hcall|].
    split; [apply length_fmap|]. apply list_lookup_fmap.
Qed.

Lemma parameter_map_follows_audio_rows_witness :
  exists audio r0 r1 r2 flat wave table,
    generate_audio [512; 1024] [4; 16] [1 / 2; 4] 1 4 = Ok (audio, [r0; r1; r2])
    /\ r0 !! 5%nat = Some 1024 /\ r1 !! 5%nat = Some 4 /\ r2 !! 5%nat = Some 4
    /\ reshape_rows 4 audio = Ok flat
    /\ getitem3 audio 1 0 1 = Ok wave
    /\ flat !! 5%nat = Some wave
    /\ extract_mfcc constant_libs audio [512; 1024] [4; 16] [1 / 2; 4] 4 20
       = Ok table
    /\ table !! 5%nat = Some (mfcc_row constant_libs 4 wave).
Proof.
  destruct (parameter_map_follows_audio_rows constant_libs
              [512; 1024] [4; 16] [1 / 2; 4] 1 4 1 0 1 1024 4 4)
    as (audio & r0 & r1 & r2 & flat & wave & raw & H0 & H1 & H2 & H3 & H4
        & _ & _ & _ & _ & _ & _ & H5 & H6 & _ & _ & _ & Hmfcc & _).
  - lia.
  - lia.
  - exact time_axis_len_one_second_at_4.
  - repeat constructor; lra.
  - reflexivity.
  - reflexivity.
  - reflexivity.
  - destruct Hmfcc as (table & Ht & _ & Hrow).
    { apply Forall_forall. intros y _. exists (replicate 20 [0]).
      split; reflexivity. }
    exists audio, r0, r1, r2, flat, wave, table.
    repeat split; assumption.
Defined.

(** ** Shapes *)

Lemma linspace_length (start stop : R) (num : nat) :
  length (np.linspace start stop num) = num.
Proof.
  unfold np.linspace. destruct num as [|[|n]]; [reflexivity..|].
  rewrite length_map, length_seq. reflexivity.
Qed.

Lemma logspace_length (start stop : R) (num : nat) :
  length (np.logspace start stop num) = num.
Proof. unfold np.logspace. rewrite length_map. apply linspace_length. Qed.

Lemma Rpower_10_log10 (a : R) : 0 < a -> Rpower 10 (np.log10 a) = a.
Proof.
  intros Ha. unfold Rpower, np.log10.
  assert (H10 : 0 < ln 10) by (rewrite <- ln_1; apply ln_increasing; lra).
  replace (ln a / ln 10 * ln 10) with (ln a) by (field; lra).
  apply exp_ln. exact Ha.
Qed.

(** The two-point grids of the scenario are the end points themselves. *)
Lemma logspace_two_points (a b : R) :
  0 < a -> 0 < b -> np.logspace (np.log10 a) (np.log10 b) 2 = [a; b].
Proof.
  intros Ha Hb. unfold np.logspace, np.linspace. simpl.
  rewrite Rpower_10_log10 by exact Hb.
  replace (np.log10 a + 0 * ((np.log10 b - np.log10 a) / 1)) with (np.log10 a)
    by lra.
  rewrite Rpower_10_log10 by exact Ha. reflexivity.
Qed.

Lemma param_map_shape (pts : list (R * R * R)) :
  has_shape2 (param_map pts 0) 3 (length pts).
Proof.
  unfold has_shape2, param_map. split; [reflexivity|].
  repeat constructor; rewrite length_app, length_fmap; simpl; lia.
Qed.

Lemma mfcc_row_length (L : libs) (sr n : nat) (y : vec) :
  mfcc_answers L sr n y -> length (mfcc_row L sr y) = n.
Proof.
  intros (m & Hm & Hlen). unfold mfcc_row. rewrite Hm.
  rewrite mean_last_axis_length. exact Hlen.
Qed.

Lemma for_each_invariant {A S : Type} (I : S -> Prop) (xs : list A)
    (body : A -> S -> outcome S) :
  (forall x s s', I s -> body x s = Ok s' -> I s') ->
  forall s0 s, I s0 -> for_each xs body s0 = Ok s -> I s.
Proof.
  intros Hbody. induction xs as [|x xs IH]; intros s0 s H0 Hrun; simpl in Hrun.
  - injection Hrun as <-. exact H0.
  - apply bind_Ok in Hrun as (s1 & Hstep & Hrun).
    apply (IH s1 s); [eapply Hbody; eassumption | exact Hrun].
Qed.


Lemma setitem3_shape (t t' : tens4) (a b c d i j k : nat) (x : vec) :
  has_shape4 t a b c d -> setitem3 t i j k x = Ok t' -> has_shape4 t' a b c d.
Proof.
  intros [Ha Hplanes] H. unfold setitem3 in H.
  apply bind_Ok in H as (old & Hold & H).
  unfold getitem3 in Hold.
  apply bind_Ok in Hold as (plane & Hplane & Hold).
  apply bind_Ok in Hold as (line & Hline & Hold).
  apply getitem_Ok in Hplane, Hline, Hold.
  pose proof (proj1 (Forall_lookup _ _) Hplanes i plane Hplane) as [Hb Hlines].
  pose proof (proj1 (Forall_lookup _ _) Hlines j line Hline) as [Hc Hrows].
  pose proof (proj1 (Forall_lookup _ _) Hrows k old Hold) as Hd.
  assert (Hset : forall v : vec, length v = d ->
            has_shape4 (alter (alter (<[k := v]>) j) i t) a b c d).
  { intros v Hv. split; [rewrite length_alter; exact Ha|].
    apply Forall_alter; [exact Hplanes|].
    intros plane' Hplane'. assert (plane' = plane) by congruence. subst plane'.
    split; [rewrite length_alter; exact Hb|].
    apply Forall_alter; [exact Hlines|].
    intros line' Hline'. assert (line' = line) by congruence. subst line'.
    split; [rewrite length_insert; exact Hc|].
    apply Forall_insert; [exact Hrows | exact Hv]. }
  destruct (decide (length x = length old)) as [Hlen|Hlen].
  - injection H as <-. apply Hset. congruence.
  - destruct x as [|v [|v' x]]; try discriminate. injection H as <-.
    apply Hset. rewrite length_replicate. exact Hd.
Qed.

Lemma zeros4_shape (a b c d : nat) : has_shape4 (zeros4 a b c d) a b c d.
Proof.
  unfold has_shape4, zeros4.
  split; [apply length_replicate|].
  apply Forall_replicate. split; [apply length_replicate|].
  apply Forall_replicate. split; [apply length_replicate|].
  apply Forall_replicate. apply length_replicate.
Qed.

Lemma flatten_rows (t : tens4) (a b c d : nat) :
  has_shape4 t a b c d -> Forall (fun row : vec => length row = d) (concat (concat t)).
Proof.
  intros [_ Hplanes]. apply Forall_concat, Forall_concat.
  eapply Forall_impl; [exact Hplanes|]. intros plane [_ Hlines].
  eapply Forall_impl; [exact Hlines|]. intros line [_ Hrows]. exact Hrows.
Qed.

Lemma extract_mfcc_Ok_shape (L : libs) (audio : tens4) (f0s fms gammas : vec)
    (sr n_mfcc : nat) (table : mat) :
  extract_mfcc L audio f0s fms gammas sr n_mfcc = Ok table ->
  has_shape2 table (length f0s * length fms * length gammas) n_mfcc.
Proof.
  intros H. unfold extract_mfcc in H.
  apply bind_Ok in H as (mfcc & Hloop & H).
  unfold reshape_rows in H. destruct (decide (n_mfcc = 0%nat)); [discriminate|].
  injection H as <-.
  set (I := fun s : tens4 =>
              has_shape4 s (length f0s) (length fms) (length gammas) n_mfcc).
  assert (Hshape : I mfcc).
  { revert Hloop. apply (for_each_invariant I); [|apply zeros4_shape].
    intros [i f0] s s' Hs. apply (for_each_invariant I); [|exact Hs].
    clear. intros [j fm] s s' Hs. apply (for_each_invariant I); [|exact Hs].
    clear. intros [k gamma] s s' Hs Hbody. unfold extract_mfcc_body in Hbody.
    apply bind_Ok in Hbody as (y & _ & Hbody).
    apply bind_Ok in Hbody as (m & _ & Hbody).
    eapply setitem3_shape; eassumption. }
  split; [apply (flatten_length _ _ _ _ _ Hshape)
         | apply (flatten_rows _ _ _ _ _ Hshape)].
Qed.

Lemma setitem2_shape (m m' : mat) (r c a b : nat) (v : R) :
  has_shape2 m a b -> setitem2 m r c v = Ok m' -> has_shape2 m' a b.
Proof.
  intros [Ha Hrows] H. unfold setitem2 in H.
  apply bind_Ok in H as (row & Hrow & H).
  apply bind_Ok in H as (old & _ & H).
  injection H as <-. apply getitem_Ok in Hrow.
  split; [rewrite length_alter; exact Ha|].
  apply Forall_alter; [exact Hrows|].
  intros row' Hrow'. assert (row' = row) by congruence. subst row'.
  rewrite length_insert. intros Hlen. exact Hlen.
Qed.

(** Whatever it stores, a run of [generate_audio] that returns leaves the
    two arrays with the shapes they were allocated with. *)
Lemma generate_audio_shape (f0s fms gammas : vec) (duration sr : nat)
    (audio : tens4) (cmap : mat) :
  generate_audio f0s fms gammas duration sr = Ok (audio, cmap) ->
  has_shape4 audio (length f0s) (length fms) (length gammas) (duration * sr)
  /\ has_shape2 cmap 3 (length f0s * length fms * length gammas).
Proof.
  intros H. unfold generate_audio in H.
  apply bind_Ok in H as ([[a m] c] & Hloop & H).
  injection H as <- <-. cbn [fst snd].
  set (I := fun st : gen_state =>
              has_shape4 st.1.1 (length f0s) (length fms) (length gammas)
                (duration * sr)
              /\ has_shape2 st.1.2 3 (length f0s * length fms * length gammas)).
  change (I (a, m, c)).
  revert Hloop. apply (for_each_invariant I).
  - intros [i f0] s s' Hs. apply (for_each_invariant I); [|exact Hs].
    clear. intros [j fm] s s' Hs. apply (for_each_invariant I); [|exact Hs].
    clear. intros [k gamma] [[a m] c] s' [Ha Hm] Hbody.
    unfold generate_audio_body in Hbody. cbn [fst snd] in Ha, Hm.
    apply bind_Ok in Hbody as (x & _ & Hbody).
    apply bind_Ok in Hbody as (a1 & Ha1 & Hbody).
    apply bind_Ok in Hbody as (row & _ & Hbody).
    apply bind_Ok in Hbody as (a2 & Ha2 & Hbody).
    apply bind_Ok in Hbody as (m1 & Hm1 & Hbody).
    apply bind_Ok in Hbody as (m2 & Hm2 & Hbody).
    apply bind_Ok in Hbody as (m3 & Hm3 & Hbody).
    injection Hbody as <-. split; cbn [fst snd].
    + eapply setitem3_shape; [|exact Ha2].
      eapply setitem3_shape; [exact Ha | exact Ha1].
    + eapply setitem2_shape; [|exact Hm3].
      eapply setitem2_shape; [|exact Hm2].
      eapply setitem2_shape; [exact Hm | exact Hm1].
  - split; cbn [fst snd]; [apply zeros4_shape|].
    unfold zeros2. split; [apply length_replicate|].
    apply Forall_replicate, length_replicate.
Qed.

(** C7.  For grids of any lengths, a run of [generate_audio] that returns
    gives an audio tensor of shape
    [(len f0s, len fms, len gammas, duration * sr)], whose flattening has
    one row of [duration * sr] samples per grid point, and a parameter map
    of shape [(3, len f0s * len fms * len gammas)]; whatever librosa
    answers, a table that [extract_mfcc] returns has shape
    [(len f0s * len fms * len gammas, 20)], and the tables that the
    time-scattering, JTFS and STRF extractors return have the same number
    of rows.  Every waveform that [generate] returns has [duration * sr]
    samples.  A grid built by [np.logspace(_, _, n_steps)] has [n_steps]
    points, so that the row count is the cube of [n_steps].
    [generate_audio] returns when the sampling rate is not zero, the time
    axis has [duration * sr] samples and no chirp rate is zero. *)
Theorem pipeline_shapes (L : libs) (f0s fms gammas : vec) (duration sr : nat) :
  let n := (length f0s * length fms * length gammas)%nat in
  (forall audio cmap,
     generate_audio f0s fms gammas duration sr = Ok (audio, cmap) ->
     has_shape4 audio (length f0s) (length fms) (length gammas) (duration * sr)
     /\ has_shape2 cmap 3 n
     /\ (forall flat, reshape_rows (duration * sr) audio = Ok flat ->
         has_shape2 flat n (duration * sr))
     /\ (forall mfcc, extract_mfcc L audio f0s fms gammas sr 20 = Ok mfcc ->
         has_shape2 mfcc n 20)
     /\ (forall flat table,
           reshape_rows (duration * sr) audio = Ok flat ->
           extract_time_scattering L flat duration sr = Ok table
           \/ extract_jtfs L flat duration sr = Ok table
           \/ extract_strf L flat duration sr = Ok table ->
           length table = n))
  /\ (forall f_c f_m gamma bw x,
        generate f_c f_m gamma bw duration sr = Ok x ->
        length x = (duration * sr)%nat)
  /\ (forall a b n_steps, length (np.logspace a b n_steps) = n_steps)
  /\ (forall n_steps,
        length f0s = n_steps -> length fms = n_steps -> length gammas = n_steps ->
        n = (n_steps ^ 3)%nat)
  /\ (sr <> 0%nat -> time_axis_len duration sr = (duration * sr)%nat ->
      Forall (fun gamma => gamma <> 0) gammas ->
      exists audio cmap, generate_audio f0s fms gammas duration sr = Ok (audio, cmap)).
Proof.
  intros n. split; [|split; [|split; [|split]]].
  - intros audio cmap Hgen.
    apply generate_audio_shape in Hgen as [Hshape Hcmap].
    assert (Hflat : forall flat, reshape_rows (duration * sr) audio = Ok flat ->
                      has_shape2 flat n (duration * sr)).
    { intros flat Hflat. unfold reshape_rows in Hflat.
      destruct (decide (duration * sr = 0)%nat); [discriminate|].
      injection Hflat as <-.
      split; [apply (flatten_length _ _ _ _ _ Hshape)
             | apply (flatten_rows _ _ _ _ _ Hshape)]. }
    split; [exact Hshape|]. split; [exact Hcmap|]. split; [exact Hflat|].
    split; [intros mfcc Hmfcc; eapply extract_mfcc_Ok_shape; exact Hmfcc|].
    intros flat table Hf Htable. destruct (Hflat flat Hf) as [<- _].
    destruct Htable as [H|[H|H]].
    + apply extract_time_scattering_rows in H as [H _]. exact H.
    + apply extract_jtfs_rows in H as [H _]. exact H.
    + apply extract_strf_rows in H as [H _]. exact H.
  - intros f_c f_m gamma bw x Hx.
    apply generate_Ok_inv in Hx as (_ & _ & Hlen & _). exact Hlen.
  - intros a b n_steps. apply logspace_length.
  - intros n_steps H1 H2 H3. unfold n. rewrite H1, H2, H3. simpl. lia.
  - intros Hsr Ht Hnz. eexists. eexists. apply generate_audio_Ok; assumption.
Qed.

Lemma time_axis_len_scenario : time_axis_len 1 (2 ^ 10) = (1 * 2 ^ 10)%nat.
Proof. vm_compute. reflexivity. Qed.

(** The scenario of the specification: two-point grids, one second at
    1024 Hz. *)
Lemma pipeline_shapes_witness :
  np.logspace (np.log10 512) (np.log10 1024) 2 = [512; 1024]
  /\ np.logspace (np.log10 4) (np.log10 16) 2 = [4; 16]
  /\ np.logspace (np.log10 (1 / 2)) (np.log10 4) 2 = [1 / 2; 4]
  /\ exists audio cmap mfcc,
       generate_audio [512; 1024] [4; 16] [1 / 2; 4] 1 (2 ^ 10) = Ok (audio, cmap)
       /\ has_shape4 audio 2 2 2 1024
       /\ has_shape2 cmap 3 8
       /\ extract_mfcc constant_libs audio [512; 1024] [4; 16] [1 / 2; 4] (2 ^ 10) 20
          = Ok mfcc
       /\ has_shape2 mfcc 8 20.
Proof.
  split; [apply logspace_two_points; lra|].
  split; [apply logspace_two_points; lra|].
  split; [apply logspace_two_points; lra|].
  destruct (pipeline_shapes constant_libs [512; 1024] [4; 16] [1 / 2; 4] 1 (2 ^ 10))
    as (Hshapes & _ & _ & _ & Hreturns).
  assert (Hnz : Forall (fun gamma => gamma <> 0) [1 / 2; 4])
    by (repeat constructor; lra).
  assert (Hsr : (2 ^ 10)%nat <> 0%nat) by (simpl; lia).
  destruct (Hreturns Hsr time_axis_len_scenario Hnz) as (audio & cmap & Hgen).
  destruct (Hshapes audio cmap Hgen) as (Ha & Hc & _ & Hm & _).
  assert (Hmfcc : exists mfcc,
            extract_mfcc constant_libs audio [512; 1024] [4; 16] [1 / 2; 4] (2 ^ 10) 20
            = Ok mfcc).
  { eexists.
    apply (extract_mfcc_Ok constant_libs audio _ _ _ _ 20 (1 * 2 ^ 10));
      [simpl; lia | exact Ha |].
    apply Forall_forall. intros y _. exists (replicate 20 [0]). split; reflexivity. }
  destruct Hmfcc as [mfcc Hmfcc].
  exists audio, cmap, mfcc.
  split; [exact Hgen|]. split; [exact Ha|]. split; [exact Hc|].
  split; [exact Hmfcc | exact (Hm mfcc Hmfcc)].
Defined.

(** ** Recovery ratios *)

Lemma traverse_Ok {A B : Type} (f : A -> outcome B) (l : list A) (ys : list B) :
  traverse f l = Ok ys ->
  Forall2 (fun x y => f x = Ok y) l ys.
Proof.
  revert ys. induction l as [|x l IH]; intros ys H; simpl in H.
  - injection H as <-. constructor.
  - destruct (f x) as [y|e] eqn:Hx; [simpl in H|discriminate].
    destruct (traverse f l) as [ys'|e] eqn:Hl; [simpl in H|discriminate].
    injection H as <-. constructor; [exact Hx | apply IH; reflexivity].
Qed.

Lemma traverse_Ok_intro {A B : Type} (f : A -> outcome B) (l : list A)
    (ys : list B) :
  Forall2 (fun x y => f x = Ok y) l ys -> traverse f l = Ok ys.
Proof.
  induction 1 as [|x y l ys Hx _ IH]; simpl; [reflexivity|].
  rewrite Hx. simpl. rewrite IH. reflexivity.
Qed.

(** What one row of the ratio table holds. *)
Lemma ratio_row_Ok (cmap : mat) (ind : list (list nat)) (i : nat)
    (r : list npfloat) :
  ratio_row cmap ind i = Ok r ->
  exists nb,
    ind !! i = Some nb
    /\ length r = length cmap
    /\ forall p row, cmap !! p = Some row ->
       exists vals own,
         Forall2 (fun j v => row !! j = Some v) nb vals
         /\ row !! i = Some own
         /\ r !! p = Some (np_div
                             (np_exp (np_mean ((fun v => np_log (Fin v)) <$> vals)))
                             (Fin own)).
Proof.
  unfold ratio_row, column. intros H.
  apply bind_Ok in H as (nb & Hnb & H).
  apply bind_Ok in H as (sel & Hsel & H).
  apply bind_Ok in H as (own & Hown & H).
  injection H as <-.
  apply traverse_Ok in Hsel, Hown.
  exists nb. split; [apply getitem_Ok; exact Hnb|].
  pose proof (Forall2_length _ _ _ Hsel) as Hl1.
  pose proof (Forall2_length _ _ _ Hown) as Hl2.
  split.
  - rewrite length_zip_with, !length_fmap. lia.
  - intros p row Hp.
    destruct (Forall2_lookup_l _ _ _ _ _ Hsel Hp) as (vals & Hvals & Htr).
    destruct (Forall2_lookup_l _ _ _ _ _ Hown Hp) as (o & Ho & Hgo).
    exists vals, o. split.
    + apply traverse_Ok in Htr. eapply Forall2_impl; [exact Htr|].
      intros j v Hj. apply getitem_Ok. exact Hj.
    + split; [apply getitem_Ok; exact Hgo|].
      rewrite lookup_zip_with, !list_lookup_fmap, Hvals, Ho. reflexivity.
Qed.

Lemma compute_ratios_Ok (cmap : mat) (ind : list (list nat)) (n : nat)
    (ratio : list (list npfloat)) :
  compute_ratios cmap ind n = Ok ratio ->
  length ratio = n
  /\ forall i, (i < n)%nat ->
       exists r, ratio !! i = Some r /\ ratio_row cmap ind i = Ok r.
Proof.
  unfold compute_ratios, vstack. intros H.
  apply bind_Ok in H as (rows & Hrows & H).
  apply traverse_Ok in Hrows.
  pose proof (Forall2_length _ _ _ Hrows) as Hlen. rewrite length_seq in Hlen.
  destruct rows as [|r0 rows]; [discriminate|]. injection H as <-.
  split; [symmetry; exact Hlen|].
  intros i Hi.
  destruct (Forall2_lookup_l _ _ _ i i Hrows) as (r & Hr & Hrow).
  - apply lookup_seq_lt. exact Hi.
  - exists r. split; [exact Hr | exact Hrow].
Qed.

(** The sum of the logarithms of positive values is finite. *)
Lemma np_sum_log_pos (vals : vec) :
  Forall (fun v => 0 < v) vals ->
  np_sum ((fun v => np_log (Fin v)) <$> vals) = Fin (np.sum (ln <$> vals)).
Proof.
  induction 1 as [|v vals Hv _ IH]; [reflexivity|].
  rewrite !fmap_cons.
  change (np_add (np_log (Fin v)) (np_sum ((fun v => np_log (Fin v)) <$> vals))
          = Fin (ln v + np.sum (ln <$> vals))).
  rewrite IH. unfold np_log.
  destruct (Rlt_dec 0 v) as [_|Hn]; [reflexivity|contradiction].
Qed.

Lemma np_prod_pos (vals : vec) :
  Forall (fun v => 0 < v) vals -> 0 < np_prod vals.
Proof.
  induction 1 as [|v vals Hv _ IH]; unfold np_prod in *; simpl; [lra|].
  apply Rmult_lt_0_compat; assumption.
Qed.

Lemma sum_ln_prod (vals : vec) :
  Forall (fun v => 0 < v) vals -> np.sum (ln <$> vals) = ln (np_prod vals).
Proof.
  induction 1 as [|v vals Hv Hall IH].
  - symmetry. apply ln_1.
  - rewrite fmap_cons. change (ln v + np.sum (ln <$> vals) = ln (v * np_prod vals)).
    rewrite IH. symmetry.
    apply ln_mult; [exact Hv | apply (np_prod_pos vals Hall)].
Qed.

(** [exp(mean(log x))] is the geometric mean of positive values. *)
Lemma exp_mean_log_pos (vals : vec) :
  vals <> [] ->
  Forall (fun v => 0 < v) vals ->
  np_exp (np_mean ((fun v => np_log (Fin v)) <$> vals))
  = Fin (geometric_mean vals).
Proof.
  intros Hne Hall. unfold np_mean. rewrite np_sum_log_pos by exact Hall.
  rewrite length_fmap. unfold np_div.
  assert (Hlen : INR (length vals) <> 0).
  { apply not_0_INR. destruct vals; [contradiction|discriminate]. }
  destruct (Req_dec_T (INR (length vals)) 0) as [H0|_]; [contradiction|].
  unfold np_exp, geometric_mean, Rpower. rewrite sum_ln_prod by exact Hall.
  f_equal. f_equal. unfold Rdiv. ring.
Qed.

Lemma np_div_pos (a b : R) : 0 < b -> np_div (Fin a) (Fin b) = Fin (a / b).
Proof.
  intros Hb. unfold np_div.
  destruct (Req_dec_T b 0) as [H0|_]; [lra|reflexivity].
Qed.

(** ** The state monad *)

Lemma M_bind_Ok {A B : Type} (m : M A) (f : A -> M B) (w w' : world) (b : B) :
  (m ≫= f) w = (Ok b, w') ->
  exists a w1, m w = (Ok a, w1) /\ f a w1 = (Ok b, w').
Proof.
  unfold mbind, M_bind. destruct (m w) as [[a|e] w1]; intros H.
  - exists a, w1. split; [reflexivity | exact H].
  - discriminate.
Qed.

Lemma lift_Ok {A : Type} (o : outcome A) (w w' : world) (a : A) :
  lift o w = (Ok a, w') -> o = Ok a /\ w' = w.
Proof. unfold lift. intros H. injection H as -> ->. split; reflexivity. Qed.

(** ** Dictionaries *)

Lemma dict_get_set_eq {V : Type} (d : list (string * V)) (key : string) (v : V) :
  dict_get (dict_set d key v) key = Ok v.
Proof.
  unfold dict_get, dict_set. induction d as [|[k0 v0] d IH]; simpl.
  - rewrite decide_True by reflexivity. reflexivity.
  - destruct (decide (k0 = key)) as [->|Hne]; simpl.
    + rewrite decide_True by reflexivity. reflexivity.
    + destruct (list_find (fun kv : string * V => kv.1 = key) d) as [[i kv]|]
        eqn:Hfind; simpl in *.
      * rewrite decide_False by exact Hne.
        destruct (list_find _ (<[i:=(key, v)]> d)) as [[i' kv']|];
          simpl in *; [exact IH | discriminate].
      * rewrite decide_False by exact Hne.
        destruct (list_find _ (d ++ [(key, v)])) as [[i' kv']|];
          simpl in *; [exact IH | discriminate].
Qed.

Lemma dict_get_set_ne {V : Type} (d : list (string * V)) (key key' : string)
    (v : V) :
  key <> key' -> dict_get (dict_set d key v) key' = dict_get d key'.
Proof.
  intros Hkk. unfold dict_get, dict_set.
  induction d as [|[k0 v0] d IH]; simpl.
  - rewrite decide_False by exact Hkk. reflexivity.
  - destruct (decide (k0 = key)) as [->|Hne]; simpl.
    + rewrite !decide_False by exact Hkk. reflexivity.
    + destruct (list_find (fun kv : string * V => kv.1 = key) d) as [[i kv]|]
        eqn:Hfind; simpl in *.
      * destruct (decide (k0 = key')); [reflexivity|].
        destruct (list_find _ (<[i:=(key, v)]> d)) as [[i1 kv1]|];
          destruct (list_find (fun kv : string * V => kv.1 = key') d)
            as [[i2 kv2]|]; simpl in *; try exact IH; try discriminate;
          reflexivity.
      * destruct (decide (k0 = key')); [reflexivity|].
        destruct (list_find _ (d ++ [(key, v)])) as [[i1 kv1]|];
          destruct (list_find (fun kv : string * V => kv.1 = key') d)
            as [[i2 kv2]|]; simpl in *; try exact IH; try discriminate;
          reflexivity.
Qed.

(** ** The loop of [run_isomaps] *)

Lemma plot_isomap_Ok (L : libs) (Y cmap : mat) (out_dir : string)
    (w w' : world) (u : unit) :
  plot_isomap L Y cmap out_dir w = (Ok u, w') ->
  w' = add_event (EvSavefig (path_join out_dir "isomap.png"))
         (add_file (path_join out_dir "isomap.png") w).
Proof.
  unfold plot_isomap. intros H.
  repeat (apply M_bind_Ok in H as (? & ? & Hstep & H);
          apply lift_Ok in Hstep as [_ ->]).
  unfold plt_savefig in H. injection H; intros; subst; reflexivity.
Qed.

Lemma run_isomaps_feat_Ok (L : libs) (X : list (string * mat)) (cmap : mat)
    (out_dir : string) (n_neighbors : nat) (feat : string)
    (acc acc' : list (string * list (list npfloat))) (w w' : world) :
  run_isomaps_feat L X cmap out_dir n_neighbors feat acc w = (Ok acc', w') ->
  exists ratio ind table,
    ratio_table_of L X cmap n_neighbors feat ratio ind table
    /\ acc' = dict_set acc feat ratio
    /\ w' = add_event (EvSavefig (path_join (path_join out_dir feat) "isomap.png"))
              (add_file (path_join (path_join out_dir feat) "isomap.png")
                 (add_event (EvIsomapFit n_neighbors (length table))
                    (os_makedirs (path_join out_dir feat) true w).2)).
Proof.
  unfold run_isomaps_feat, isomap_fit. intros H.
  apply M_bind_Ok in H as (u & w1 & Hmk & H).
  apply M_bind_Ok in H as (table & w2 & Htable & H).
  apply lift_Ok in Htable as [Htable ->].
  apply M_bind_Ok in H as (fitted & w3 & Hfit & H).
  apply M_bind_Ok in Hfit as (u' & w4 & Hlog & Hfit).
  apply lift_Ok in Hfit as [Hfit ->].
  unfold log_event in Hlog. assert (w4 = add_event (EvIsomapFit n_neighbors (length table)) w1)
    by (injection Hlog; intros; subst; reflexivity).
  subst w4. clear Hlog.
  apply M_bind_Ok in H as (u'' & w5 & Hplot & H).
  apply plot_isomap_Ok in Hplot as ->.
  apply M_bind_Ok in H as (knn & w6 & Hknn & H).
  apply lift_Ok in Hknn as [Hknn ->].
  apply M_bind_Ok in H as (ratio & w7 & Hratio & H).
  apply lift_Ok in Hratio as [Hratio ->].
  injection H as <- <-.
  exists ratio, knn.2, table. split; [|split; [reflexivity|]].
  - exists fitted.1, fitted.2, knn.1.
    split; [exact Htable|]. split; [destruct fitted; exact Hfit|].
    split; [destruct knn; exact Hknn | exact Hratio].
  - rewrite Hmk. reflexivity.
Qed.

Lemma run_isomaps_loop_invariant (L : libs) (X : list (string * mat))
    (cmap : mat) (out_dir : string) (n_neighbors : nat) (keys : list string) :
  NoDup keys ->
  forall (acc ratios : list (string * list (list npfloat))) (w w' : world),
  for_each_M keys (run_isomaps_feat L X cmap out_dir n_neighbors) acc w
  = (Ok ratios, w') ->
  (forall feat, feat ∈ keys ->
     exists ratio ind table,
       dict_get ratios feat = Ok ratio
       /\ ratio_table_of L X cmap n_neighbors feat ratio ind table)
  /\ (forall feat, feat ∉ keys -> dict_get ratios feat = dict_get acc feat).
Proof.
  induction 1 as [|key keys Hnotin Hnodup IH]; intros acc ratios w w' H.
  - simpl in H. injection H as <- _. split; [|reflexivity].
    intros feat Hin. inversion Hin.
  - simpl in H. apply M_bind_Ok in H as (acc1 & w1 & Hbody & H).
    apply run_isomaps_feat_Ok in Hbody as (ratio & ind & table & Hspec & -> & _).
    destruct (IH _ _ _ _ H) as [IHin IHout]. split.
    + intros feat Hin. apply elem_of_cons in Hin as [->|Hin].
      * exists ratio, ind, table. split; [|exact Hspec].
        rewrite IHout by exact Hnotin. apply dict_get_set_eq.
      * apply IHin. exact Hin.
    + intros feat Hout. apply not_elem_of_cons in Hout as [Hne Hout].
      rewrite IHout by exact Hout. apply dict_get_set_ne. congruence.
Qed.

(** C2.  In the table of ratios that the loop of [run_isomaps] builds,
    the entry of feature [feat], sample [i] and parameter [p] is
    [exp(mean(log(cmap[p, nb]))) / cmap[p, i]], where [nb] is row [i] of the
    neighbour indices returned by [kneighbors] of the model fitted on
    [X[feat]]; for positive parameter values and at least one neighbour,
    this is the geometric mean of the neighbours' values divided by the
    sample's own value. *)
Theorem recovery_ratio_is_geometric_mean (L : libs) (X : list (string * mat))
    (cmap : mat) (out_dir : string) (n_neighbors : nat)
    (ratios : list (string * list (list npfloat))) (w w' : world)
    (feat : string) :
  NoDup X.*1 ->
  run_isomaps_loop L X cmap out_dir n_neighbors w = (Ok ratios, w') ->
  feat ∈ X.*1 ->
  exists table Y model dist ind ratio,
    dict_get X feat = Ok table
    /\ Isomap_fit_transform L 3 n_neighbors table = Ok (Y, model)
    /\ nbrs_kneighbors L model = Ok (dist, ind)
    /\ dict_get ratios feat = Ok ratio
    /\ length ratio = length table
    /\ forall i p row,
         (i < length table)%nat -> cmap !! p = Some row ->
         exists nb vals own r,
           ind !! i = Some nb
           /\ Forall2 (fun j v => row !! j = Some v) nb vals
           /\ row !! i = Some own
           /\ ratio !! i = Some r
           /\ length r = length cmap
           /\ r !! p = Some (np_div
                               (np_exp (np_mean ((fun v => np_log (Fin v)) <$> vals)))
                               (Fin own))
           /\ (nb <> [] -> Forall (fun v => 0 < v) vals -> 0 < own ->
               r !! p = Some (Fin (geometric_mean vals / own))).
Proof.
  intros Hnodup Hrun Hfeat. unfold run_isomaps_loop in Hrun.
  destruct (run_isomaps_loop_invariant L X cmap out_dir n_neighbors _ Hnodup
              _ _ _ _ Hrun) as [Hin _].
  destruct (Hin feat Hfeat)
    as (ratio & ind & table & Hget & Y & model & dist & Htable & Hfit & Hknn & Hratio).
  exists table, Y, model, dist, ind, ratio.
  do 4 (split; [assumption|]).
  apply compute_ratios_Ok in Hratio as [Hlen Hrows].
  split; [exact Hlen|].
  intros i p row Hi Hp.
  destruct (Hrows i Hi) as (r & Hr & Hrow).
  apply ratio_row_Ok in Hrow as (nb & Hnb & Hrlen & Hentries).
  destruct (Hentries p row Hp) as (vals & own & Hvals & Hown & Hrp).
  exists nb, vals, own, r.
  do 6 (split; [assumption|]).
  intros Hne Hpos Hown_pos. rewrite Hrp. f_equal.
  rewrite exp_mean_log_pos; [apply np_div_pos; exact Hown_pos | | exact Hpos].
  intros ->. apply Forall2_nil_inv_r in Hvals. contradiction.
Qed.

Lemma recovery_ratio_example_run :
  exists ratios w',
    run_isomaps_loop constant_libs [("MFCC", [[0]; [0]])] [[1; 2]; [3; 4]; [5; 6]]
      "/out" 1 (initial_world "/home") = (Ok ratios, w').
Proof. eexists. eexists. reflexivity. Qed.

Lemma recovery_ratio_is_geometric_mean_witness :
  exists ratios w' ratio r,
    run_isomaps_loop constant_libs [("MFCC", [[0]; [0]])] [[1; 2]; [3; 4]; [5; 6]]
      "/out" 1 (initial_world "/home") = (Ok ratios, w')
    /\ dict_get ratios "MFCC" = Ok ratio
    /\ ratio !! 1%nat = Some r
    /\ r !! 0%nat = Some (Fin (geometric_mean [1] / 2)).
Proof.
  destruct recovery_ratio_example_run as (ratios & w' & Hrun).
  destruct (recovery_ratio_is_geometric_mean constant_libs
              [("MFCC", [[0]; [0]])] [[1; 2]; [3; 4]; [5; 6]] "/out" 1
              ratios (initial_world "/home") w' "MFCC")
    as (table & Y & model & dist & ind & ratio
        & Htable & Hfit & Hknn & Hget & Hlen & Hentries).
  - apply NoDup_singleton.
  - exact Hrun.
  - apply list_elem_of_here.
  - assert (Ht : table = [[0]; [0]]).
    { assert (E : Ok table = Ok [[0]; [0]]) by (rewrite <- Htable; reflexivity).
      congruence. }
    subst table.
    assert (Hm : model = [[0%nat]; [0%nat]]).
    { assert (E : Ok (Y, model)
                  = Ok ((fun _ => [0; 0; 0]) <$> [[0]; [0]],
                        (fun _ : vec => [0%nat]) <$> [[0]; [0]]))
        by (rewrite <- Hfit; reflexivity).
      injection E as _ ->. reflexivity. }
    subst model.
    assert (Hi : ind = [[0%nat]; [0%nat]]).
    { assert (E : Ok (dist, ind) = Ok ([], [[0%nat]; [0%nat]]))
        by (rewrite <- Hknn; reflexivity).
      injection E as _ ->. reflexivity. }
    subst ind.
    destruct (Hentries 1%nat 0%nat [1; 2])
      as (nb & vals & own & r & Hnb & Hvals & Hown & Hr & _ & _ & Hgeo).
    + simpl. lia.
    + reflexivity.
    + injection Hnb as <-. injection Hown as <-.
      apply Forall2_cons_inv_l in Hvals as (v & vals' & Hv & Hvals & ->).
      apply Forall2_nil_inv_l in Hvals as ->.
      injection Hv as <-.
      exists ratios, w', ratio, r.
      split; [exact Hrun|]. split; [exact Hget|]. split; [exact Hr|].
      apply Hgeo.
      * discriminate.
      * repeat constructor. lra.
      * lra.
Defined.

(** ** The range of the ratios *)

Lemma np_log2_pos (r : R) : 0 < r -> np_log2 (Fin r) = Fin (ln r / ln 2).
Proof.
  intros Hr. unfold np_log2.
  destruct (Rlt_dec 0 r) as [_|Hn]; [reflexivity|contradiction].
Qed.

Lemma grid_points_elem (f0s fms gammas : vec) (p : R * R * R) :
  p ∈ grid_points f0s fms gammas ->
  p.1.1 ∈ f0s /\ p.1.2 ∈ fms /\ p.2 ∈ gammas.
Proof.
  unfold grid_points. intros H.
  apply list_elem_of_bind in H as (f0 & H & Hf0).
  apply list_elem_of_bind in H as (fm & H & Hfm).
  apply list_elem_of_fmap in H as (gamma & -> & Hg).
  simpl. auto.
Qed.

Lemma logspace_pos (start stop : R) (num : nat) :
  Forall (fun v => 0 < v) (np.logspace start stop num).
Proof.
  unfold np.logspace. apply Forall_fmap, Forall_forall. intros y _. simpl.
  unfold Rpower. apply exp_pos.
Qed.

Lemma positive_nonzero (x : vec) :
  Forall (fun v => 0 < v) x -> Forall (fun v => v <> 0) x.
Proof. intros H. eapply Forall_impl; [exact H|]. intros v Hv. simpl in Hv. lra. Qed.

Lemma sum_ln_range (lo hi : R) (vals : vec) :
  0 < lo ->
  Forall (fun v => lo <= v <= hi) vals ->
  INR (length vals) * ln lo <= np.sum (ln <$> vals) <= INR (length vals) * ln hi.
Proof.
  intros Hlo. induction 1 as [|v vals [Hv1 Hv2] _ IH].
  - simpl. unfold np.sum. simpl. lra.
  - rewrite fmap_cons, length_cons, S_INR.
    change (np.sum (ln v :: (ln <$> vals))) with (ln v + np.sum (ln <$> vals)).
    assert (ln lo <= ln v).
    { destruct (Req_dec lo v) as [->|Hne]; [lra|]. left. apply ln_increasing; lra. }
    assert (ln v <= ln hi).
    { destruct (Req_dec v hi) as [->|Hne]; [lra|]. left. apply ln_increasing; lra. }
    lra.
Qed.

Lemma geometric_mean_range (lo hi : R) (vals : vec) :
  0 < lo -> vals <> [] ->
  Forall (fun v => lo <= v <= hi) vals ->
  lo <= geometric_mean vals <= hi.
Proof.
  intros Hlo Hne Hall.
  assert (Hpos : Forall (fun v => 0 < v) vals).
  { eapply Forall_impl; [exact Hall|]. intros v Hv. simpl in Hv. lra. }
  assert (Hhi : 0 < hi).
  { destruct vals as [|v vals]; [contradiction|].
    apply Forall_cons in Hall as [Hv _]. lra. }
  pose proof (sum_ln_range lo hi vals Hlo Hall) as [H1 H2].
  rewrite sum_ln_prod in H1, H2 by exact Hpos.
  assert (Hn : 0 < INR (length vals)).
  { apply lt_0_INR. destruct vals; [contradiction | simpl; lia]. }
  unfold geometric_mean, Rpower.
  assert (E1 : ln lo <= / INR (length vals) * ln (np_prod vals)).
  { apply (Rmult_le_reg_l (INR (length vals))); [exact Hn|].
    rewrite <- Rmult_assoc, Rinv_r, Rmult_1_l by lra. exact H1. }
  assert (E2 : / INR (length vals) * ln (np_prod vals) <= ln hi).
  { apply (Rmult_le_reg_l (INR (length vals))); [exact Hn|].
    rewrite <- Rmult_assoc, Rinv_r, Rmult_1_l by lra. exact H2. }
  pose proof (exp_ln lo Hlo) as Xlo. pose proof (exp_ln hi Hhi) as Xhi.
  split.
  - rewrite <- Xlo at 1.
    destruct E1 as [E1|E1]; [left; apply exp_increasing; exact E1 | rewrite E1; lra].
  - rewrite <- Xhi.
    destruct E2 as [E2|E2]; [left; apply exp_increasing; exact E2 | rewrite E2; lra].
Qed.

Lemma parameter_range_pos (v : R) : parameter_range v -> 0 < v.
Proof.
  intros [H _]. eapply Rlt_le_trans; [|exact H].
  apply Rinv_0_lt_compat, pow_lt. lra.
Qed.

Lemma Forall2_lookup_Forall (P : R -> Prop) (row : vec) (nb : list nat) (vals : vec) :
  Forall P row ->
  Forall2 (fun j v => row !! j = Some v) nb vals ->
  Forall P vals.
Proof.
  intros Hrow. induction 1 as [|j v nb vals Hj _ IH]; constructor; [|exact IH].
  apply (proj1 (Forall_lookup _ _) Hrow j v Hj).
Qed.

Lemma ratio_in_range (g own : R) :
  parameter_range g -> parameter_range own ->
  / 2 ^ 1000 <= g / own <= 2 ^ 1000.
Proof.
  intros [Hg1 Hg2] Hown. pose proof (parameter_range_pos own Hown) as Hpos.
  destruct Hown as [Ho1 Ho2].
  assert (Hp : 0 < 2 ^ 500) by (apply pow_lt; lra).
  assert (Hi : 0 < / 2 ^ 500) by (apply Rinv_0_lt_compat; exact Hp).
  replace (2 ^ 1000) with (2 ^ 500 * 2 ^ 500) by (rewrite <- pow_add; reflexivity).
  rewrite Rinv_mult.
  assert (Hio1 : / own <= 2 ^ 500).
  { rewrite <- (Rinv_inv (2 ^ 500)). apply Rinv_le_contravar; assumption. }
  assert (Hio2 : / 2 ^ 500 <= / own).
  { apply Rinv_le_contravar; assumption. }
  assert (Hio : 0 < / own) by (apply Rinv_0_lt_compat; exact Hpos).
  unfold Rdiv. split.
  - apply Rmult_le_compat; lra.
  - apply Rmult_le_compat; lra.
Qed.

Lemma log2_in_range (r : R) :
  / 2 ^ 1000 <= r <= 2 ^ 1000 -> -1000 <= ln r / ln 2 <= 1000.
Proof.
  intros [H1 H2].
  assert (Hp : 0 < 2 ^ 1000) by (apply pow_lt; lra).
  assert (Hr : 0 < r).
  { eapply Rlt_le_trans; [|exact H1]. apply Rinv_0_lt_compat. exact Hp. }
  assert (Hl2 : 0 < ln 2) by (rewrite <- ln_1; apply ln_increasing; lra).
  assert (E : ln (2 ^ 1000) = 1000 * ln 2).
  { rewrite ln_pow by lra. rewrite INR_IZR_INZ. reflexivity. }
  assert (Hhi : ln r <= 1000 * ln 2).
  { rewrite <- E. destruct H2 as [H2 | ->]; [left; apply ln_increasing; assumption | lra]. }
  assert (Hlo : - (1000 * ln 2) <= ln r).
  { rewrite <- E, <- ln_Rinv by exact Hp.
    destruct H1 as [H1 | <-]; [left; apply ln_increasing;
      [apply Rinv_0_lt_compat; exact Hp | exact H1] | lra]. }
  split.
  - apply (Rmult_le_reg_r (ln 2)); [exact Hl2|].
    unfold Rdiv. rewrite Rmult_assoc, Rinv_l by lra. lra.
  - apply (Rmult_le_reg_r (ln 2)); [exact Hl2|].
    unfold Rdiv. rewrite Rmult_assoc, Rinv_l by lra. lra.
Qed.

Lemma compute_ratios_range (cmap : mat) (ind : list (list nat)) (n : nat)
    (ratio : list (list npfloat)) :
  Forall (Forall parameter_range) cmap ->
  Forall (fun nb => nb <> []) ind ->
  compute_ratios cmap ind n = Ok ratio ->
  Forall (Forall (fun q => exists r, q = Fin r /\ / 2 ^ 1000 <= r <= 2 ^ 1000
                                     /\ 0 < r
                                     /\ np_log2 q = Fin (ln r / ln 2))) ratio.
Proof.
  intros Hrange Hnb Hratio.
  apply compute_ratios_Ok in Hratio as [Hlen Hrows].
  apply Forall_lookup. intros i r Hr.
  destruct (Hrows i) as (r' & Hr' & Hrow).
  { rewrite <- Hlen. eapply lookup_lt_Some. exact Hr. }
  assert (r' = r) by congruence. subst r'.
  apply ratio_row_Ok in Hrow as (nb & Hi & Hrlen & Hentries).
  apply Forall_lookup. intros p q Hq.
  assert (Hp : (p < length cmap)%nat)
    by (rewrite <- Hrlen; eapply lookup_lt_Some; exact Hq).
  apply lookup_lt_is_Some in Hp as [row Hrowp].
  destruct (Hentries p row Hrowp) as (vals & own & Hvals & Hown & Hrp).
  pose proof (proj1 (Forall_lookup _ _) Hrange p row Hrowp) as Hrow_range.
  pose proof (proj1 (Forall_lookup _ _) Hrow_range i own Hown) as Hown_range.
  pose proof (Forall2_lookup_Forall _ row nb vals Hrow_range Hvals) as Hvals_range.
  pose proof (proj1 (Forall_lookup _ _) Hnb i nb Hi) as Hne.
  assert (Hvals_ne : vals <> []).
  { intros ->. apply Forall2_nil_inv_r in Hvals. contradiction. }
  rewrite exp_mean_log_pos in Hrp; [| exact Hvals_ne |
    eapply Forall_impl; [exact Hvals_range | apply parameter_range_pos]].
  rewrite np_div_pos in Hrp by (apply parameter_range_pos; exact Hown_range).
  assert (q = Fin (geometric_mean vals / own)) by congruence. subst q.
  assert (Hg : parameter_range (geometric_mean vals)).
  { apply geometric_mean_range; [| exact Hvals_ne | exact Hvals_range].
    apply Rinv_0_lt_compat, pow_lt. lra. }
  pose proof (ratio_in_range _ _ Hg Hown_range) as Hq_range.
  assert (Hq_pos : 0 < geometric_mean vals / own).
  { apply Rdiv_lt_0_compat; apply parameter_range_pos; assumption. }
  eexists. split; [reflexivity|]. split; [exact Hq_range|]. split; [exact Hq_pos|].
  apply np_log2_pos. exact Hq_pos.
Qed.

Lemma linspace_between (start stop : R) (num : nat) :
  Forall (fun y => Rmin start stop <= y <= Rmax start stop)
         (np.linspace start stop num).
Proof.
  pose proof (Rmin_l start stop). pose proof (Rmin_r start stop).
  pose proof (Rmax_l start stop). pose proof (Rmax_r start stop).
  unfold np.linspace. destruct num as [|[|div]].
  - constructor.
  - constructor; [lra | constructor].
  - apply Forall_forall. intros y Hy.
    apply list_elem_of_fmap in Hy as (i & -> & Hi).
    apply elem_of_seq in Hi as [_ Hi].
    destruct (decide (i = S div)) as [_|Hne]; [lra|].
    assert (Hd : 0 < INR (S div)) by (apply lt_0_INR; lia).
    assert (Hi0 : 0 <= INR i) by apply pos_INR.
    assert (Hi1 : INR i <= INR (S div)) by (apply le_INR; lia).
    set (d := INR (S div)) in *. set (x := INR i) in *.
    assert (Hl0 : 0 <= x / d).
    { unfold Rdiv. apply Rmult_le_pos; [exact Hi0|]. left. apply Rinv_0_lt_compat. exact Hd. }
    assert (Hl1 : x / d <= 1).
    { apply (Rmult_le_reg_r d); [exact Hd|]. unfold Rdiv.
      rewrite Rmult_assoc, Rinv_l by lra. lra. }
    replace (start + x * ((stop - start) / d))
      with (start + (x / d) * (stop - start)) by (field; lra).
    destruct (Rle_dec start stop) as [Hle|Hgt]; split; nra.
Qed.

Lemma logspace_range (a b : R) (num : nat) :
  parameter_range a -> parameter_range b ->
  Forall parameter_range (np.logspace (np.log10 a) (np.log10 b) num).
Proof.
  intros Ha Hb. unfold np.logspace. apply Forall_fmap.
  eapply Forall_impl; [apply linspace_between|]. intros y [Hy1 Hy2]. simpl.
  pose proof (parameter_range_pos a Ha) as Pa.
  pose proof (parameter_range_pos b Hb) as Pb.
  assert (Hlo : Rpower 10 (Rmin (np.log10 a) (np.log10 b)) <= Rpower 10 y)
    by (apply Rle_Rpower; [lra | exact Hy1]).
  assert (Hhi : Rpower 10 y <= Rpower 10 (Rmax (np.log10 a) (np.log10 b)))
    by (apply Rle_Rpower; [lra | exact Hy2]).
  destruct Ha as [Ha1 Ha2], Hb as [Hb1 Hb2]. unfold parameter_range.
  split.
  - eapply Rle_trans; [|exact Hlo].
    unfold Rmin. destruct (Rle_dec _ _); rewrite Rpower_10_log10; assumption.
  - eapply Rle_trans; [exact Hhi|].
    unfold Rmax. destruct (Rle_dec _ _); rewrite Rpower_10_log10; assumption.
Qed.

Lemma param_map_Forall (P : R -> Prop) (f0s fms gammas : vec) :
  Forall P f0s -> Forall P fms -> Forall P gammas ->
  Forall (Forall P) (param_map (grid_points f0s fms gammas) 0).
Proof.
  intros H0 H1 H2. unfold param_map.
  repeat constructor; rewrite app_nil_r; apply Forall_fmap, Forall_forall;
    intros p Hp; apply grid_points_elem in Hp as (Hp0 & Hp1 & Hp2); simpl.
  - apply (proj1 (Forall_forall _ _) H0 _ Hp0).
  - apply (proj1 (Forall_forall _ _) H1 _ Hp1).
  - apply (proj1 (Forall_forall _ _) H2 _ Hp2).
Qed.

(** The run of the loop on six samples with three neighbours. *)
Lemma six_sample_loop :
  exists ratios w',
    run_isomaps_loop ring_libs six_sample_families six_sample_map "/out" 3
      (initial_world "/home") = (Ok ratios, w').
Proof. eexists. eexists. vm_compute. reflexivity. Qed.

Lemma six_sample_map_range : Forall (Forall parameter_range) six_sample_map.
Proof.
  assert (H : 1024 <= 2 ^ 500).
  { replace (2 ^ 500) with (2 ^ 10 * 2 ^ 490) by (rewrite <- pow_add; reflexivity).
    assert (1 <= 2 ^ 490) by (apply pow_R1_Rle; lra).
    replace (2 ^ 10) with 1024 by (simpl; lra). nra. }
  assert (Hi : / 2 ^ 500 <= 1 / 2).
  { replace (1 / 2) with (/ 2) by lra. apply Rinv_le_contravar; lra. }
  unfold six_sample_map, parameter_range. repeat constructor; lra.
Qed.

Lemma ring_libs_kneighbors_nonempty (n_neighbors : nat) :
  (0 < n_neighbors)%nat -> kneighbors_nonempty ring_libs n_neighbors.
Proof.
  intros Hn table Y model dist ind Hfit Hk.
  assert (E : Ok (dist, ind)
              = Ok ((fun row : list nat => (fun _ : nat => 0) <$> row) <$> model,
                    model))
    by (rewrite <- Hk; reflexivity).
  injection E as _ ->.
  change (ring_isomap_fit 3 n_neighbors table = Ok (Y, model)) in Hfit.
  unfold ring_isomap_fit in Hfit.
  destruct (decide (length table <= n_neighbors)%nat); [discriminate|].
  injection Hfit as _ <-.
  apply Forall_fmap, Forall_forall. intros i _. simpl.
  destruct n_neighbors; [lia | discriminate].
Qed.

(** C9.  When every value of the parameter map lies between [2^-500] and
    [2^500] (and the neighbour query returns at least one neighbour per
    sample, as scikit-learn's does), every ratio in the tables built by
    the loop of [run_isomaps] is a strictly positive real number between
    [2^-1000] and [2^1000], and its [log2] is finite, between -1000 and
    1000; the parameter map that [generate_audio] builds from the
    log-spaced grids of [run_isomap], for bounds of the three ranges
    between [2^-500] and [2^500], has all its values in that range. *)
Theorem recovery_ratios_positive (L : libs) (X : list (string * mat))
    (cmap : mat) (out_dir : string) (n_neighbors : nat)
    (ratios : list (string * list (list npfloat))) (w w' : world)
    (feat : string) :
  Forall (Forall parameter_range) cmap ->
  kneighbors_nonempty L n_neighbors ->
  NoDup X.*1 ->
  run_isomaps_loop L X cmap out_dir n_neighbors w = (Ok ratios, w') ->
  feat ∈ X.*1 ->
  (exists ratio,
     dict_get ratios feat = Ok ratio
     /\ Forall (Forall (fun q =>
          exists r, q = Fin r /\ 0 < r /\ / 2 ^ 1000 <= r <= 2 ^ 1000
                    /\ np_log2 q = Fin (ln r / ln 2)
                    /\ -1000 <= ln r / ln 2 <= 1000)) ratio)
  /\ (forall n_steps f0_min f0_max fm_min fm_max gamma_min gamma_max
             duration sr,
        parameter_range f0_min -> parameter_range f0_max ->
        parameter_range fm_min -> parameter_range fm_max ->
        parameter_range gamma_min -> parameter_range gamma_max ->
        sr <> 0%nat -> time_axis_len duration sr = (duration * sr)%nat ->
        exists audio cmap',
          generate_audio
            (np.logspace (np.log10 f0_min) (np.log10 f0_max) n_steps)
            (np.logspace (np.log10 fm_min) (np.log10 fm_max) n_steps)
            (np.logspace (np.log10 gamma_min) (np.log10 gamma_max) n_steps)
            duration sr = Ok (audio, cmap')
          /\ Forall (Forall parameter_range) cmap').
Proof.
  intros Hrange Hknn Hnodup Hrun Hfeat. split.
  - unfold run_isomaps_loop in Hrun.
    destruct (run_isomaps_loop_invariant L X cmap out_dir n_neighbors _ Hnodup
                _ _ _ _ Hrun) as [Hin _].
    destruct (Hin feat Hfeat)
      as (ratio & ind & table & Hget & Y & model & dist & _ & Hfit & Hk & Hratio).
    exists ratio. split; [exact Hget|].
    specialize (Hknn table Y model dist ind Hfit Hk).
    pose proof (compute_ratios_range cmap ind _ ratio Hrange Hknn Hratio) as Hall.
    eapply Forall_impl; [exact Hall|]. intros r Hr. simpl.
    eapply Forall_impl; [exact Hr|]. intros q (x & -> & Hx & Hpos & Hlog). simpl.
    exists x. split; [reflexivity|]. split; [exact Hpos|]. split; [exact Hx|].
    split; [exact Hlog|]. apply log2_in_range. exact Hx.
  - intros n_steps f0_min f0_max fm_min fm_max gamma_min gamma_max
           duration sr H1 H2 H3 H4 H5 H6 Hsr Ht.
    eexists. eexists. split.
    + apply generate_audio_Ok; [exact Hsr | exact Ht |].
      apply positive_nonzero, logspace_pos.
    + apply param_map_Forall; apply logspace_range; assumption.
Qed.

Lemma recovery_ratios_positive_witness :
  exists ratios w' ratio,
    run_isomaps_loop ring_libs six_sample_families six_sample_map "/out" 3
      (initial_world "/home") = (Ok ratios, w')
    /\ dict_get ratios "STRF" = Ok ratio
    /\ Forall (Forall (fun q =>
          exists r, q = Fin r /\ 0 < r /\ / 2 ^ 1000 <= r <= 2 ^ 1000
                    /\ np_log2 q = Fin (ln r / ln 2)
                    /\ -1000 <= ln r / ln 2 <= 1000)) ratio.
Proof.
  destruct six_sample_loop as (ratios & w' & Hrun).
  destruct (recovery_ratios_positive ring_libs six_sample_families
              six_sample_map "/out" 3 ratios (initial_world "/home") w' "STRF")
    as [(ratio & Hget & Hall) _].
  - exact six_sample_map_range.
  - apply ring_libs_kneighbors_nonempty. lia.
  - vm_compute. repeat constructor; set_solver.
  - exact Hrun.
  - vm_compute. set_solver.
  - exists ratios, w', ratio.
    split; [exact Hrun|]. split; [exact Hget | exact Hall].
Defined.

(** C9, as it stands, fails on float64: the parameter map
    [tiny_parameter_map] is strictly positive, the neighbour values of its
    first sample are all [1.0], so that their geometric mean is exactly
    [1.0], and the first ratio of the sample is [1.0 / 2^-1030], which
    overflows to [+inf]; its [log2] is [+inf]. *)
Lemma tiny_parameter_ratio_is_infinite :
  f64.all_positive f64.tiny_parameter_map = true
  /\ f64.ratio_row f64.tiny_parameter_map f64.tiny_parameter_neighbours 0
     = Some [PrimFloat.infinity; PrimFloat.one; PrimFloat.one]
  /\ (f64.ratio_row f64.tiny_parameter_map f64.tiny_parameter_neighbours 0
      ≫= mapM f64.libm_log2)
     = Some [PrimFloat.infinity; PrimFloat.zero; PrimFloat.zero].
Proof. vm_compute. repeat split; reflexivity. Qed.

(** ** Files and directories *)

Lemma os_makedirs_exist_ok (p : string) (w : world) :
  (os_makedirs p true w).1 = Ok ()
  /\ fs_files (os_makedirs p true w).2 = fs_files w
  /\ fs_dirs w ⊆ fs_dirs (os_makedirs p true w).2
  /\ p ∈ fs_dirs (os_makedirs p true w).2.
Proof.
  unfold os_makedirs. destruct (decide (p ∈ fs_dirs w)) as [Hin|Hout]; simpl.
  - repeat split; [set_solver | exact Hin].
  - repeat split; set_solver.
Qed.

Lemma run_isomaps_loop_files (L : libs) (X : list (string * mat)) (cmap : mat)
    (out_dir : string) (n_neighbors : nat) (keys : list string) :
  forall (acc ratios : list (string * list (list npfloat))) (w w' : world),
  for_each_M keys (run_isomaps_feat L X cmap out_dir n_neighbors) acc w
  = (Ok ratios, w') ->
  fs_files w'
  = fs_files w
    ∪ list_to_set ((fun feat => path_join (path_join out_dir feat) "isomap.png")
                   <$> keys)
  /\ fs_dirs w ⊆ fs_dirs w'
  /\ forall feat, feat ∈ keys -> path_join out_dir feat ∈ fs_dirs w'.
Proof.
  induction keys as [|key keys IH]; intros acc ratios w w' H.
  - simpl in H. injection H as _ <-. simpl.
    split; [set_solver|]. split; [set_solver|]. intros feat Hin. inversion Hin.
  - simpl in H. apply M_bind_Ok in H as (acc1 & w1 & Hbody & H).
    apply run_isomaps_feat_Ok in Hbody as (ratio & ind & table & _ & _ & Hw1).
    destruct (IH _ _ _ _ H) as (Hfiles & Hdirs & Hfeat).
    destruct (os_makedirs_exist_ok (path_join out_dir key) w)
      as (_ & Hmf & Hmd & Hmk).
    assert (Hf1 : fs_files w1
                  = fs_files w
                    ∪ {[ path_join (path_join out_dir key) "isomap.png" ]})
      by (rewrite Hw1; simpl; rewrite Hmf; reflexivity).
    assert (Hd1 : fs_dirs w1 = fs_dirs (os_makedirs (path_join out_dir key) true w).2)
      by (rewrite Hw1; reflexivity).
    split; [|split].
    + rewrite Hfiles, Hf1, fmap_cons. simpl. set_solver.
    + rewrite Hd1 in Hdirs. set_solver.
    + intros feat Hin. apply elem_of_cons in Hin as [->|Hin].
      * apply Hdirs. rewrite Hd1. exact Hmk.
      * apply Hfeat. exact Hin.
Qed.

Lemma plot_knn_regression_Ok (L : libs)
    (ratios : list (string * list (list npfloat))) (out_dir : string)
    (w w' : world) (u : unit) :
  plot_knn_regression L ratios out_dir w = (Ok u, w') ->
  ratios <> []
  /\ w' = add_event (EvSavefig (path_join out_dir "knn.png"))
            (add_file (path_join out_dir "knn.png") w).
Proof.
  unfold plot_knn_regression. intros H.
  apply M_bind_Ok in H as (first & w1 & Hfirst & H).
  apply lift_Ok in Hfirst as [Hfirst ->].
  apply M_bind_Ok in H as (col0 & w2 & Hcol & H).
  apply lift_Ok in Hcol as [_ ->].
  apply M_bind_Ok in H as (u' & w3 & Hloop & H).
  apply lift_Ok in Hloop as [_ ->].
  split.
  - intros ->. discriminate.
  - unfold plt_savefig in H. injection H; intros; subst; reflexivity.
Qed.

(** The images and directories of a run of [run_isomaps] that returns. *)
Lemma run_isomaps_images (L : libs) (X : list (string * mat)) (cmap : mat)
    (out_dir : string) (n_neighbors : nat) (w w' : world) (u : unit) :
  run_isomaps L X cmap out_dir n_neighbors w = (Ok u, w') ->
  fs_files w'
  = fs_files w
    ∪ list_to_set ((fun feat => path_join (path_join out_dir feat) "isomap.png")
                   <$> X.*1)
    ∪ {[ path_join out_dir "knn.png" ]}
  /\ fs_dirs w ⊆ fs_dirs w'
  /\ forall feat, feat ∈ X.*1 -> path_join out_dir feat ∈ fs_dirs w'.
Proof.
  unfold run_isomaps, run_isomaps_loop. intros H.
  apply M_bind_Ok in H as (ratios & w1 & Hloop & H).
  apply run_isomaps_loop_files in Hloop as (Hfiles & Hdirs & Hfeat).
  apply plot_knn_regression_Ok in H as [_ ->]. simpl.
  rewrite Hfiles. split; [reflexivity|]. split; assumption.
Qed.

(** ** Path strings *)

Lemma append_cons (x : ascii) (a b : string) :
  String x a +:+ b = String x (a +:+ b).
Proof. reflexivity. Qed.

Lemma append_nil_l (a : string) : "" +:+ a = a.
Proof. reflexivity. Qed.

Ltac string_simpl := rewrite ?append_cons, ?append_nil_l.
Ltac string_simpl_in H := rewrite ?append_cons, ?append_nil_l in H.

Lemma append_assoc (a b c : string) : (a +:+ b) +:+ c = a +:+ (b +:+ c).
Proof.
  induction a as [|x a IH]; string_simpl; [reflexivity|].
  rewrite IH. reflexivity.
Qed.

Lemma append_empty_r (a : string) : a +:+ "" = a.
Proof.
  induction a as [|x a IH]; string_simpl; [reflexivity|].
  rewrite IH. reflexivity.
Qed.

Lemma ends_with_sep_append (a b : string) :
  b <> "" -> ends_with_sep (a +:+ b) = ends_with_sep b.
Proof.
  intros Hb. induction a as [|x a IH]; [reflexivity|].
  string_simpl. simpl. rewrite IH. destruct (a +:+ b) eqn:E; [|reflexivity].
  destruct a; string_simpl_in E; [contradiction | discriminate].
Qed.

Lemma append_nonempty (a b : string) : b <> "" -> a +:+ b <> "".
Proof. intros Hb. destruct a; string_simpl; [exact Hb | discriminate]. Qed.

(** Joining a relative name onto a directory that does not end in a
    separator puts one separator between them. *)
Lemma path_join_relative (a b : string) :
  starts_with_sep b = false -> a <> "" -> ends_with_sep a = false ->
  path_join a b = a +:+ "/" +:+ b.
Proof.
  intros Hb Ha He. unfold path_join. rewrite Hb, He.
  rewrite bool_decide_eq_false_2 by exact Ha. reflexivity.
Qed.

Lemma isomap_png_path (out_dir feat : string) :
  out_dir <> "" -> ends_with_sep out_dir = false ->
  feat <> "" -> starts_with_sep feat = false -> ends_with_sep feat = false ->
  path_join (path_join out_dir feat) "isomap.png"
  = out_dir +:+ "/" +:+ feat +:+ "/isomap.png".
Proof.
  intros Ho He Hf Hs Hfe.
  rewrite (path_join_relative out_dir feat) by assumption.
  rewrite path_join_relative.
  - rewrite !append_assoc. string_simpl. reflexivity.
  - reflexivity.
  - apply append_nonempty, append_nonempty. exact Hf.
  - rewrite !ends_with_sep_append; [exact Hfe | exact Hf |].
    apply append_nonempty. exact Hf.
Qed.

(** C6, as the code has it.  A run of [run_isomaps] that returns has
    written one [isomap.png] per feature family, each inside the
    subdirectory created for that family, and one [knn.png] in the output
    directory, and nothing else; with the five families of [run_isomap]
    these are six images, none of which is [<out_dir>/isomap.png]. *)
Theorem run_isomaps_writes_one_scatter_per_family (L : libs)
    (X : list (string * mat)) (cmap : mat) (out_dir : string)
    (n_neighbors : nat) (w w' : world) :
  run_isomaps L X cmap out_dir n_neighbors w = (Ok (), w') ->
  fs_files w'
  = fs_files w
    ∪ list_to_set ((fun feat => path_join (path_join out_dir feat) "isomap.png")
                   <$> X.*1)
    ∪ {[ path_join out_dir "knn.png" ]}
  /\ (forall feat, feat ∈ X.*1 -> path_join out_dir feat ∈ fs_dirs w')
  /\ (X.*1 = ["MFCC"; "TS"; "JTFS"; "OPEN-L3"; "STRF"] ->
      out_dir <> "" -> ends_with_sep out_dir = false ->
      fs_files w'
      = fs_files w
        ∪ {[ out_dir +:+ "/MFCC/isomap.png"; out_dir +:+ "/TS/isomap.png";
             out_dir +:+ "/JTFS/isomap.png"; out_dir +:+ "/OPEN-L3/isomap.png";
             out_dir +:+ "/STRF/isomap.png"; out_dir +:+ "/knn.png" ]}
      /\ (out_dir +:+ "/isomap.png" ∈ fs_files w' ->
          out_dir +:+ "/isomap.png" ∈ fs_files w)).
Proof.
  intros Hrun. apply run_isomaps_images in Hrun as (Hfiles & _ & Hdirs).
  split; [exact Hfiles|]. split; [exact Hdirs|].
  intros HX Ho He. rewrite HX in Hfiles. simpl in Hfiles.
  rewrite !isomap_png_path in Hfiles by (try assumption; try discriminate; reflexivity).
  rewrite path_join_relative in Hfiles by (try assumption; reflexivity).
  string_simpl_in Hfiles.
  split; [rewrite Hfiles; set_solver|].
  rewrite Hfiles. rewrite !elem_of_union, !elem_of_singleton.
  intros [[H|H]|H]; [exact H | |];
    repeat match goal with
           | H : _ ∈ ∅ |- _ => inversion H
           | H : _ ∨ _ |- _ => destruct H as [H|H]
           | H : out_dir +:+ _ = out_dir +:+ _ |- _ =>
               apply (inj (String.app out_dir)) in H; discriminate
           end.
Qed.

Lemma elem_of_files_true (p : string) (files : gset string) :
  p ∈ files <-> bool_decide (p ∈ files) = true.
Proof. symmetry. apply bool_decide_eq_true. Qed.

Lemma five_families_run :
  exists w',
    run_isomaps constant_libs five_families one_sample_map "/out" 40
      (initial_world "/home") = (Ok (), w').
Proof. eexists. vm_compute. reflexivity. Qed.

Lemma six_sample_run :
  exists w',
    run_isomaps ring_libs six_sample_families six_sample_map "/out" 3
      (initial_world "/home") = (Ok (), w').
Proof. eexists. vm_compute. reflexivity. Qed.

(** Against C6 as stated: with five feature tables of six samples and
    three neighbours, the run writes six images, and [<out_dir>/isomap.png]
    is not one of them. *)
Lemma run_isomaps_writes_six_images :
  exists w',
    run_isomaps ring_libs six_sample_families six_sample_map "/out" 3
      (initial_world "/home") = (Ok (), w')
    /\ fs_files w'
       = list_to_set
           ["/out/MFCC/isomap.png"; "/out/TS/isomap.png"; "/out/JTFS/isomap.png";
            "/out/OPEN-L3/isomap.png"; "/out/STRF/isomap.png"; "/out/knn.png"]
    /\ size (fs_files w') = 6%nat
    /\ ("/out/isomap.png" ∉ fs_files w')
    /\ (fs_files w' <> list_to_set ["/out/isomap.png"; "/out/knn.png"]).
Proof.
  destruct six_sample_run as (w' & Hrun). exists w'.
  split; [exact Hrun|].
  apply run_isomaps_images in Hrun as (Hfiles & _ & _).
  assert (E : fs_files w'
              = list_to_set
                  ["/out/MFCC/isomap.png"; "/out/TS/isomap.png";
                   "/out/JTFS/isomap.png"; "/out/OPEN-L3/isomap.png";
                   "/out/STRF/isomap.png"; "/out/knn.png"]).
  { rewrite Hfiles. vm_compute. reflexivity. }
  split; [exact E|]. rewrite E.
  split; [vm_compute; reflexivity|].
  split.
  - intros Hin. apply elem_of_files_true in Hin. vm_compute in Hin. discriminate.
  - intros Heq.
    assert (Hin : "/out/MFCC/isomap.png"
                  ∈ (list_to_set ["/out/isomap.png"; "/out/knn.png"] : gset string)).
    { rewrite <- Heq. apply elem_of_files_true. vm_compute. reflexivity. }
    apply elem_of_files_true in Hin. vm_compute in Hin. discriminate.
Qed.

Lemma run_isomaps_writes_one_scatter_per_family_witness :
  exists w',
    run_isomaps ring_libs six_sample_families six_sample_map "/out" 3
      (initial_world "/home") = (Ok (), w')
    /\ fs_files w'
       = fs_files (initial_world "/home")
         ∪ {[ "/out" +:+ "/MFCC/isomap.png"; "/out" +:+ "/TS/isomap.png";
              "/out" +:+ "/JTFS/isomap.png"; "/out" +:+ "/OPEN-L3/isomap.png";
              "/out" +:+ "/STRF/isomap.png"; "/out" +:+ "/knn.png" ]}
    /\ (forall feat, feat ∈ six_sample_families.*1 -> path_join "/out" feat ∈ fs_dirs w').
Proof.
  destruct six_sample_run as (w' & Hrun). exists w'.
  destruct (run_isomaps_writes_one_scatter_per_family ring_libs six_sample_families
              six_sample_map "/out" 3 (initial_world "/home") w' Hrun)
    as (_ & Hdirs & Hsix).
  split; [exact Hrun|]. split; [|exact Hdirs].
  apply Hsix; [reflexivity | discriminate | reflexivity].
Defined.

(** ** Runs only add to the world *)

Lemma extends_refl (w : world) : extends w w.
Proof. unfold extends. repeat split; reflexivity. Qed.

Lemma extends_trans (w1 w2 w3 : world) :
  extends w1 w2 -> extends w2 w3 -> extends w1 w3.
Proof.
  unfold extends. intros (A1 & A2 & A3 & A4 & A5 & A6) (B1 & B2 & B3 & B4 & B5 & B6).
  repeat split; try congruence; try (etransitivity; eassumption).
Qed.

Lemma monotone_ret {A : Type} (a : A) : monotone (mret a : M A).
Proof. intros w. apply extends_refl. Qed.

Lemma monotone_lift {A : Type} (o : outcome A) : monotone (lift o).
Proof. intros w. apply extends_refl. Qed.

Lemma monotone_bind {A B : Type} (m : M A) (f : A -> M B) :
  monotone m -> (forall a, monotone (f a)) -> monotone (m ≫= f).
Proof.
  intros Hm Hf w. specialize (Hm w). unfold mbind, M_bind.
  destruct (m w) as [[a|e] w1]; simpl in *; [|exact Hm].
  eapply extends_trans; [exact Hm | apply Hf].
Qed.

Lemma monotone_for_each_M {A S : Type} (xs : list A) (body : A -> S -> M S) :
  (forall x s, monotone (body x s)) -> forall s, monotone (for_each_M xs body s).
Proof.
  intros Hbody. induction xs as [|x xs IH]; intros s; simpl.
  - apply monotone_ret.
  - apply monotone_bind; [apply Hbody | exact IH].
Qed.

Lemma monotone_log_event (ev : event) : monotone (log_event ev).
Proof.
  intros w. unfold extends. simpl. repeat split; try reflexivity.
  apply prefix_app_r. reflexivity.
Qed.

Lemma monotone_os_getcwd : monotone os_getcwd.
Proof. intros w. apply extends_refl. Qed.

Lemma monotone_os_path_exists (p : string) : monotone (os_path_exists p).
Proof. intros w. apply extends_refl. Qed.

Lemma monotone_os_makedirs (p : string) (exist_ok : bool) :
  monotone (os_makedirs p exist_ok).
Proof.
  intros w. unfold os_makedirs. destruct (decide (p ∈ fs_dirs w)); simpl.
  - apply extends_refl.
  - unfold extends. simpl. repeat split; try reflexivity.
    + apply union_subseteq_l.
    + apply prefix_app_r. reflexivity.
Qed.

Lemma monotone_plt_savefig (p : string) : monotone (plt_savefig p).
Proof.
  intros w. unfold extends. simpl. repeat split; try reflexivity.
  - apply union_subseteq_l.
  - apply prefix_app_r. reflexivity.
Qed.

Lemma monotone_extract_openl3 (audio : mat) (sr : nat) :
  monotone (extract_openl3 audio sr).
Proof.
  intros w. unfold extract_openl3. destruct (openl3 w); apply extends_refl.
Qed.

Create HintDb mono discriminated.
#[export] Hint Resolve monotone_ret monotone_lift monotone_log_event
  monotone_os_getcwd monotone_os_path_exists monotone_os_makedirs
  monotone_plt_savefig monotone_extract_openl3 : mono.

Ltac mono := repeat first
  [ apply monotone_bind; [| intros ?]
  | apply monotone_for_each_M; intros ? ?
  | solve [auto with mono] ].

Lemma monotone_plot_isomap (L : libs) (Y cmap : mat) (out_dir : string) :
  monotone (plot_isomap L Y cmap out_dir).
Proof. unfold plot_isomap. mono. Qed.

Lemma monotone_plot_knn_regression (L : libs)
    (ratios : list (string * list (list npfloat))) (out_dir : string) :
  monotone (plot_knn_regression L ratios out_dir).
Proof. unfold plot_knn_regression. mono. Qed.

#[export] Hint Resolve monotone_plot_isomap monotone_plot_knn_regression : mono.

Lemma monotone_run_isomaps_feat (L : libs) (X : list (string * mat)) (cmap : mat)
    (out_dir : string) (n_neighbors : nat) (feat : string)
    (acc : list (string * list (list npfloat))) :
  monotone (run_isomaps_feat L X cmap out_dir n_neighbors feat acc).
Proof. unfold run_isomaps_feat, isomap_fit. mono. Qed.

#[export] Hint Resolve monotone_run_isomaps_feat : mono.

Lemma monotone_run_isomaps (L : libs) (X : list (string * mat)) (cmap : mat)
    (out_dir : string) (n_neighbors : nat) :
  monotone (run_isomaps L X cmap out_dir n_neighbors).
Proof. unfold run_isomaps, run_isomaps_loop. mono. Qed.

#[export] Hint Resolve monotone_run_isomaps : mono.

Lemma monotone_run_isomap_grid (L : libs) (n_steps : nat)
    (f0_min f0_max fm_min fm_max gamma_min gamma_max : R)
    (duration sr : nat) (out_dir : string) :
  monotone (run_isomap_grid L n_steps f0_min f0_max fm_min fm_max gamma_min
              gamma_max duration sr out_dir).
Proof. unfold run_isomap_grid. mono. Qed.

#[export] Hint Resolve monotone_run_isomap_grid : mono.

Lemma monotone_run_isomap (L : libs) (n_steps : nat)
    (f0_min f0_max fm_min fm_max gamma_min gamma_max bw : R)
    (duration sr : nat) (out_dir : string) :
  monotone (run_isomap L n_steps f0_min f0_max fm_min fm_max gamma_min gamma_max
              bw duration sr out_dir).
Proof.
  unfold run_isomap. mono.
  match goal with |- monotone (if ?b then _ else _) => destruct b end;
    auto with mono.
Qed.

(** ** The neighbour count *)

Lemma M_bind_assoc {A B C : Type} (m : M A) (f : A -> M B) (g : B -> M C)
    (w : world) :
  ((m ≫= f) ≫= g) w = (m ≫= (fun a => f a ≫= g)) w.
Proof.
  unfold mbind, M_bind. destruct (m w) as [[a|e] w1]; reflexivity.
Qed.

Lemma M_bind_run {A B : Type} (m : M A) (f : A -> M B) (w w1 : world) (a : A) :
  m w = (Ok a, w1) -> (m ≫= f) w = f a w1.
Proof. intros H. unfold mbind, M_bind. rewrite H. reflexivity. Qed.

Lemma M_bind_raise {A B : Type} (m : M A) (f : A -> M B) (w w1 : world) (e : exn) :
  m w = (Raise e, w1) -> (m ≫= f) w = (Raise e, w1).
Proof. intros H. unfold mbind, M_bind. rewrite H. reflexivity. Qed.

Lemma os_makedirs_exist_ok_run (p : string) (w : world) :
  os_makedirs p true w = (Ok (), (os_makedirs p true w).2).
Proof. unfold os_makedirs. destruct (decide (p ∈ fs_dirs w)); reflexivity. Qed.

Lemma dict_get_head {V : Type} (key : string) (v : V) (d : list (string * V)) :
  dict_get ((key, v) :: d) key = Ok v.
Proof. unfold dict_get. simpl. rewrite decide_True by reflexivity. reflexivity. Qed.

Lemma M_bind_cong {A B : Type} (m m' : M A) (f : A -> M B) (w w1 : world) :
  m w = m' w1 -> (m ≫= f) w = (m' ≫= f) w1.
Proof. intros H. unfold mbind, M_bind. rewrite H. reflexivity. Qed.

Lemma run_isomaps_feat_head (L : libs) (feat : string) (table : mat)
    (rest : list (string * mat)) (cmap : mat) (out_dir : string)
    (n_neighbors : nat) (acc : list (string * list (list npfloat)))
    (w : world) :
  run_isomaps_feat L ((feat, table) :: rest) cmap out_dir n_neighbors feat acc w
  = (lift (Isomap_fit_transform L 3 n_neighbors table)
     ≫= after_fit L cmap out_dir feat acc table)
      (add_event (EvIsomapFit n_neighbors (length table))
         (os_makedirs (path_join out_dir feat) true w).2).
Proof.
  unfold run_isomaps_feat.
  rewrite (M_bind_run _ _ _ _ _ (os_makedirs_exist_ok_run _ w)).
  rewrite dict_get_head.
  rewrite (M_bind_run (lift (Ok table)) _ _ _ table eq_refl).
  unfold isomap_fit. rewrite M_bind_assoc.
  rewrite (M_bind_run (log_event _) _ _ _ () eq_refl).
  reflexivity.
Qed.

(** For the first feature family, [run_isomaps] creates the directory and
    calls [fit_transform] with the neighbour count it was given; an error
    of the library ends the run there, and otherwise the run goes on. *)
Lemma run_isomaps_reaches_fit (L : libs) (feat : string) (table : mat)
    (rest : list (string * mat)) (cmap : mat) (out_dir : string)
    (n_neighbors : nat) (w : world) :
  let w1 := add_event (EvIsomapFit n_neighbors (length table))
              (os_makedirs (path_join out_dir feat) true w).2 in
  (forall e,
     Isomap_fit_transform L 3 n_neighbors table = Raise e ->
     run_isomaps L ((feat, table) :: rest) cmap out_dir n_neighbors w
     = (Raise e, w1))
  /\ extends w1
       (run_isomaps L ((feat, table) :: rest) cmap out_dir n_neighbors w).2.
Proof.
  intros w1.
  assert (E : run_isomaps L ((feat, table) :: rest) cmap out_dir n_neighbors w
              = (((lift (Isomap_fit_transform L 3 n_neighbors table)
                   ≫= after_fit L cmap out_dir feat [] table)
                  ≫= for_each_M rest.*1
                       (run_isomaps_feat L ((feat, table) :: rest) cmap out_dir
                          n_neighbors))
                 ≫= (fun ratios => plot_knn_regression L ratios out_dir)) w1).
  { unfold run_isomaps, run_isomaps_loop.
    change (((feat, table) :: rest).*1) with (feat :: rest.*1).
    cbn [for_each_M]. apply M_bind_cong, M_bind_cong.
    apply run_isomaps_feat_head. }
  rewrite E. split.
  - intros e He. rewrite He.
    apply M_bind_raise, M_bind_raise, M_bind_raise. reflexivity.
  - assert (Hmono : monotone
              (((lift (Isomap_fit_transform L 3 n_neighbors table)
                 ≫= after_fit L cmap out_dir feat [] table)
                ≫= for_each_M rest.*1
                     (run_isomaps_feat L ((feat, table) :: rest) cmap out_dir
                        n_neighbors))
               ≫= (fun ratios => plot_knn_regression L ratios out_dir))).
    { unfold after_fit. mono. }
    apply Hmono.
Qed.

(** C8.  [run_isomaps] holds no check of its own: it hands the neighbour
    count, unchanged, to [Isomap(...).fit_transform], and it is
    scikit-learn that validates it.  For a scikit-learn that refuses, with
    a [ValueError], a neighbour count that reaches the number of samples
    (as the real one does), a run with [n_neighbors >= n_samples] ends with
    that error at the first feature family: the error is the one of the
    call made with [n_neighbors] itself and the whole table, no embedding
    is returned, no figure is written. *)
Theorem run_isomaps_rejects_neighbor_count (L : libs) (feat : string)
    (table : mat) (rest : list (string * mat)) (cmap : mat) (out_dir : string)
    (n_neighbors : nat) (w : world) :
  (forall n_components k (X : mat),
     (length X <= k)%nat ->
     exists msg, Isomap_fit_transform L n_components k X = Raise (ValueError msg)) ->
  (length table <= n_neighbors)%nat ->
  exists msg w',
    Isomap_fit_transform L 3 n_neighbors table = Raise (ValueError msg)
    /\ run_isomaps L ((feat, table) :: rest) cmap out_dir n_neighbors w
       = (Raise (ValueError msg), w')
    /\ fs_files w' = fs_files w
    /\ Forall (fun ev => forall p, ev <> EvSavefig p)
         (drop (length (trace w)) (trace w')).
Proof.
  intros Hlib Hle.
  destruct (Hlib 3%nat n_neighbors table Hle) as [msg Hmsg].
  destruct (run_isomaps_reaches_fit L feat table rest cmap out_dir n_neighbors w)
    as [Hraise _].
  exists msg. eexists. split; [exact Hmsg|].
  split; [apply Hraise; exact Hmsg|].
  destruct (os_makedirs_exist_ok (path_join out_dir feat) w) as (_ & Hfiles & _).
  split; [exact Hfiles|].
  cbn [trace add_event]. unfold os_makedirs.
  destruct (decide (path_join out_dir feat ∈ fs_dirs w)); cbn [snd trace add_event add_dirs].
  - rewrite drop_app_length. repeat constructor. intros p. discriminate.
  - rewrite <- app_assoc, drop_app_length.
    repeat constructor; intros p; discriminate.
Qed.

(** Forty neighbours, the default, asked of six samples. *)
Lemma run_isomaps_rejects_neighbor_count_witness :
  (length six_sample_table <= 40)%nat
  /\ exists w',
       run_isomaps ring_libs six_sample_families six_sample_map "/out" 40
         (initial_world "/home")
       = (Raise (ValueError "Expected n_neighbors <= n_samples_fit"), w')
       /\ fs_files w' = ∅.
Proof.
  assert (Hle : (length six_sample_table <= 40)%nat) by (simpl; lia).
  split; [exact Hle|].
  destruct (run_isomaps_rejects_neighbor_count ring_libs "MFCC" six_sample_table
              [("TS", six_sample_table); ("JTFS", six_sample_table);
               ("OPEN-L3", six_sample_table); ("STRF", six_sample_table)]
              six_sample_map "/out" 40 (initial_world "/home"))
    as (msg & w' & Hmsg & Hrun & Hfiles & _).
  - intros n_components k X HX. eexists. simpl. unfold ring_isomap_fit.
    rewrite decide_True by exact HX. reflexivity.
  - exact Hle.
  - assert (E : msg = "Expected n_neighbors <= n_samples_fit").
    { simpl in Hmsg. unfold ring_isomap_fit in Hmsg.
      rewrite decide_True in Hmsg by exact Hle. congruence. }
    subst msg. exists w'. split; [exact Hrun | exact Hfiles].
Defined.

(** ** The output directory *)

Lemma split_sep_cons (s : string) : exists h t, split_sep s = h :: t.
Proof.
  induction s as [|c s (h & t & IH)]; simpl; [eauto|].
  destruct (bool_decide (c = "/"%char)); [eauto|]. rewrite IH. eauto.
Qed.

Lemma split_sep_append (a b : string) :
  split_sep (a +:+ b) = fuse (split_sep a) (split_sep b).
Proof.
  destruct (split_sep_cons b) as (hb & tb & Hb).
  induction a as [|c a IH]; string_simpl.
  - simpl. rewrite Hb. reflexivity.
  - destruct (split_sep_cons a) as (ha & ta & Ha). simpl.
    rewrite IH, Ha.
    destruct (bool_decide (c = "/"%char)); [reflexivity|].
    destruct ta as [|ha' ta]; simpl; rewrite Hb; reflexivity.
Qed.

Lemma append_length (a b : string) :
  String.length (a +:+ b) = (String.length a + String.length b)%nat.
Proof.
  induction a as [|c a IH]; string_simpl; [reflexivity|].
  simpl. rewrite IH. reflexivity.
Qed.

Lemma in_dirs_monotone {A : Type} (m : M A) (w : world) (p : string) :
  monotone m -> p ∈ fs_dirs w -> p ∈ fs_dirs (m w).2.
Proof. intros Hm Hp. destruct (Hm w) as (_ & _ & _ & Hd & _). apply Hd, Hp. Qed.

(** The first statements of [run_isomap]: [run_isomap_grid] runs with the
    concatenation of the working directory and [out_dir], in a world where
    that directory exists (unless a file has that name). *)
Lemma run_isomap_makes_out_dir (L : libs) (n_steps : nat)
    (f0_min f0_max fm_min fm_max gamma_min gamma_max bw : R)
    (duration sr : nat) (out_dir : string) (w : world) :
  exists w2,
    run_isomap L n_steps f0_min f0_max fm_min fm_max gamma_min gamma_max bw
      duration sr out_dir w
    = run_isomap_grid L n_steps f0_min f0_max fm_min fm_max gamma_min gamma_max
        duration sr (cwd w +:+ out_dir) w2
    /\ extends w w2
    /\ fs_files w2 = fs_files w
    /\ (cwd w +:+ out_dir ∉ fs_files w -> cwd w +:+ out_dir ∈ fs_dirs w2).
Proof.
  unfold run_isomap.
  rewrite (M_bind_run os_getcwd _ w w (cwd w) eq_refl).
  set (p := cwd w +:+ out_dir).
  unfold mbind at 1, M_bind at 1, os_path_exists.
  destruct (bool_decide (p ∈ fs_dirs w ∨ p ∈ fs_files w)) eqn:Hpresent.
  - exists w. split; [reflexivity|]. split; [apply extends_refl|].
    split; [reflexivity|].
    intros Hfile. apply bool_decide_eq_true_1 in Hpresent as [Hd|Hf];
      [exact Hd | contradiction].
  - apply bool_decide_eq_false_1 in Hpresent.
    pose proof (monotone_os_makedirs p false w) as Hext.
    unfold mbind, M_bind. unfold os_makedirs in *.
    destruct (decide (p ∈ fs_dirs w)) as [Hin|Hout]; [tauto|].
    eexists. split; [reflexivity|]. split; [exact Hext|].
    split; [reflexivity|].
    intros _. simpl. set_solver.
Qed.

Lemma extract_openl3_Ok (audio : mat) (sr : nat) (w w' : world) (x : mat) :
  extract_openl3 audio sr w = (Ok x, w') -> w' = w.
Proof.
  unfold extract_openl3. destruct (openl3 w); intros H; [|discriminate].
  injection H as _ <-. reflexivity.
Qed.

Lemma run_isomap_grid_images (L : libs) (n_steps : nat)
    (f0_min f0_max fm_min fm_max gamma_min gamma_max : R)
    (duration sr : nat) (out_dir : string) (w w' : world) (u : unit) :
  run_isomap_grid L n_steps f0_min f0_max fm_min fm_max gamma_min gamma_max
    duration sr out_dir w = (Ok u, w') ->
  fs_files w'
  = fs_files w
    ∪ list_to_set ((fun feat => path_join (path_join out_dir feat) "isomap.png")
                   <$> ["MFCC"; "TS"; "JTFS"; "OPEN-L3"; "STRF"])
    ∪ {[ path_join out_dir "knn.png" ]}.
Proof.
  unfold run_isomap_grid. intros H.
  repeat (apply M_bind_Ok in H as (? & ? & Hstep & H);
          first [ apply lift_Ok in Hstep as [_ ->]
                | apply extract_openl3_Ok in Hstep as -> ]).
  apply run_isomaps_images in H as (Hfiles & _). exact Hfiles.
Qed.

Lemma run_isomap_out_dir_exists (L : libs) (n_steps : nat)
    (f0_min f0_max fm_min fm_max gamma_min gamma_max bw : R)
    (duration sr : nat) (out_dir : string) (w : world) :
  cwd w +:+ out_dir ∉ fs_files w ->
  cwd w +:+ out_dir
  ∈ fs_dirs (run_isomap L n_steps f0_min f0_max fm_min fm_max gamma_min
               gamma_max bw duration sr out_dir w).2.
Proof.
  intros Hfile.
  destruct (run_isomap_makes_out_dir L n_steps f0_min f0_max fm_min fm_max
              gamma_min gamma_max bw duration sr out_dir w)
    as (w2 & -> & _ & _ & Hdir).
  apply in_dirs_monotone; [apply monotone_run_isomap_grid | apply Hdir, Hfile].
Qed.

Lemma append_neq_sep (a b : string) : a +:+ b <> a +:+ "/" +:+ b.
Proof.
  intros H. apply (inj (String.app a)) in H.
  apply (f_equal String.length) in H. rewrite append_length in H.
  simpl in H. lia.
Qed.

(** C10, as the code has it.  [run_isomap] works in the directory named by
    the string [os.getcwd() + out_dir]: it creates it when absent and writes
    its images below it.  An [out_dir] that starts with a separator, the
    default ['/img'] included, therefore names a path under the working
    directory and not the absolute path that [os.path.join] would keep.  The
    components of the concatenation are those of the two strings with the
    last component of the working directory and the first of [out_dir]
    fused; when the working directory does not end in a separator, a
    relative [out_dir] so gives a path different from
    [os.path.join(cwd, out_dir)]. *)
Theorem run_isomap_output_directory (L : libs) (n_steps : nat)
    (f0_min f0_max fm_min fm_max gamma_min gamma_max bw : R)
    (duration sr : nat) (out_dir : string) (w : world) :
  let p := cwd w +:+ out_dir in
  let run := run_isomap L n_steps f0_min f0_max fm_min fm_max gamma_min
               gamma_max bw duration sr out_dir in
  (p ∉ fs_files w -> p ∈ fs_dirs (run w).2)
  /\ (forall w', run w = (Ok (), w') ->
        fs_files w'
        = fs_files w
          ∪ list_to_set ((fun feat => path_join (path_join p feat) "isomap.png")
                         <$> ["MFCC"; "TS"; "JTFS"; "OPEN-L3"; "STRF"])
          ∪ {[ path_join p "knn.png" ]})
  /\ (starts_with_sep out_dir = true ->
        exists rest, out_dir = "/" +:+ rest /\ p = cwd w +:+ "/" +:+ rest
        /\ (cwd w <> "" -> p <> path_join (cwd w) out_dir))
  /\ split_sep p = fuse (split_sep (cwd w)) (split_sep out_dir)
  /\ (starts_with_sep out_dir = false -> cwd w <> "" ->
      ends_with_sep (cwd w) = false ->
      p <> path_join (cwd w) out_dir).
Proof.
  intros p run. split; [apply run_isomap_out_dir_exists|].
  split.
  { intros w' Hrun. unfold run in Hrun.
    destruct (run_isomap_makes_out_dir L n_steps f0_min f0_max fm_min fm_max
                gamma_min gamma_max bw duration sr out_dir w)
      as (w2 & E & _ & Hfiles & _).
    rewrite E in Hrun. apply run_isomap_grid_images in Hrun.
    rewrite Hrun, Hfiles. reflexivity. }
  split.
  { intros Habs. destruct out_dir as [|c rest]; [discriminate|].
    simpl in Habs. apply bool_decide_eq_true_1 in Habs as ->.
    exists rest. split; [reflexivity|]. split; [reflexivity|].
    intros Hcwd Heq. unfold p, path_join in Heq. simpl in Heq.
    apply (f_equal String.length) in Heq. rewrite append_length in Heq.
    destruct (cwd w); [contradiction|]. simpl in Heq. lia. }
  split; [apply split_sep_append|].
  intros Hrel Hcwd Hend. unfold p.
  rewrite path_join_relative by assumption. apply append_neq_sep.
Qed.

(** Against C10 as stated: started in the root directory, a relative
    [out_dir] is nested inside the working directory, as [os.path.join]
    would nest it. *)
Lemma relative_out_dir_nested_under_root :
  starts_with_sep "img" = false
  /\ cwd (initial_world "/") +:+ "img" = path_join (cwd (initial_world "/")) "img"
  /\ split_sep (cwd (initial_world "/") +:+ "img") = [""; "img"]
  /\ "/img"
     ∈ fs_dirs (run_isomap constant_libs 1 512 1024 4 16 (1 / 2) 4 2 1 4 "img"
                  (initial_world "/")).2.
Proof.
  split; [reflexivity|]. split; [reflexivity|]. split; [reflexivity|].
  apply (run_isomap_out_dir_exists constant_libs 1 512 1024 4 16 (1 / 2) 4 2 1 4
           "img" (initial_world "/")).
  simpl. apply not_elem_of_empty.
Qed.


(** ** The skip flag *)

Lemma ignores_skip_ret {A : Type} (a : A) : ignores_skip (mret a : M A).
Proof. intros w b. reflexivity. Qed.

Lemma ignores_skip_lift {A : Type} (o : outcome A) : ignores_skip (lift o).
Proof. intros w b. reflexivity. Qed.

Lemma ignores_skip_bind {A B : Type} (m : M A) (f : A -> M B) :
  ignores_skip m -> (forall a, ignores_skip (f a)) -> ignores_skip (m ≫= f).
Proof.
  intros Hm Hf w b. unfold mbind, M_bind. rewrite Hm.
  destruct (m w) as [[a|e] w1]; simpl; [apply Hf | reflexivity].
Qed.

Lemma ignores_skip_for_each_M {A S : Type} (xs : list A) (body : A -> S -> M S) :
  (forall x s, ignores_skip (body x s)) ->
  forall s, ignores_skip (for_each_M xs body s).
Proof.
  intros Hbody. induction xs as [|x xs IH]; intros s; simpl.
  - apply ignores_skip_ret.
  - apply ignores_skip_bind; [apply Hbody | exact IH].
Qed.

Lemma ignores_skip_log_event (ev : event) : ignores_skip (log_event ev).
Proof. intros w b. reflexivity. Qed.

Lemma ignores_skip_os_getcwd : ignores_skip os_getcwd.
Proof. intros w b. reflexivity. Qed.

Lemma ignores_skip_os_path_exists (p : string) : ignores_skip (os_path_exists p).
Proof. intros w b. reflexivity. Qed.

Lemma ignores_skip_os_makedirs (p : string) (exist_ok : bool) :
  ignores_skip (os_makedirs p exist_ok).
Proof.
  intros w b. unfold os_makedirs. simpl.
  destruct (decide (p ∈ fs_dirs w)); reflexivity.
Qed.

Lemma ignores_skip_plt_savefig (p : string) : ignores_skip (plt_savefig p).
Proof. intros w b. reflexivity. Qed.

Lemma ignores_skip_extract_openl3 (audio : mat) (sr : nat) :
  ignores_skip (extract_openl3 audio sr).
Proof.
  intros w b. unfold extract_openl3. simpl. destruct (openl3 w); reflexivity.
Qed.

Create HintDb skip discriminated.
#[export] Hint Resolve ignores_skip_ret ignores_skip_lift ignores_skip_log_event
  ignores_skip_os_getcwd ignores_skip_os_path_exists ignores_skip_os_makedirs
  ignores_skip_plt_savefig ignores_skip_extract_openl3 : skip.

Ltac skip_flag := repeat first
  [ apply ignores_skip_bind; [| intros ?]
  | apply ignores_skip_for_each_M; intros ? ?
  | match goal with |- ignores_skip (if ?b then _ else _) => destruct b end
  | solve [auto with skip] ].

Lemma ignores_skip_run_isomaps (L : libs) (X : list (string * mat)) (cmap : mat)
    (out_dir : string) (n_neighbors : nat) :
  ignores_skip (run_isomaps L X cmap out_dir n_neighbors).
Proof.
  unfold run_isomaps, run_isomaps_loop, run_isomaps_feat, isomap_fit,
    plot_isomap, plot_knn_regression.
  skip_flag.
Qed.

#[export] Hint Resolve ignores_skip_run_isomaps : skip.

Lemma ignores_skip_run_isomap (L : libs) (n_steps : nat)
    (f0_min f0_max fm_min fm_max gamma_min gamma_max bw : R)
    (duration sr : nat) (out_dir : string) :
  ignores_skip (run_isomap L n_steps f0_min f0_max fm_min fm_max gamma_min
                  gamma_max bw duration sr out_dir).
Proof. unfold run_isomap, run_isomap_grid. skip_flag. Qed.

(** With [openl3] not bound, the pipeline raises [NameError] in
    [extract_openl3] as soon as the stages before it have succeeded. *)
Lemma run_isomap_grid_NameError (L : libs) (n_steps : nat)
    (f0_min f0_max fm_min fm_max gamma_min gamma_max : R)
    (duration sr : nat) (out_dir : string) (w : world) :
  let f0s := np.logspace (np.log10 f0_min) (np.log10 f0_max) n_steps in
  let fms := np.logspace (np.log10 fm_min) (np.log10 fm_max) n_steps in
  let gammas := np.logspace (np.log10 gamma_min) (np.log10 gamma_max) n_steps in
  let audio := audio_tensor f0s fms gammas duration sr in
  let flat := concat (concat audio) in
  openl3 w = None ->
  (0 < duration)%nat -> (0 < sr)%nat ->
  (exists cmap, generate_audio f0s fms gammas duration sr = Ok (audio, cmap)) ->
  (exists mfcc, extract_mfcc L audio f0s fms gammas sr 20 = Ok mfcc) ->
  (exists ts, extract_time_scattering L flat duration sr = Ok ts) ->
  (exists jtfs, extract_jtfs L flat duration sr = Ok jtfs) ->
  run_isomap_grid L n_steps f0_min f0_max fm_min fm_max gamma_min gamma_max
    duration sr out_dir w
  = (Raise (NameError "openl3"), w).
Proof.
  intros f0s fms gammas audio flat Hunbound Hd Hsr (cmap & Hgen) (mfcc & Hmfcc)
         (ts & Hts) (jtfs & Hjtfs).
  unfold run_isomap_grid. fold f0s fms gammas.
  rewrite Hgen.
  rewrite (M_bind_run (lift (Ok _)) _ w w _ eq_refl). cbn [fst snd].
  rewrite Hmfcc.
  rewrite (M_bind_run (lift (Ok mfcc)) _ w w _ eq_refl).
  assert (Hflat : reshape_rows (duration * sr) audio = Ok flat).
  { unfold reshape_rows. rewrite decide_False by nia. reflexivity. }
  rewrite Hflat.
  rewrite (M_bind_run (lift (Ok flat)) _ w w _ eq_refl).
  rewrite Hts.
  rewrite (M_bind_run (lift (Ok ts)) _ w w _ eq_refl).
  rewrite (M_bind_run (lift (Ok flat)) _ w w _ eq_refl).
  rewrite Hjtfs.
  rewrite (M_bind_run (lift (Ok jtfs)) _ w w _ eq_refl).
  rewrite (M_bind_run (lift (Ok flat)) _ w w _ eq_refl).
  apply M_bind_raise. unfold extract_openl3. rewrite Hunbound. reflexivity.
Qed.

(** C1.  When [import openl3] fails at module load, [skip_openl3] is set to
    [True] and a warning is emitted, [openl3] staying unbound.  [run_isomap]
    never reads the flag (its result is the same under either value of it)
    and calls [extract_openl3] unconditionally: once the stages before it
    (the generation of the audio and three extractors) have succeeded, the
    run ends there with [NameError] on [openl3]. *)
Theorem openl3_skip_flag_is_not_consulted (L : libs) (n_steps : nat)
    (f0_min f0_max fm_min fm_max gamma_min gamma_max bw : R)
    (duration sr : nat) (out_dir : string) (e : exn) (w : world) :
  let f0s := np.logspace (np.log10 f0_min) (np.log10 f0_max) n_steps in
  let fms := np.logspace (np.log10 fm_min) (np.log10 fm_max) n_steps in
  let gammas := np.logspace (np.log10 gamma_min) (np.log10 gamma_max) n_steps in
  let audio := audio_tensor f0s fms gammas duration sr in
  let flat := concat (concat audio) in
  let run := run_isomap L n_steps f0_min f0_max fm_min fm_max gamma_min
               gamma_max bw duration sr out_dir in
  let w1 := (module_load (Raise e) w).2 in
  openl3 w = None ->
  (0 < duration)%nat -> (0 < sr)%nat ->
  (exists cmap, generate_audio f0s fms gammas duration sr = Ok (audio, cmap)) ->
  (exists mfcc, extract_mfcc L audio f0s fms gammas sr 20 = Ok mfcc) ->
  (exists ts, extract_time_scattering L flat duration sr = Ok ts) ->
  (exists jtfs, extract_jtfs L flat duration sr = Ok jtfs) ->
  (module_load (Raise e) w).1 = Ok ()
  /\ skip_openl3 w1 = true
  /\ trace w1
     = trace w ++ [EvWarn "Could not import `openl3`, will skip experiment"]
  /\ openl3 w1 = None
  /\ (exists w2, run w1 = (Raise (NameError "openl3"), w2))
  /\ ignores_skip run.
Proof.
  intros f0s fms gammas audio flat run w1 Hunbound Hd Hsr Hgen Hmfcc Hts Hjtfs.
  split; [reflexivity|]. split; [reflexivity|]. split; [reflexivity|].
  split; [exact Hunbound|].
  split; [|apply ignores_skip_run_isomap].
  unfold run.
  destruct (run_isomap_makes_out_dir L n_steps f0_min f0_max fm_min fm_max
              gamma_min gamma_max bw duration sr out_dir w1)
    as (w2 & -> & (_ & Hopen & _) & _).
  exists w2. apply run_isomap_grid_NameError; try assumption.
  rewrite Hopen. exact Hunbound.
Qed.

Lemma openl3_skip_flag_is_not_consulted_witness :
  skip_openl3 (module_load (Raise (ImportError "openl3")) (initial_world "/home")).2
  = true
  /\ exists w2,
       run_isomap constant_libs 1 512 1024 4 16 (1 / 2) 4 2 1 4 "/img"
         (module_load (Raise (ImportError "openl3")) (initial_world "/home")).2
       = (Raise (NameError "openl3"), w2).
Proof.
  destruct (openl3_skip_flag_is_not_consulted constant_libs 1 512 1024 4 16
              (1 / 2) 4 2 1 4 "/img" (ImportError "openl3") (initial_world "/home"))
    as (_ & Hskip & _ & _ & Hrun & _).
  - reflexivity.
  - lia.
  - lia.
  - eexists. apply generate_audio_Ok;
      [lia | exact time_axis_len_one_second_at_4
       | apply positive_nonzero, logspace_pos].
  - eexists. reflexivity.
  - eexists. reflexivity.
  - eexists. reflexivity.
  - split; [exact Hskip | exact Hrun].
Defined.

(** * Further properties of the script *)

(** ** [sinusoid] *)

Lemma sin_period_Z (x : R) (m : Z) : sin (x + 2 * IZR m * PI) = sin x.
Proof.
  destruct (Z_le_gt_dec 0 m) as [Hm|Hm].
  - rewrite <- (Z2Nat.id m Hm), <- INR_IZR_INZ. apply sin_period.
  - assert (Hneg : (0 <= - m)%Z) by lia.
    rewrite <- (sin_period (x + 2 * IZR m * PI) (Z.to_nat (- m))).
    rewrite INR_IZR_INZ, (Z2Nat.id _ Hneg), opp_IZR. f_equal. ring.
Qed.

Lemma sinusoid_len_one_second_at_4 : sinusoid_len 1 4 = 4%nat.
Proof. vm_compute. reflexivity. Qed.

Lemma sinusoid_len_one_second_at_49 : sinusoid_len 1 49 = 50%nat.
Proof. vm_compute. reflexivity. Qed.

(** X1.  [sinusoid(f0, duration, sr)] raises at [1/sr] for [sr = 0];
    otherwise it returns as many samples as NumPy gives the time axis
    [np.arange(0, duration, 1/sr)], that is [ceil(duration / (1/sr))] taken
    in float64 ([duration * sr], or one more when the rounded quotient
    exceeds it).  Sample [n] is [sin(2*pi*f0*n/sr)] for every frequency
    [f0], the first sample is zero, and for a whole-number frequency the
    signal repeats every [sr] samples. *)
Theorem sinusoid_periodic (f0 : R) (duration sr : nat) :
  (sr = 0%nat -> sinusoid f0 duration sr = Raise ZeroDivisionError)
  /\ (sr <> 0%nat ->
      exists x,
        sinusoid f0 duration sr = Ok x
        /\ length x = sinusoid_len duration sr
        /\ (forall n, (n < sinusoid_len duration sr)%nat ->
            x !! n = Some (sin (2 * PI * f0 * (INR n / INR sr))))
        /\ (forall v, x !! 0%nat = Some v -> v = 0)
        /\ (forall (m : Z) n,
              f0 = IZR m -> (n + sr < sinusoid_len duration sr)%nat ->
              x !! (n + sr)%nat = x !! n)).
Proof.
  split; [intros ->; reflexivity|].
  intros Hsr.
  assert (HR : INR sr <> 0) by (apply not_0_INR; exact Hsr).
  unfold sinusoid. rewrite decide_False by exact Hsr.
  fold (sinusoid_len duration sr).
  eexists. split; [reflexivity|].
  split; [rewrite length_map; apply arange_length|].
  assert (Hlookup : forall n, (n < sinusoid_len duration sr)%nat ->
            map (fun tn => sin (2 * PI * f0 * tn))
                (np.arange 0 (1 / INR sr) (sinusoid_len duration sr)) !! n
            = Some (sin (2 * PI * f0 * (INR n / INR sr)))).
  { intros n Hn. rewrite list_lookup_fmap, arange_lookup by exact Hn.
    simpl. do 2 f_equal. unfold Rdiv. ring. }
  split; [exact Hlookup|]. split.
  - intros v Hv.
    assert (H0 : (0 < sinusoid_len duration sr)%nat).
    { apply lookup_lt_Some in Hv. rewrite length_map, arange_length in Hv. exact Hv. }
    rewrite (Hlookup 0%nat H0) in Hv. injection Hv as <-.
    simpl. replace (2 * PI * f0 * (0 / INR sr)) with 0 by (field; exact HR).
    apply sin_0.
  - intros m n Hf0 Hn.
    rewrite (Hlookup (n + sr)%nat) by exact Hn. rewrite (Hlookup n) by lia.
    f_equal. rewrite plus_INR, Hf0.
    replace (2 * PI * IZR m * ((INR n + INR sr) / INR sr))
      with (2 * PI * IZR m * (INR n / INR sr) + 2 * IZR m * PI)
      by (field; exact HR).
    apply sin_period_Z.
Qed.

(** At 49 samples per second the time axis of one second has 50 samples;
    at four samples per second, four. *)
Lemma sinusoid_periodic_witness :
  (exists x, sinusoid 3 1 49 = Ok x /\ length x = 50%nat)
  /\ (exists x, sinusoid (1 / 2) 1 4 = Ok x /\ length x = 4%nat
                /\ x !! 1%nat = Some (sin (2 * PI * (1 / 2) * (INR 1 / INR 4)))).
Proof.
  split.
  - destruct (sinusoid_periodic 3 1 49) as [_ H].
    destruct H as (x & Hx & Hlen & _); [lia|].
    exists x. split; [exact Hx|]. rewrite Hlen. exact sinusoid_len_one_second_at_49.
  - destruct (sinusoid_periodic (1 / 2) 1 4) as [_ H].
    destruct H as (x & Hx & Hlen & Hn & _); [lia|].
    exists x. split; [exact Hx|].
    split; [rewrite Hlen; exact sinusoid_len_one_second_at_4|].
    apply Hn. rewrite sinusoid_len_one_second_at_4. lia.
Defined.

(** ** Edge cases of [generate_audio] and bounds on [generate] *)

Lemma for_each_skip {A S : Type} (xs : list A) (body : A -> S -> outcome S) (s : S) :
  (forall x s', body x s' = Ok s') -> for_each xs body s = Ok s.
Proof.
  intros Hbody. induction xs as [|x xs IH]; simpl; [reflexivity|].
  rewrite Hbody. exact IH.
Qed.

Lemma generate_audio_body_no_rate (duration i j k : nat) (f0 fm gamma : R)
    (st : gen_state) :
  generate_audio_body duration 0 i f0 j fm k gamma st = Raise ZeroDivisionError.
Proof. destruct st as [[audio cmap] c]. reflexivity. Qed.

(** X2.  With an empty grid on any of the three axes, [generate_audio]
    never calls [generate]: it returns the zero tensor of the requested
    shape and a parameter map of three empty rows, also for [sr = 0].  With
    three non-empty grids and [sr = 0] the first call of [generate] raises
    [ZeroDivisionError]. *)
Theorem generate_audio_degenerate_grids (f0s fms gammas : vec) (duration sr : nat) :
  (f0s = [] \/ fms = [] \/ gammas = [] ->
   generate_audio f0s fms gammas duration sr
   = Ok (zeros4 (length f0s) (length fms) (length gammas) (duration * sr),
         [[]; []; []]))
  /\ (f0s <> [] -> fms <> [] -> gammas <> [] ->
      generate_audio f0s fms gammas duration 0 = Raise ZeroDivisionError).
Proof.
  split.
  - intros Hempty. unfold generate_audio.
    assert (Hcols : (length f0s * length fms * length gammas = 0)%nat).
    { destruct Hempty as [ -> | [ -> | -> ] ]; simpl; lia. }
    rewrite Hcols.
    destruct Hempty as [ -> | [ -> | -> ] ].
    + reflexivity.
    + rewrite for_each_skip; [reflexivity|]. intros [i f0] st. reflexivity.
    + rewrite for_each_skip; [reflexivity|]. intros [i f0] st.
      apply for_each_skip. intros [j fm] st'. reflexivity.
  - intros H0 H1 H2.
    destruct f0s as [|f0 f0s]; [contradiction|].
    destruct fms as [|fm fms]; [contradiction|].
    destruct gammas as [|gamma gammas]; [contradiction|].
    unfold generate_audio, enumerate. simpl enumerate_from.
    cbn [for_each mbind outcome_bind].
    rewrite generate_audio_body_no_rate. reflexivity.
Qed.

(** X3.  For a nonzero chirp rate and a nonzero bandwidth, every sample
    that [generate] returns is finite and bounded in absolute value by the
    Gaussian window at its index, and the window lies in (0, 1]: no sample
    exceeds one in magnitude. *)
Theorem generate_bounded_by_window (f_c f_m gamma bw : R) (duration sr : nat)
    (x : list npfloat) (n : nat) (v : npfloat) :
  gamma <> 0 -> bw <> 0 ->
  generate f_c f_m gamma bw duration sr = Ok x ->
  x !! n = Some v ->
  exists r wn,
    v = Fin r
    /\ scipy_signal_gaussian (duration * sr) (sigma0 * bw / gamma * INR sr) !! n
       = Some (Fin wn)
    /\ 0 < wn <= 1
    /\ Rabs r <= wn.
Proof.
  intros Hg Hbw Hx Hn.
  apply generate_Ok_inv in Hx as (Hsr & _ & Hlen & Hx).
  assert (Hlt : (n < duration * sr)%nat).
  { rewrite <- Hlen. eapply lookup_lt_Some. exact Hn. }
  pose proof (window_std_nonzero gamma bw sr Hg Hbw Hsr) as Hstd.
  destruct (Hx n Hlt) as (a & wn & Ha & Hwn & Hxn & _).
  rewrite gaussian_lookup in Hwn by assumption. injection Hwn as <-.
  rewrite Hxn in Hn. injection Hn as <-.
  pose proof (gaussian_weight_range (duration * sr) _ n Hstd) as Hw.
  exists (a * gaussian_weight (duration * sr) (sigma0 * bw / gamma * INR sr) n),
         (gaussian_weight (duration * sr) (sigma0 * bw / gamma * INR sr) n).
  split; [reflexivity|].
  split; [apply gaussian_lookup; assumption|].
  split; [exact Hw|].
  rewrite Rabs_mult. rewrite (Rabs_pos_eq (gaussian_weight _ _ _)) by lra.
  pose proof (Rabs_pos a). nra.
Qed.

Lemma generate_bounded_by_window_witness :
  exists x v r, generate 512 4 (1 / 2) 2 1 4 = Ok x /\ x !! 1%nat = Some v
                /\ v = Fin r /\ Rabs r <= 1.
Proof.
  assert (Hx : generate 512 4 (1 / 2) 2 1 4
               = Ok (Fin <$> map (generate_sample 512 4 (1 / 2) 2 1 4) (seq 0 (1 * 4))))
    by (apply generate_Ok_finite;
        [lia | lra | lra | exact time_axis_len_one_second_at_4]).
  destruct (generate_bounded_by_window 512 4 (1 / 2) 2 1 4 _ 1
              (Fin (generate_sample 512 4 (1 / 2) 2 1 4 1))
              ltac:(lra) ltac:(lra) Hx eq_refl) as (r & wn & Hv & _ & Hw & Hr).
  eexists. eexists. exists r. split; [exact Hx|]. split; [reflexivity|].
  split; [exact Hv | lra].
Defined.

(** ** [extract_mfcc] and the number of coefficients *)

Lemma setitem3_mismatch (t : tens4) (i j k : nat) (old x : vec) :
  getitem3 t i j k = Ok old ->
  length x <> length old -> length x <> 1%nat ->
  setitem3 t i j k x = Raise (ValueError "could not broadcast input array").
Proof.
  intros Hold Hlen H1. unfold setitem3. rewrite Hold.
  cbn [mbind outcome_bind]. rewrite decide_False by exact Hlen.
  destruct x as [|v [|v' x]]; [reflexivity | | reflexivity].
  simpl in H1. contradiction.
Qed.

(** X4.  [extract_mfcc] does not hand [n_mfcc] to librosa: when librosa
    answers the first waveform with a number of coefficient rows that is
    neither [n_mfcc] nor one, the assignment into the table raises
    [ValueError]. *)
Theorem extract_mfcc_coefficient_mismatch (L : libs) (audio : tens4)
    (f0 fm gamma : R) (f0s fms gammas : vec) (sr n_mfcc : nat) (y : vec)
    (m : mat) :
  getitem3 audio 0 0 0 = Ok y ->
  librosa_feature_mfcc L y sr = Ok m ->
  length m <> n_mfcc -> length m <> 1%nat ->
  extract_mfcc L audio (f0 :: f0s) (fm :: fms) (gamma :: gammas) sr n_mfcc
  = Raise (ValueError "could not broadcast input array").
Proof.
  intros Hy Hm Hn H1.
  unfold extract_mfcc, enumerate. simpl enumerate_from.
  cbn [for_each mbind outcome_bind].
  assert (Hbody : forall mfcc : tens4,
            getitem3 mfcc 0 0 0 = Ok (replicate n_mfcc 0) ->
            extract_mfcc_body L audio sr 0 0 0 mfcc
            = Raise (ValueError "could not broadcast input array")).
  { intros mfcc Hold. unfold extract_mfcc_body. rewrite Hy.
    cbn [mbind outcome_bind]. rewrite Hm. cbn [mbind outcome_bind].
    apply (setitem3_mismatch _ _ _ _ _ _ Hold);
      rewrite mean_last_axis_length, ?length_replicate; assumption. }
  rewrite Hbody; reflexivity.
Qed.

Lemma extract_mfcc_coefficient_mismatch_witness :
  extract_mfcc constant_libs [[[[1; 2]]]] [512] [4] [1 / 2] 4 13
  = Raise (ValueError "could not broadcast input array").
Proof.
  apply (extract_mfcc_coefficient_mismatch constant_libs [[[[1; 2]]]]
           512 4 (1 / 2) [] [] [] 4 13 [1; 2] (replicate 20 [0])).
  - reflexivity.
  - reflexivity.
  - simpl. lia.
  - simpl. lia.
Defined.

(** X5.  Whatever librosa answers, a table that [extract_mfcc] returns has
    one row per grid point and [n_mfcc] columns; with [n_mfcc = 0] the
    function always raises. *)
Theorem extract_mfcc_table_shape (L : libs) (audio : tens4) (f0s fms gammas : vec)
    (sr n_mfcc : nat) :
  (n_mfcc = 0%nat ->
   exists e, extract_mfcc L audio f0s fms gammas sr n_mfcc = Raise e)
  /\ (forall table,
        extract_mfcc L audio f0s fms gammas sr n_mfcc = Ok table ->
        has_shape2 table (length f0s * length fms * length gammas) n_mfcc).
Proof.
  split.
  - intros ->. unfold extract_mfcc.
    destruct (for_each _ _ _) as [mfcc|e]; cbn [mbind outcome_bind];
      eexists; reflexivity.
  - apply extract_mfcc_Ok_shape.
Qed.

Lemma extract_mfcc_table_shape_witness :
  exists table,
    extract_mfcc constant_libs [[[[1; 2]]]] [512] [4] [1 / 2] 4 20 = Ok table
    /\ has_shape2 table 1 20.
Proof.
  destruct (extract_mfcc_table_shape constant_libs [[[[1; 2]]]] [512] [4] [1 / 2] 4 20)
    as [_ H].
  eexists. split; [reflexivity|]. apply H. reflexivity.
Defined.

(** ** The scattering extractors *)

(** X6.  The scattering extractors take the scale
    [J = int(log2(N) - 1)] from [N = duration * sr].  For [N = 0] both raise
    [OverflowError] before any transform is built; for [N > 0] the scale
    satisfies [2^(J+1) <= N < 2^(J+2)] and is the one the transforms are
    built with. *)
Theorem scattering_scale_bounds (L : libs) (audio : mat) (duration sr : nat) :
  let N := (duration * sr)%nat in
  (N = 0%nat ->
   extract_time_scattering L audio duration sr = Raise OverflowError
   /\ extract_jtfs L audio duration sr = Raise OverflowError)
  /\ ((0 < N)%nat ->
      exists J : Z,
        scattering_J N = Ok J
        /\ (2 ^ (J + 1) <= Z.of_nat N < 2 ^ (J + 2))%Z
        /\ (forall e, Scattering1D L N J = Raise e ->
              extract_time_scattering L audio duration sr = Raise e)
        /\ (forall e, TimeFrequencyScattering1D L N J = Raise e ->
              extract_jtfs L audio duration sr = Raise e)).
Proof.
  intros N. split.
  - intros HN. unfold extract_time_scattering, extract_jtfs, scattering_J.
    fold N. rewrite decide_True by exact HN. split; reflexivity.
  - intros HN. exists (Z.log2 (Z.of_nat N) - 1)%Z.
    assert (HJ : scattering_J N = Ok (Z.log2 (Z.of_nat N) - 1)%Z).
    { unfold scattering_J. rewrite decide_False by lia. reflexivity. }
    split; [exact HJ|]. split.
    + pose proof (Z.log2_spec (Z.of_nat N) ltac:(lia)) as Hspec.
      replace (Z.log2 (Z.of_nat N) - 1 + 1)%Z with (Z.log2 (Z.of_nat N)) by lia.
      replace (Z.log2 (Z.of_nat N) - 1 + 2)%Z with (Z.succ (Z.log2 (Z.of_nat N)))
        by lia.
      exact Hspec.
    + split; intros e He.
      * unfold extract_time_scattering. fold N. rewrite HJ.
        cbn [mbind outcome_bind]. rewrite He. reflexivity.
      * unfold extract_jtfs. fold N. rewrite HJ.
        cbn [mbind outcome_bind]. rewrite He. reflexivity.
Qed.

Lemma scattering_J_Ok (N : nat) :
  N <> 0%nat -> scattering_J N = Ok (Z.log2 (Z.of_nat N) - 1)%Z.
Proof. intros HN. unfold scattering_J. rewrite decide_False by exact HN. reflexivity. Qed.

Lemma extract_time_scattering_empty (L : libs) (duration sr : nat)
    (scat : vec -> outcome mat) :
  (duration * sr <> 0)%nat ->
  Scattering1D L (duration * sr) (Z.log2 (Z.of_nat (duration * sr)) - 1) = Ok scat ->
  torch_cuda L = Ok () ->
  extract_time_scattering L [] duration sr = Raise IndexError.
Proof.
  intros HN Hscat Hcuda. unfold extract_time_scattering.
  rewrite scattering_J_Ok by exact HN. cbn [mbind outcome_bind].
  rewrite Hscat. cbn [mbind outcome_bind]. rewrite Hcuda. reflexivity.
Qed.

(** X7.  On an audio array without rows, [extract_mfcc] returns an empty
    table, whereas the time-scattering, JTFS and STRF extractors raise
    [IndexError] at [X[0]] as soon as their set-up has succeeded. *)
Theorem extractors_on_no_sample (L : libs) (duration sr : nat) :
  (0 < duration * sr)%nat ->
  let N := (duration * sr)%nat in
  let J := (Z.log2 (Z.of_nat N) - 1)%Z in
  extract_mfcc L [] [] [] [] sr 20 = Ok []
  /\ (torch_cuda L = Ok () ->
      (forall scat, Scattering1D L N J = Ok scat ->
         extract_time_scattering L [] duration sr = Raise IndexError)
      /\ (forall jtfs, TimeFrequencyScattering1D L N J = Ok jtfs ->
            extract_jtfs L [] duration sr = Raise IndexError))
  /\ (forall strf, import_auditory L = Ok strf ->
        extract_strf L [] duration sr = Raise IndexError).
Proof.
  intros HN N J. split; [reflexivity|]. split.
  - intros Hcuda. split.
    + intros scat Hscat.
      apply (extract_time_scattering_empty L duration sr scat); [lia | exact Hscat | exact Hcuda].
    + intros jtfs Hjtfs. unfold extract_jtfs.
      rewrite scattering_J_Ok by lia. cbn [mbind outcome_bind].
      fold N J. rewrite Hjtfs. cbn [mbind outcome_bind]. rewrite Hcuda. reflexivity.
  - intros strf Hstrf. unfold extract_strf. rewrite Hstrf. reflexivity.
Qed.

Lemma extractors_on_no_sample_witness :
  extract_mfcc constant_libs [] [] [] [] 4 20 = Ok []
  /\ extract_time_scattering constant_libs [] 1 4 = Raise IndexError
  /\ extract_jtfs constant_libs [] 1 4 = Raise IndexError
  /\ extract_strf constant_libs [] 1 4 = Raise IndexError.
Proof.
  destruct (extractors_on_no_sample constant_libs 1 4) as (H1 & H2 & H3).
  - simpl. lia.
  - destruct (H2 eq_refl) as [Hts Hjtfs].
    split; [exact H1|].
    split; [apply (Hts (fun _ => Ok [[0]])); reflexivity|].
    split; [apply (Hjtfs (fun _ => Ok [[[0]]])); reflexivity|].
    apply (H3 (fun _ _ _ => Ok ([[[0]]], [[0]]))). reflexivity.
Defined.

Lemma concat_length_uniform {A : Type} (m : list (list A)) (r c : nat) :
  length <$> m = replicate r c -> length (concat m) = (r * c)%nat.
Proof.
  revert r. induction m as [|row m IH]; intros [|r] H; try discriminate;
    [reflexivity|].
  rewrite fmap_cons in H. simpl in H. injection H as Hrow Hm.
  simpl. rewrite length_app, Hrow, (IH r Hm). reflexivity.
Qed.

(** X8.  The tables returned by the time-scattering, JTFS and STRF
    extractors are rectangular: one row per waveform, each as long as the
    coefficients computed for the first waveform. *)
Theorem feature_tables_are_rectangular (L : libs) (audio : mat)
    (duration sr : nat) :
  (forall table, extract_time_scattering L audio duration sr = Ok table ->
     exists J scat x0 s0,
       scattering_J (duration * sr) = Ok J
       /\ Scattering1D L (duration * sr) J = Ok scat
       /\ audio !! 0%nat = Some x0 /\ scat x0 = Ok s0
       /\ has_shape2 table (length audio) (length s0))
  /\ (forall table, extract_jtfs L audio duration sr = Ok table ->
        exists J jtfs x0 s0,
          scattering_J (duration * sr) = Ok J
          /\ TimeFrequencyScattering1D L (duration * sr) J = Ok jtfs
          /\ audio !! 0%nat = Some x0 /\ jtfs x0 = Ok s0
          /\ has_shape2 table (length audio) (length (nth 0 s0 [])))
  /\ (forall table, extract_strf L audio duration sr = Ok table ->
        exists strf x0 S0 F0,
          import_auditory L = Ok strf
          /\ audio !! 0%nat = Some x0 /\ strf x0 sr duration = Ok S0
          /\ strf_features S0 = Ok F0
          /\ has_shape2 table (length audio)
               (length F0 * length (nth 0 F0 []))).
Proof.
  split; [|split].
  - unfold extract_time_scattering. intros ts H.
    apply bind_Ok in H as (J & HJ & H).
    apply bind_Ok in H as (scat & Hscat & H).
    apply bind_Ok in H as (u & _ & H).
    apply bind_Ok in H as (x0 & Hx0 & H).
    apply bind_Ok in H as (s0 & Hs0 & H).
    exists J, scat, x0, s0.
    split; [exact HJ|]. split; [exact Hscat|].
    split; [apply getitem_Ok; exact Hx0|]. split; [exact Hs0|].
    match type of H with
    | for_each _ ?body _ = _ =>
        pose proof (for_each_seq_fill
          (fun sx : mat => Forall (fun r => length r = length s0) sx)
          (fun _ _ => True) body) as Hfill
    end.
    edestruct Hfill as (Hall & Hlen & _ & _); [| | exact H |].
    + clear. intros i sx sx' HI Hbody.
      apply bind_Ok in Hbody as (xi & Hxi & Hbody).
      apply bind_Ok in Hbody as (s & Hs & Hbody).
      apply bind_Ok in Hbody as (col & Hcol & Hbody).
      apply setitem_row_Ok in Hbody as (old & v & Hold & -> & Hv & Hcase).
      exists v. split; [reflexivity|].
      split; [eapply lookup_lt_Some; exact Hold|]. split; [exact I|].
      pose proof (proj1 (Forall_lookup _ _) HI i old Hold) as Holdlen.
      apply Forall_insert; [exact HI | congruence].
    + unfold zeros2. apply Forall_replicate. apply length_replicate.
    + unfold zeros2 in Hlen. rewrite length_replicate in Hlen.
      split; [exact Hlen | exact Hall].
  - unfold extract_jtfs. intros table H.
    apply bind_Ok in H as (J & HJ & H).
    apply bind_Ok in H as (jtfs & Hjtfs & H).
    apply bind_Ok in H as (u & _ & H).
    apply bind_Ok in H as (x0 & Hx0 & H).
    apply bind_Ok in H as (s0 & Hs0 & H).
    exists J, jtfs, x0, s0.
    split; [exact HJ|]. split; [exact Hjtfs|].
    split; [apply getitem_Ok; exact Hx0|]. split; [exact Hs0|].
    match type of H with
    | for_each _ ?body _ = _ =>
        pose proof (for_each_seq_fill
          (fun sx : mat => Forall (fun r => length r = length (nth 0 s0 [])) sx)
          (fun _ _ => True) body) as Hfill
    end.
    edestruct Hfill as (Hall & Hlen & _ & _); [| | exact H |].
    + clear. intros i sx sx' HI Hbody.
      apply bind_Ok in Hbody as (xi & Hxi & Hbody).
      apply bind_Ok in Hbody as (s & Hs & Hbody).
      apply bind_Ok in Hbody as (v0 & Hv0 & Hbody).
      destruct v0 as [|first [|second v0]]; try discriminate.
      apply setitem_row_Ok in Hbody as (old & v & Hold & -> & Hv & Hcase).
      exists v. split; [reflexivity|].
      split; [eapply lookup_lt_Some; exact Hold|]. split; [exact I|].
      pose proof (proj1 (Forall_lookup _ _) HI i old Hold) as Holdlen.
      apply Forall_insert; [exact HI | congruence].
    + unfold zeros2. apply Forall_replicate. apply length_replicate.
    + unfold zeros2 in Hlen. rewrite length_replicate in Hlen.
      split; [exact Hlen | exact Hall].
  - unfold extract_strf. intros table H.
    apply bind_Ok in H as (strf & Hstrf & H).
    apply bind_Ok in H as (x0 & Hx0 & H).
    apply bind_Ok in H as (S0 & HS0 & H).
    apply bind_Ok in H as (F0 & HF0 & H).
    apply bind_Ok in H as (sx & Hloop & H).
    injection H as <-.
    exists strf, x0, S0, F0.
    split; [exact Hstrf|]. split; [apply getitem_Ok; exact Hx0|].
    split; [exact HS0|]. split; [exact HF0|].
    match type of Hloop with
    | for_each _ ?body _ = _ =>
        pose proof (for_each_seq_fill
          (fun sx : tens3 =>
             Forall (fun S : mat =>
                       length <$> S
                       = replicate (length F0) (length (nth 0 F0 []))) sx)
          (fun _ _ => True) body) as Hfill
    end.
    edestruct Hfill as (Hall & Hlen & _ & _); [| | exact Hloop |].
    + clear. intros i sx sx' HI Hbody.
      apply bind_Ok in Hbody as (xi & Hxi & Hbody).
      apply bind_Ok in Hbody as (S & HS & Hbody).
      apply bind_Ok in Hbody as (F & HF & Hbody).
      apply bind_Ok in Hbody as (old & Hold & Hbody).
      destruct (bool_decide _) eqn:Hshape in Hbody; [|discriminate].
      apply bool_decide_eq_true in Hshape.
      injection Hbody as <-. exists F. split; [reflexivity|].
      split; [eapply lookup_lt_Some; apply getitem_Ok; exact Hold|].
      split; [exact I|].
      apply Forall_insert; [exact HI | exact Hshape].
    + apply Forall_replicate. rewrite fmap_replicate, length_replicate.
      reflexivity.
    + rewrite length_replicate in Hlen.
      split; [rewrite length_map; exact Hlen|].
      apply Forall_forall. intros row Hrow.
      apply list_elem_of_In, in_map_iff in Hrow as (S & <- & HS).
      apply concat_length_uniform.
      apply (proj1 (Forall_forall _ _) Hall S), list_elem_of_In. exact HS.
Qed.

Lemma feature_tables_are_rectangular_witness :
  exists table,
    extract_strf constant_libs [[1; 2]; [3; 4]] 1 2 = Ok table
    /\ has_shape2 table 2 2.
Proof.
  destruct (feature_tables_are_rectangular constant_libs [[1; 2]; [3; 4]] 1 2)
    as (_ & _ & Hstrf).
  assert (Hrun : exists table,
            extract_strf constant_libs [[1; 2]; [3; 4]] 1 2 = Ok table)
    by (eexists; reflexivity).
  destruct Hrun as [table Hrun]. exists table. split; [exact Hrun|].
  destruct (Hstrf table Hrun)
    as (strf & x0 & S0 & F0 & H1 & H2 & H3 & H4 & Hshape).
  injection H1 as <-. simpl in H3. injection H3 as <-.
  assert (HF : (length F0 * length (nth 0 F0 []))%nat = 2%nat).
  { assert (E : Ok F0 = strf_features ([[[0]]], [[0]])) by (symmetry; exact H4).
    vm_compute in E. injection E as ->. reflexivity. }
  rewrite HF in Hshape. exact Hshape.
Defined.

(** ** [extract_openl3] and the STRF features *)

Lemma has_shape2_lengths {A : Type} (m : list (list A)) (r c : nat) :
  has_shape2 m r c -> length <$> m = replicate r c.
Proof.
  intros [<- Hrows]. induction Hrows as [|row m Hrow _ IH]; [reflexivity|].
  rewrite fmap_cons. simpl length. simpl replicate. f_equal; assumption.
Qed.

Lemma stack_mean_axis1_Ok (X : list mat) (T D : nat) :
  X <> [] -> (0 < T)%nat -> Forall (fun m => has_shape2 m T D) X ->
  exists table,
    stack_mean_axis1 X = Ok table
    /\ has_shape2 table (length X) D
    /\ forall i m d, X !! i = Some m -> (d < D)%nat ->
         exists row, table !! i = Some row
           /\ row !! d = Some (np.sum (map (fun frame => nth d frame 0) m) / INR T).
Proof.
  intros Hne HT Hall. unfold stack_mean_axis1.
  destruct X as [|first X']; [contradiction|].
  set (X := first :: X') in *.
  assert (Hcheck : forallb (fun m => bool_decide (length <$> m = length <$> first)) X
                   = true).
  { apply forallb_forall. intros m Hm. apply bool_decide_eq_true.
    pose proof (proj1 (Forall_forall _ _) Hall) as H.
    rewrite (has_shape2_lengths m T D) by (apply H, list_elem_of_In; exact Hm).
    rewrite (has_shape2_lengths first T D)
      by (apply H; unfold X; apply list_elem_of_here).
    reflexivity. }
  rewrite Hcheck. eexists. split; [reflexivity|].
  assert (Hrow0 : forall m, m ∈ X -> length (nth 0 m []) = D /\ length m = T).
  { intros m Hm. pose proof (proj1 (Forall_forall _ _) Hall m Hm) as [Hlen Hrows].
    split; [|exact Hlen].
    destruct m as [|r0 m']; [simpl in Hlen; lia|]. simpl.
    apply Forall_cons in Hrows as [H0 _]. exact H0. }
  split.
  - split; [apply length_map|].
    apply Forall_forall. intros row Hrow.
    apply list_elem_of_In, in_map_iff in Hrow as (m & <- & Hm).
    rewrite length_imap. apply Hrow0, list_elem_of_In. exact Hm.
  - intros i m d Hi Hd.
    change (map ?f X) with (f <$> X). rewrite list_lookup_fmap, Hi. simpl.
    eexists. split; [reflexivity|].
    destruct (Hrow0 m) as [HD HTm]; [eapply list_elem_of_lookup_2; exact Hi|].
    rewrite list_lookup_imap.
    destruct (nth 0 m [] !! d) as [x|] eqn:Hx.
    + simpl. rewrite HTm. reflexivity.
    + apply lookup_ge_None in Hx. lia.
Qed.

(** X9.  With [openl3] bound and embeddings of [T > 0] time frames by [D]
    dimensions, [extract_openl3] returns one row per embedding that the
    library returns, each the average of that embedding over its time
    frames, and leaves the world as it is; when the library returns no
    embedding, [np.stack] raises [ValueError]. *)
Theorem extract_openl3_time_average (audio : mat) (sr : nat) (w : world)
    (get_audio_embedding : openl3_module) (embeddings : list mat)
    (stamps : list vec) (T D : nat) :
  openl3 w = Some get_audio_embedding ->
  get_audio_embedding audio sr = Ok (embeddings, stamps) ->
  (0 < T)%nat -> Forall (fun m => has_shape2 m T D) embeddings ->
  (embeddings = [] ->
   extract_openl3 audio sr w
   = (Raise (ValueError "need at least one array to stack"), w))
  /\ (embeddings <> [] ->
      exists table,
        extract_openl3 audio sr w = (Ok table, w)
        /\ has_shape2 table (length embeddings) D
        /\ forall i m d, embeddings !! i = Some m -> (d < D)%nat ->
             exists row, table !! i = Some row
               /\ row !! d
                  = Some (np.sum (map (fun frame => nth d frame 0) m) / INR T)).
Proof.
  intros Hbound Hcall HT Hall. unfold extract_openl3. rewrite Hbound, Hcall.
  cbn [mbind outcome_bind fst]. split.
  - intros ->. reflexivity.
  - intros Hne.
    destruct (stack_mean_axis1_Ok embeddings T D Hne HT Hall)
      as (table & Htable & Hshape & Hrows).
    exists table. rewrite Htable. auto.
Qed.

Lemma extract_openl3_time_average_witness :
  exists table,
    extract_openl3 [[0]; [0]] 4
      (World "/home" ∅ ∅ []
         (Some (fun audio _ => Ok ((fun _ => [[1; 2]; [3; 6]]) <$> audio, [])))
         false)
    = (Ok table,
       World "/home" ∅ ∅ []
         (Some (fun audio _ => Ok ((fun _ => [[1; 2]; [3; 6]]) <$> audio, [])))
         false)
    /\ has_shape2 table 2 2
    /\ exists row, table !! 1%nat = Some row
         /\ row !! 1%nat = Some (np.sum [2; 6] / INR 2).
Proof.
  destruct (extract_openl3_time_average [[0]; [0]] 4
              (World "/home" ∅ ∅ []
                 (Some (fun audio _ => Ok ((fun _ => [[1; 2]; [3; 6]]) <$> audio, [])))
                 false)
              (fun audio _ => Ok ((fun _ => [[1; 2]; [3; 6]]) <$> audio, []))
              [[[1; 2]; [3; 6]]; [[1; 2]; [3; 6]]] [] 2 2)
    as [_ Hrun].
  - reflexivity.
  - reflexivity.
  - lia.
  - repeat constructor.
  - destruct Hrun as (table & Hrun & Hshape & Hrows); [discriminate|].
    exists table. split; [exact Hrun|]. split; [exact Hshape|].
    apply (Hrows 1%nat [[1; 2]; [3; 6]] 1%nat); [reflexivity | lia].
Defined.

(** One time frame: the row of frequency [f] gets the value of the second
    output appended. *)
Lemma append_column_lookup (plane : mat) (col : vec) (F P f : nat) :
  has_shape2 plane F P -> length col = F -> (f < F)%nat ->
  length (nth f (zip_with (fun paths v => paths ++ [v]) plane col) []) = S P
  /\ nth P (nth f (zip_with (fun paths v => paths ++ [v]) plane col) []) 0
     = nth f col 0
  /\ forall p, (p < P)%nat ->
       nth p (nth f (zip_with (fun paths v => paths ++ [v]) plane col) []) 0
       = nth p (nth f plane []) 0.
Proof.
  intros [Hlen Hrows] Hcol Hf.
  revert col F f Hlen Hcol Hf.
  induction Hrows as [|row plane Hrow _ IH]; intros col F f Hlen Hcol Hf.
  - simpl in Hlen. lia.
  - destruct col as [|v col]; [simpl in Hcol; lia|].
    destruct f as [|f]; simpl.
    + split; [rewrite length_app; simpl; lia|].
      split.
      * rewrite app_nth2 by lia. rewrite Hrow, Nat.sub_diag. reflexivity.
      * intros p Hp. apply app_nth1. lia.
    + simpl in Hlen, Hcol. apply (IH col (length plane) f); [reflexivity | lia | lia].
Qed.

Lemma append_column_length (plane : mat) (col : vec) (F P : nat) :
  has_shape2 plane F P -> length col = F ->
  has_shape2 (zip_with (fun paths v => paths ++ [v]) plane col) F (S P).
Proof.
  intros [Hlen Hrows] Hcol. split.
  - rewrite length_zip_with. lia.
  - revert col F Hlen Hcol. induction Hrows as [|row plane Hrow _ IH];
      intros col F Hlen Hcol; [constructor|].
    destruct col as [|v col]; [constructor|]. simpl. constructor.
    + rewrite length_app. simpl. lia.
    + simpl in Hlen, Hcol. apply (IH col (length plane)); [reflexivity | lia].
Qed.

Lemma fmap_constant {A B : Type} (g : A -> B) (l : list A) (c : B) :
  Forall (fun x => g x = c) l -> g <$> l = replicate (length l) c.
Proof.
  induction 1 as [|x l Hx _ IH]; [reflexivity|].
  rewrite fmap_cons, Hx, IH. reflexivity.
Qed.

Lemma map_ext_Forall2 {A B C : Type} (g : A -> C) (h : B -> C) (l : list A)
    (k : list B) :
  Forall2 (fun x y => g x = h y) l k -> map g l = map h k.
Proof. induction 1 as [|x y l k Hxy _ IH]; simpl; [reflexivity|]. rewrite Hxy, IH. reflexivity. Qed.

Lemma mean_axis0_cons (first : mat) (rest : tens3) :
  mean_axis0 (first :: rest)
  = imap (fun f row0 =>
      imap (fun p _ =>
        np.sum (map (fun plane => nth p (nth f plane []) 0) (first :: rest))
        / INR (length (first :: rest))) row0) first.
Proof. reflexivity. Qed.

(** X10.  The reshaping of one [auditory.strf] result (lines 126 to 129
    and 135 to 138): the second output is appended to the first as one more
    column, and the whole is averaged over the time frames.  For [T > 0]
    frames, [F] frequencies and [P] paths the result has [F] rows of
    [P + 1] values. *)
Theorem strf_features_append_and_average (S1 : tens3) (S2 : mat) (T F P : nat) :
  (0 < T)%nat -> length S1 = T ->
  Forall (fun plane => has_shape2 plane F P) S1 ->
  has_shape2 S2 T F ->
  exists features,
    strf_features (S1, S2) = Ok features
    /\ has_shape2 features F (S P)
    /\ forall f row, features !! f = Some row ->
         row !! P = Some (np.sum (map (fun frame => nth f frame 0) S2) / INR T)
         /\ forall p, (p < P)%nat ->
              row !! p
              = Some (np.sum (map (fun plane => nth p (nth f plane []) 0) S1)
                      / INR T).
Proof.
  intros HT HS1 Hplanes HS2. unfold strf_features. cbn [fst snd].
  assert (Hcheck : (fun plane : mat => length plane) <$> S1
                   = (fun row : vec => length row) <$> S2).
  { rewrite (fmap_constant (fun plane : mat => length plane) S1 F)
      by (eapply Forall_impl; [exact Hplanes|]; intros plane [Hp _]; exact Hp).
    rewrite (fmap_constant (fun row : vec => length row) S2 F) by (apply HS2).
    rewrite HS1. destruct HS2 as [-> _]. reflexivity. }
  rewrite bool_decide_eq_true_2 by exact Hcheck. clear Hcheck.
  assert (HZ : Forall2 (fun plane z => exists col,
                 z = zip_with (fun paths v => paths ++ [v]) plane col
                 /\ has_shape2 plane F P /\ length col = F) S1
                 (zip_with (zip_with (fun (paths : vec) (v : R) => paths ++ [v])) S1 S2)
               /\ Forall2 (fun col z => exists plane,
                    z = zip_with (fun paths v => paths ++ [v]) plane col
                    /\ has_shape2 plane F P /\ length col = F) S2
                    (zip_with (zip_with (fun (paths : vec) (v : R) => paths ++ [v])) S1 S2)).
  { destruct HS2 as [HT2 Hcols]. rewrite <- HS1 in HT2. clear HS1 HT.
    revert S2 HT2 Hcols. induction Hplanes as [|plane S1 Hp _ IH];
      intros [|col S2] HT2 Hcols; try discriminate; [split; constructor|].
    apply Forall_cons in Hcols as [Hcol Hcols]. simpl in HT2.
    destruct (IH S2 ltac:(lia) Hcols) as [IH1 IH2].
    split; constructor; eauto. }
  destruct HZ as [HZ1 HZ2].
  assert (HlenZ : length (zip_with (zip_with (fun (paths : vec) (v : R) => paths ++ [v]))
                            S1 S2) = T).
  { apply Forall2_length in HZ1. lia. }
  destruct (zip_with _ S1 S2) as [|first Z'] eqn:EZ; [simpl in HlenZ; lia|].
  exists (mean_axis0 (first :: Z')). split; [reflexivity|].
  rewrite mean_axis0_cons.
  remember (first :: Z') as Z eqn:HeqZ.
  assert (Hfirst : has_shape2 first F (S P)).
  { rewrite HeqZ in HZ2. destruct S2 as [|col S2]; [inversion HZ2|].
    apply Forall2_cons in HZ2 as [(plane & -> & Hp & Hcol) _].
    apply append_column_length; assumption. }
  split.
  { destruct Hfirst as [HF Hrows]. split; [rewrite length_imap; exact HF|].
    apply Forall_lookup. intros f row Hrow.
    rewrite list_lookup_imap in Hrow.
    destruct (first !! f) as [row0|] eqn:Hrow0; [|discriminate].
    simpl in Hrow. injection Hrow as <-. rewrite length_imap.
    apply (proj1 (Forall_lookup _ _) Hrows f row0 Hrow0). }
  intros f row Hrow.
  rewrite list_lookup_imap in Hrow.
  destruct (first !! f) as [row0|] eqn:Hrow0; [|discriminate].
  cbv [fmap option_fmap option_map] in Hrow. injection Hrow as <-.
  assert (Hf : (f < F)%nat).
  { destruct Hfirst as [<- _]. eapply lookup_lt_Some. exact Hrow0. }
  assert (Hrow0len : length row0 = S P).
  { destruct Hfirst as [_ Hrows]. apply (proj1 (Forall_lookup _ _) Hrows f row0 Hrow0). }
  rewrite HlenZ.
  split.
  - rewrite list_lookup_imap.
    destruct (row0 !! P) as [x|] eqn:Hx; [|apply lookup_ge_None in Hx; lia].
    cbv [fmap option_fmap option_map]. do 3 f_equal. symmetry.
    apply map_ext_Forall2.
    eapply Forall2_impl; [exact HZ2|].
    intros col z (plane & -> & Hp & Hcol). symmetry.
    apply (append_column_lookup plane col F P f Hp Hcol Hf).
  - intros p Hp. rewrite list_lookup_imap.
    destruct (row0 !! p) as [x|] eqn:Hx; [|apply lookup_ge_None in Hx; lia].
    cbv [fmap option_fmap option_map]. do 3 f_equal. symmetry.
    apply map_ext_Forall2.
    eapply Forall2_impl; [exact HZ1|].
    intros plane z (col & -> & Hshape & Hcol). symmetry.
    apply (append_column_lookup plane col F P f Hshape Hcol Hf). exact Hp.
Qed.

Lemma strf_features_append_and_average_witness :
  exists features row,
    strf_features ([[[1; 2]]; [[3; 4]]], [[10]; [20]]) = Ok features
    /\ features !! 0%nat = Some row
    /\ row !! 2%nat = Some (np.sum [10; 20] / INR 2).
Proof.
  destruct (strf_features_append_and_average [[[1; 2]]; [[3; 4]]] [[10]; [20]] 2 1 2)
    as (features & Hrun & [Hlen _] & Hrows).
  - lia.
  - reflexivity.
  - repeat constructor.
  - repeat constructor.
  - destruct features as [|row features]; [discriminate|].
    exists (row :: features), row. split; [exact Hrun|]. split; [reflexivity|].
    apply (Hrows 0%nat row eq_refl).
Defined.

(** ** [plot_isomap] *)

Lemma lift_bind {A B : Type} (o : outcome A) (f : A -> M B) (w : world) :
  (lift o ≫= f) w = match o with Ok a => f a w | Raise e => (Raise e, w) end.
Proof. destruct o; reflexivity. Qed.

Lemma traverse_raise {A B : Type} (f : A -> outcome B) (l : list A) (e : exn) :
  traverse f l = Raise e -> exists x, x ∈ l /\ f x = Raise e.
Proof.
  induction l as [|x l IH]; simpl; [discriminate|].
  destruct (f x) as [y|e'] eqn:Hx; cbn [mbind outcome_bind].
  - destruct (traverse f l) as [ys|e'] eqn:Hl; cbn [mbind outcome_bind];
      [discriminate|].
    intros H. injection H as <-. destruct (IH eq_refl) as (x' & Hin & Hx').
    exists x'. split; [apply list_elem_of_further; exact Hin | exact Hx'].
  - intros H. injection H as <-. exists x.
    split; [apply list_elem_of_here | exact Hx].
Qed.

Lemma column_raise {A : Type} (m : list (list A)) (c : nat) (e : exn) :
  column m c = Raise e -> e = IndexError.
Proof.
  intros H. apply traverse_raise in H as (row & _ & H).
  unfold getitem in H. destruct (row !! c); [discriminate|]. congruence.
Qed.

Lemma column_short {A : Type} (m : list (list A)) (c : nat) :
  Exists (fun row => (length row <= c)%nat) m -> column m c = Raise IndexError.
Proof.
  intros H. destruct (column m c) as [col|e] eqn:Hc.
  - apply traverse_Ok in Hc. apply Exists_exists in H as (row & Hin & Hlen).
    apply list_elem_of_lookup in Hin as [i Hi].
    destruct (Forall2_lookup_l _ _ _ _ _ Hc Hi) as (y & _ & Hy).
    apply getitem_Ok, lookup_lt_Some in Hy. lia.
  - f_equal. eapply column_raise. exact Hc.
Qed.

(** X11.  [plot_isomap] writes all or nothing: when it raises, the world
    is unchanged; when it returns, [Y] has at least three columns, the
    parameter map at least three rows, and the only change is the file
    [<out_dir>/isomap.png].  An embedding with a row of fewer than three
    columns raises [IndexError]. *)
Theorem plot_isomap_all_or_nothing (L : libs) (Y cmap : mat) (out_dir : string)
    (w : world) :
  let run := plot_isomap L Y cmap out_dir w in
  (forall e, run.1 = Raise e -> run.2 = w)
  /\ (run.1 = Ok () ->
      Forall (fun row => (3 <= length row)%nat) Y /\ (3 <= length cmap)%nat
      /\ fs_files run.2 = fs_files w ∪ {[ path_join out_dir "isomap.png" ]}
      /\ trace run.2 = trace w ++ [EvSavefig (path_join out_dir "isomap.png")])
  /\ (Exists (fun row => (length row < 3)%nat) Y -> run = (Raise IndexError, w)).
Proof.
  intros run. unfold run, plot_isomap.
  rewrite ?lift_bind; cbv beta iota.
  destruct (column Y 0) as [y0|e0] eqn:H0.
  2:{ apply column_raise in H0 as ->. simpl. repeat split; try discriminate; auto. }
  rewrite ?lift_bind; cbv beta iota.
  destruct (column Y 1) as [y1|e1] eqn:H1.
  2:{ apply column_raise in H1 as ->. simpl. repeat split; try discriminate; auto. }
  rewrite ?lift_bind; cbv beta iota.
  destruct (column Y 2) as [y2|e2] eqn:H2.
  2:{ apply column_raise in H2 as ->. simpl. repeat split; try discriminate; auto. }
  assert (HY : Forall (fun row => (3 <= length row)%nat) Y).
  { apply Forall_forall. intros row Hrow.
    apply traverse_Ok in H2. apply list_elem_of_lookup in Hrow as [i Hi].
    destruct (Forall2_lookup_l _ _ _ _ _ H2 Hi) as (y & _ & Hy).
    apply getitem_Ok, lookup_lt_Some in Hy. exact Hy. }
  assert (Hshort : Exists (fun row => (length row < 3)%nat) Y -> False).
  { intros H. apply Exists_exists in H as (row & Hin & Hlen).
    pose proof (proj1 (Forall_forall _ _) HY row Hin) as H3. simpl in H3. lia. }
  rewrite ?lift_bind; cbv beta iota.
  destruct (getitem cmap 0) as [c0|e] eqn:Hc0;
    [|simpl; split; [auto|]; split; [discriminate | intros H; destruct (Hshort H)]].
  rewrite ?lift_bind; cbv beta iota.
  destruct (scatter3D L y0 y1 y2 c0) as [[]|e];
    [|simpl; split; [auto|]; split; [discriminate | intros H; destruct (Hshort H)]].
  rewrite ?lift_bind; cbv beta iota.
  destruct (getitem cmap 1) as [c1|e] eqn:Hc1;
    [|simpl; split; [auto|]; split; [discriminate | intros H; destruct (Hshort H)]].
  rewrite ?lift_bind; cbv beta iota.
  destruct (scatter3D L y0 y1 y2 c1) as [[]|e];
    [|simpl; split; [auto|]; split; [discriminate | intros H; destruct (Hshort H)]].
  rewrite ?lift_bind; cbv beta iota.
  destruct (getitem cmap 2) as [c2|e] eqn:Hc2;
    [|simpl; split; [auto|]; split; [discriminate | intros H; destruct (Hshort H)]].
  rewrite ?lift_bind; cbv beta iota.
  destruct (scatter3D L y0 y1 y2 c2) as [[]|e];
    [|simpl; split; [auto|]; split; [discriminate | intros H; destruct (Hshort H)]].
  simpl. split; [discriminate|]. split; [|intros H; destruct (Hshort H)].
  intros _. split; [exact HY|]. split; [|split; reflexivity].
  apply getitem_Ok, lookup_lt_Some in Hc2. lia.
Qed.

(** ** [plot_knn_regression] *)

Lemma column_Ok_length {A : Type} (m : list (list A)) (c : nat) (col : list A) :
  column m c = Ok col -> Forall (fun row => (c < length row)%nat) m.
Proof.
  intros H. apply traverse_Ok in H. apply Forall_lookup. intros i row Hi.
  destruct (Forall2_lookup_l _ _ _ _ _ H Hi) as (y & _ & Hy).
  apply getitem_Ok, lookup_lt_Some in Hy. exact Hy.
Qed.

Lemma for_each_unit_Forall {A : Type} (P : A -> Prop) (xs : list A)
    (body : A -> unit -> outcome unit) :
  (forall x, body x () = Ok () -> P x) ->
  for_each xs body () = Ok () -> Forall P xs.
Proof.
  intros Hbody. induction xs as [|x xs IH]; intros H; [constructor|].
  simpl in H. apply bind_Ok in H as ([] & Hx & H).
  constructor; [apply Hbody; exact Hx | apply IH; exact H].
Qed.

Lemma enumerate_from_snd {A : Type} (i : nat) (l : list A) :
  (enumerate_from i l).*2 = l.
Proof.
  revert i. induction l as [|x l IH]; intros i; [reflexivity|].
  cbn [enumerate_from]. rewrite fmap_cons. cbn [snd]. f_equal. apply IH.
Qed.

(** X21.  [plot_knn_regression] writes all or nothing too: when it raises,
    the world is unchanged, and it raises [IndexError] on an empty
    dictionary of ratios; when it returns, every row of every ratio table
    has at least three columns and the only change is the file
    [<out_dir>/knn.png]. *)
Theorem plot_knn_regression_all_or_nothing (L : libs)
    (ratios : list (string * list (list npfloat))) (out_dir : string)
    (w : world) :
  let run := plot_knn_regression L ratios out_dir w in
  (forall e, run.1 = Raise e -> run.2 = w)
  /\ (ratios = [] -> run = (Raise IndexError, w))
  /\ (run.1 = Ok () ->
      ratios <> []
      /\ Forall (fun kv => Forall (fun row => (3 <= length row)%nat) kv.2) ratios
      /\ fs_files run.2 = fs_files w ∪ {[ path_join out_dir "knn.png" ]}
      /\ trace run.2 = trace w ++ [EvSavefig (path_join out_dir "knn.png")]).
Proof.
  intros run. unfold run, plot_knn_regression.
  rewrite lift_bind.
  destruct ratios as [|first ratios'].
  { simpl. split; [auto|]. split; [reflexivity | discriminate]. }
  set (ratios := first :: ratios'). change (getitem ratios 0) with (Ok first : outcome _).
  cbv beta iota. rewrite lift_bind.
  destruct (column first.2 0) as [col0|e0];
    [|simpl; split; [auto|]; split; discriminate].
  cbv beta iota. rewrite lift_bind.
  destruct (for_each (enumerate ratios) _ ()) as [[]|e] eqn:Hloop;
    [|simpl; split; [auto|]; split; discriminate].
  simpl. split; [discriminate|]. split; [discriminate|].
  intros _. split; [discriminate|]. split; [|split; reflexivity].
  apply for_each_unit_Forall
    with (P := fun ikv : nat * (string * list (list npfloat)) =>
                 Forall (fun row => (3 <= length row)%nat) ikv.2.2) in Hloop.
  - unfold enumerate in Hloop.
    rewrite <- (enumerate_from_snd 0 ratios). apply Forall_fmap. exact Hloop.
  - intros [i [name ratio]] Hbody. simpl in *.
    apply bind_Ok in Hbody as ([] & H0 & Hbody).
    apply bind_Ok in Hbody as ([] & H1 & Hbody).
    apply bind_Ok in Hbody as ([] & H2 & _).
    apply bind_Ok in H2 as (col & Hcol & _).
    apply column_Ok_length in Hcol. exact Hcol.
Qed.

(** ** Recovery ratios at the extremes *)

Lemma np_prod_replicate (k : nat) (v : R) : np_prod (replicate k v) = v ^ k.
Proof. induction k as [|k IH]; simpl; [reflexivity|]. unfold np_prod in *. simpl. rewrite IH. reflexivity. Qed.

Lemma geometric_mean_replicate (k : nat) (v : R) :
  (0 < k)%nat -> 0 < v -> geometric_mean (replicate k v) = v.
Proof.
  intros Hk Hv. unfold geometric_mean.
  rewrite np_prod_replicate, length_replicate.
  unfold Rpower. rewrite ln_pow by exact Hv.
  assert (Hk' : INR k <> 0) by (apply not_0_INR; lia).
  replace (/ INR k * (INR k * ln v)) with (ln v) by (field; exact Hk').
  apply exp_ln. exact Hv.
Qed.

Lemma Forall2_lookup_constant (row : vec) (nb : list nat) (vals : vec) (own : R) :
  Forall (fun j => row !! j = Some own) nb ->
  Forall2 (fun j v => row !! j = Some v) nb vals ->
  vals = replicate (length nb) own.
Proof.
  intros Hnb H. induction H as [|j v nb vals Hj _ IH]; [reflexivity|].
  apply Forall_cons in Hnb as [Hown Hnb]. simpl.
  rewrite <- (IH Hnb). f_equal. congruence.
Qed.

(** X12.  When every neighbour of sample [i] carries the same (positive)
    value of parameter [p] as the sample itself, the recovery ratio is
    exactly one, and its [log2], which is what the strip plot shows, is
    zero. *)
Theorem recovery_ratio_of_exact_neighbours (cmap : mat) (ind : list (list nat))
    (n : nat) (ratio : list (list npfloat)) (i p : nat) (row : vec)
    (nb : list nat) (own : R) :
  compute_ratios cmap ind n = Ok ratio ->
  (i < n)%nat -> ind !! i = Some nb -> nb <> [] ->
  cmap !! p = Some row -> row !! i = Some own -> 0 < own ->
  Forall (fun j => row !! j = Some own) nb ->
  exists r,
    ratio !! i = Some r /\ r !! p = Some (Fin 1) /\ np_log2 (Fin 1) = Fin 0.
Proof.
  intros Hratio Hi Hnb Hne Hrow Hown Hpos Hsame.
  apply compute_ratios_Ok in Hratio as [_ Hrows].
  destruct (Hrows i Hi) as (r & Hr & Hrr).
  apply ratio_row_Ok in Hrr as (nb' & Hnb' & _ & Hentries).
  assert (nb' = nb) by congruence. subst nb'.
  destruct (Hentries p row Hrow) as (vals & own' & Hvals & Hown' & Hrp).
  assert (own' = own) by congruence. subst own'.
  pose proof (Forall2_lookup_constant row nb vals own Hsame Hvals) as ->.
  exists r. split; [exact Hr|]. split.
  - rewrite Hrp. f_equal.
    rewrite exp_mean_log_pos.
    + rewrite geometric_mean_replicate; [| destruct nb; [contradiction | simpl; lia] | exact Hpos].
      rewrite np_div_pos by exact Hpos. f_equal. field. lra.
    + destruct nb; [contradiction | discriminate].
    + apply Forall_replicate. exact Hpos.
  - rewrite np_log2_pos by lra. rewrite ln_1. f_equal. unfold Rdiv. ring.
Qed.

Lemma recovery_ratio_of_exact_neighbours_witness :
  exists ratio r,
    compute_ratios [[3; 3; 5]; [1; 2; 2]] [[1%nat]; [0%nat]; [1%nat; 2%nat]] 3
    = Ok ratio
    /\ ratio !! 2%nat = Some r /\ r !! 1%nat = Some (Fin 1).
Proof.
  assert (Hrun : exists ratio,
            compute_ratios [[3; 3; 5]; [1; 2; 2]]
              [[1%nat]; [0%nat]; [1%nat; 2%nat]] 3 = Ok ratio)
    by (eexists; reflexivity).
  destruct Hrun as [ratio Hrun]. exists ratio.
  destruct (recovery_ratio_of_exact_neighbours [[3; 3; 5]; [1; 2; 2]]
              [[1%nat]; [0%nat]; [1%nat; 2%nat]] 3 ratio 2 1 [1; 2; 2]
              [1%nat; 2%nat] 2 Hrun) as (r & Hr & Hrp & _).
  - lia.
  - reflexivity.
  - discriminate.
  - reflexivity.
  - reflexivity.
  - lra.
  - repeat constructor.
  - exists r. split; [exact Hrun|]. split; [exact Hr | exact Hrp].
Defined.

Lemma np_log_zero : np_log (Fin 0) = NInf.
Proof.
  unfold np_log. destruct (Rlt_dec 0 0); [lra|].
  destruct (Req_dec_T 0 0); [reflexivity | contradiction].
Qed.

Lemma np_log_pos (v : R) : 0 < v -> np_log (Fin v) = Fin (ln v).
Proof.
  intros Hv. unfold np_log. destruct (Rlt_dec 0 v); [reflexivity | contradiction].
Qed.

Lemma np_sum_log_nonneg (vals : vec) :
  Forall (fun v => 0 <= v) vals ->
  (Forall (fun v => 0 < v) vals
   /\ np_sum ((fun v => np_log (Fin v)) <$> vals) = Fin (np.sum (ln <$> vals)))
  \/ (Exists (fun v => v = 0) vals
      /\ np_sum ((fun v => np_log (Fin v)) <$> vals) = NInf).
Proof.
  induction 1 as [|v vals Hv _ IH].
  - left. split; [constructor | reflexivity].
  - rewrite fmap_cons.
    change (np_sum (np_log (Fin v) :: ((fun v => np_log (Fin v)) <$> vals)))
      with (np_add (np_log (Fin v)) (np_sum ((fun v => np_log (Fin v)) <$> vals))).
    destruct Hv as [Hpos|Hz].
    + rewrite np_log_pos by exact Hpos.
      destruct IH as [[Hall ->]|[Hex ->]].
      * left. split; [constructor; assumption | reflexivity].
      * right. split; [apply Exists_cons_tl; exact Hex | reflexivity].
    + subst v. rewrite np_log_zero.
      right. split; [apply Exists_cons_hd; reflexivity|].
      destruct IH as [[_ ->]|[_ ->]]; reflexivity.
Qed.

(** X13.  The degenerate ratios.  A sample without neighbours gets [NaN]
    for every parameter.  When the neighbours' values of a parameter are
    non-negative and one of them is zero, the ratio is zero and its [log2]
    is minus infinity. *)
Theorem recovery_ratio_degenerate (cmap : mat) (ind : list (list nat)) (i : nat)
    (r : list npfloat) (nb : list nat) :
  ratio_row cmap ind i = Ok r ->
  ind !! i = Some nb ->
  (nb = [] -> Forall (fun q => q = NaN) r)
  /\ (forall p row vals own,
        cmap !! p = Some row -> row !! i = Some own -> 0 < own ->
        Forall2 (fun j v => row !! j = Some v) nb vals ->
        Forall (fun v => 0 <= v) vals -> Exists (fun v => v = 0) vals ->
        r !! p = Some (Fin 0) /\ np_log2 (Fin 0) = NInf).
Proof.
  intros Hr Hnb.
  apply ratio_row_Ok in Hr as (nb' & Hnb' & Hlen & Hentries).
  assert (nb' = nb) by congruence. subst nb'.
  split.
  - intros ->. apply Forall_lookup. intros p q Hq.
    assert (Hp : (p < length cmap)%nat)
      by (rewrite <- Hlen; eapply lookup_lt_Some; exact Hq).
    apply lookup_lt_is_Some in Hp as [row Hrow].
    destruct (Hentries p row Hrow) as (vals & own & Hvals & _ & Hrp).
    apply Forall2_nil_inv_l in Hvals as ->.
    rewrite Hq in Hrp. injection Hrp as ->.
    unfold np_mean, np_sum. simpl. unfold np_div at 2.
    destruct (Req_dec_T 0 0) as [_|H]; [|contradiction].
    reflexivity.
  - intros p row vals own Hrow Hown Hpos Hvals Hnonneg Hzero.
    destruct (Hentries p row Hrow) as (vals' & own' & Hvals' & Hown' & Hrp).
    assert (own' = own) by congruence. subst own'.
    assert (vals' = vals).
    { clear -Hvals Hvals'. revert vals' Hvals'.
      induction Hvals as [|j v nb vals Hj _ IH]; intros vals' H.
      - apply Forall2_nil_inv_l in H. congruence.
      - apply Forall2_cons_inv_l in H as (v' & vals'' & Hj' & H & ->).
        f_equal; [congruence | apply IH; exact H]. }
    subst vals'.
    destruct (np_sum_log_nonneg vals Hnonneg) as [[Hall _]|[_ Hsum]].
    { apply Exists_exists in Hzero as (v & Hin & ->).
      pose proof (proj1 (Forall_forall _ _) Hall 0 Hin). lra. }
    split.
    + rewrite Hrp. f_equal. unfold np_mean. rewrite Hsum, length_fmap.
      assert (Hk : (0 < length vals)%nat).
      { destruct vals; [inversion Hzero | simpl; lia]. }
      assert (HkR : 0 < INR (length vals)) by (apply lt_0_INR; exact Hk).
      unfold np_div at 2. destruct (Rlt_dec (INR (length vals)) 0); [lra|].
      unfold np_exp. rewrite np_div_pos by exact Hpos. f_equal.
      unfold Rdiv. ring.
    + unfold np_log2. destruct (Rlt_dec 0 0); [lra|].
      destruct (Req_dec_T 0 0); [reflexivity | contradiction].
Qed.

Lemma recovery_ratio_degenerate_witness :
  exists r,
    ratio_row [[0; 2]] [[]; [0%nat]] 1 = Ok r /\ r !! 0%nat = Some (Fin 0).
Proof.
  assert (Hrun : exists r, ratio_row [[0; 2]] [[]; [0%nat]] 1 = Ok r)
    by (eexists; reflexivity).
  destruct Hrun as [r Hrun]. exists r. split; [exact Hrun|].
  destruct (recovery_ratio_degenerate [[0; 2]] [[]; [0%nat]] 1 r [0%nat] Hrun eq_refl)
    as [_ Hzero].
  apply (Hzero 0%nat [0; 2] [0] 2).
  - reflexivity.
  - reflexivity.
  - lra.
  - repeat constructor.
  - apply Forall_cons. split; [lra | constructor].
  - apply Exists_cons_hd. reflexivity.
Defined.

(** ** The events of a run of [run_isomaps] *)

Lemma dict_get_cons {V : Type} (k key : string) (v : V) (d : list (string * V)) :
  dict_get ((k, v) :: d) key = if decide (k = key) then Ok v else dict_get d key.
Proof.
  unfold dict_get. simpl. destruct (decide (k = key)) as [->|Hne].
  - reflexivity.
  - destruct (list_find _ d) as [[i kv]|]; reflexivity.
Qed.

Lemma without_makedirs_app (t1 t2 : list event) :
  without_makedirs (t1 ++ t2) = without_makedirs t1 ++ without_makedirs t2.
Proof. apply List.filter_app. Qed.

Lemma without_makedirs_os_makedirs (p : string) (exist_ok : bool) (w : world) :
  without_makedirs (trace (os_makedirs p exist_ok w).2) = without_makedirs (trace w).
Proof.
  unfold os_makedirs. destruct (decide (p ∈ fs_dirs w)); [reflexivity|].
  simpl. rewrite without_makedirs_app. simpl. apply app_nil_r.
Qed.

Lemma run_isomaps_loop_events (L : libs) (X : list (string * mat))
    (cmap : mat) (out_dir : string) (n_neighbors : nat)
    (done todo : list (string * mat)) :
  X = done ++ todo -> NoDup X.*1 ->
  forall acc ratios w w',
    for_each_M todo.*1 (run_isomaps_feat L X cmap out_dir n_neighbors) acc w
    = (Ok ratios, w') ->
    without_makedirs (trace w')
    = without_makedirs (trace w)
      ++ concat ((fun kv : string * mat =>
                    [EvIsomapFit n_neighbors (length kv.2);
                     EvSavefig (path_join (path_join out_dir kv.1) "isomap.png")])
                 <$> todo).
Proof.
  revert done. induction todo as [|[feat table] todo IH];
    intros done HX Hnodup acc ratios w w' Hrun.
  - simpl in Hrun. injection Hrun as _ <-. simpl. rewrite app_nil_r. reflexivity.
  - simpl in Hrun. apply M_bind_Ok in Hrun as (acc1 & w1 & Hstep & Hrest).
    apply run_isomaps_feat_Ok in Hstep
      as (ratio & ind & table' & (Y & model & dist & Hget & _) & _ & Hw1).
    assert (Htable : dict_get X feat = Ok table).
    { rewrite HX. clear -HX Hnodup. rewrite HX in Hnodup. clear HX.
      induction done as [|[k v] done IHd]; simpl.
      - apply dict_get_head.
      - rewrite dict_get_cons. simpl in Hnodup. apply NoDup_cons in Hnodup as [Hk Hnd].
        rewrite decide_False; [apply IHd; exact Hnd|].
        intros ->. apply Hk. rewrite fmap_app. apply elem_of_app. right.
        apply list_elem_of_here. }
    assert (table' = table) by congruence. subst table'.
    rewrite (IH (done ++ [(feat, table)]) ltac:(rewrite <- app_assoc; exact HX)
               Hnodup acc1 ratios w1 w' Hrest).
    rewrite Hw1. simpl trace. rewrite !without_makedirs_app.
    rewrite without_makedirs_os_makedirs. simpl. rewrite <- !app_assoc. reflexivity.
Qed.

(** X14.  The order of a run of [run_isomaps] that returns, directory
    creations apart: for every feature family, in the order of the
    dictionary, one fit of Isomap on all rows of its table with the given
    neighbour count, followed by the saving of its scatter figure; the
    strip plot [knn.png] is saved last. *)
Theorem run_isomaps_order_of_events (L : libs) (X : list (string * mat))
    (cmap : mat) (out_dir : string) (n_neighbors : nat) (w w' : world) :
  NoDup X.*1 ->
  run_isomaps L X cmap out_dir n_neighbors w = (Ok (), w') ->
  without_makedirs (trace w')
  = without_makedirs (trace w)
    ++ concat ((fun kv : string * mat =>
                  [EvIsomapFit n_neighbors (length kv.2);
                   EvSavefig (path_join (path_join out_dir kv.1) "isomap.png")])
               <$> X)
    ++ [EvSavefig (path_join out_dir "knn.png")].
Proof.
  intros Hnodup Hrun. unfold run_isomaps, run_isomaps_loop in Hrun.
  apply M_bind_Ok in Hrun as (ratios & w1 & Hloop & Hplot).
  apply plot_knn_regression_Ok in Hplot as [_ ->].
  simpl trace. rewrite without_makedirs_app.
  rewrite (run_isomaps_loop_events L X cmap out_dir n_neighbors [] X eq_refl Hnodup
             _ _ _ _ Hloop).
  simpl. rewrite <- app_assoc. reflexivity.
Qed.

Lemma run_isomaps_order_of_events_witness :
  exists w',
    run_isomaps constant_libs [("TS", [[0]; [0]]); ("MFCC", [[0]])]
      [[1; 2]; [3; 4]; [5; 6]] "/out" 1 (initial_world "/home") = (Ok (), w')
    /\ without_makedirs (trace w')
       = [EvIsomapFit 1 2; EvSavefig "/out/TS/isomap.png";
          EvIsomapFit 1 1; EvSavefig "/out/MFCC/isomap.png";
          EvSavefig "/out/knn.png"].
Proof.
  assert (Hrun : exists w',
            run_isomaps constant_libs [("TS", [[0]; [0]]); ("MFCC", [[0]])]
              [[1; 2]; [3; 4]; [5; 6]] "/out" 1 (initial_world "/home")
            = (Ok (), w')) by (eexists; vm_compute; reflexivity).
  destruct Hrun as [w' Hrun]. exists w'. split; [exact Hrun|].
  assert (Hnodup : NoDup [("TS", [[0]; [0]]); ("MFCC", [[0 : R]])].*1).
  { apply NoDup_cons. split; [|apply NoDup_singleton].
    intros H. apply list_elem_of_singleton in H. discriminate. }
  rewrite (run_isomaps_order_of_events _ _ _ _ _ _ _ Hnodup Hrun).
  reflexivity.
Defined.

(** ** What a run writes *)

Lemma writes_within_ret {A : Type} (P : gset string) (a : A) :
  writes_within P (mret a : M A).
Proof. intros w. simpl. set_solver. Qed.

Lemma writes_within_lift {A : Type} (P : gset string) (o : outcome A) :
  writes_within P (lift o).
Proof. intros w. simpl. set_solver. Qed.

Lemma writes_within_bind {A B : Type} (P : gset string) (m : M A) (f : A -> M B) :
  writes_within P m -> (forall a, writes_within P (f a)) ->
  writes_within P (m ≫= f).
Proof.
  intros Hm Hf w. unfold mbind, M_bind. specialize (Hm w).
  destruct (m w) as [[a|e] w1]; simpl in *; [|exact Hm].
  specialize (Hf a w1). set_solver.
Qed.

Lemma writes_within_weaken {A : Type} (P Q : gset string) (m : M A) :
  P ⊆ Q -> writes_within P m -> writes_within Q m.
Proof. intros HPQ Hm w. specialize (Hm w). set_solver. Qed.

Lemma writes_within_log_event (P : gset string) (ev : event) :
  writes_within P (log_event ev).
Proof. intros w. simpl. set_solver. Qed.

Lemma writes_within_os_makedirs (P : gset string) (p : string) (exist_ok : bool) :
  writes_within P (os_makedirs p exist_ok).
Proof.
  intros w. unfold os_makedirs. destruct (decide (p ∈ fs_dirs w)); simpl; set_solver.
Qed.

Lemma writes_within_plt_savefig (P : gset string) (p : string) :
  p ∈ P -> writes_within P (plt_savefig p).
Proof. intros Hp w. simpl. set_solver. Qed.

Lemma writes_within_run_isomaps_feat (L : libs) (X : list (string * mat))
    (cmap : mat) (out_dir : string) (n_neighbors : nat) (feat : string)
    (acc : list (string * list (list npfloat))) :
  writes_within {[ path_join (path_join out_dir feat) "isomap.png" ]}
    (run_isomaps_feat L X cmap out_dir n_neighbors feat acc).
Proof.
  unfold run_isomaps_feat, isomap_fit, plot_isomap.
  repeat first
    [ apply writes_within_bind; [| intros ?]
    | apply writes_within_lift
    | apply writes_within_ret
    | apply writes_within_log_event
    | apply writes_within_os_makedirs
    | apply writes_within_plt_savefig; set_solver ].
Qed.

Lemma writes_within_loop (L : libs) (X : list (string * mat))
    (cmap : mat) (out_dir : string) (n_neighbors : nat) (keys : list string) :
  forall acc,
    writes_within
      (list_to_set ((fun feat => path_join (path_join out_dir feat) "isomap.png")
                    <$> keys))
      (for_each_M keys (run_isomaps_feat L X cmap out_dir n_neighbors) acc).
Proof.
  induction keys as [|feat keys IH]; intros acc; simpl.
  - apply writes_within_ret.
  - apply writes_within_bind.
    + eapply writes_within_weaken; [|apply writes_within_run_isomaps_feat].
      set_solver.
    + intros acc'. eapply writes_within_weaken; [|apply IH]. set_solver.
Qed.

Lemma plot_knn_regression_raise (L : libs)
    (ratios : list (string * list (list npfloat))) (out_dir : string)
    (w : world) (e : exn) :
  (plot_knn_regression L ratios out_dir w).1 = Raise e ->
  (plot_knn_regression L ratios out_dir w).2 = w.
Proof.
  unfold plot_knn_regression.
  rewrite lift_bind. destruct (getitem ratios 0); [|reflexivity].
  rewrite lift_bind. destruct (column _ 0); [|reflexivity].
  rewrite lift_bind. destruct (for_each _ _ _); [|reflexivity].
  simpl. discriminate.
Qed.

Lemma append_suffix_inj (a b s t : string) :
  String.length s = String.length t -> a +:+ s = b +:+ t -> s = t.
Proof.
  intros Hlen Heq.
  assert (Hab : String.length a = String.length b).
  { apply (f_equal String.length) in Heq. rewrite !append_length in Heq. lia. }
  revert b Heq Hab. induction a as [|c a IH]; intros [|c' b] Heq Hab;
    try discriminate.
  - string_simpl_in Heq. exact Heq.
  - string_simpl_in Heq. injection Heq as _ Heq. apply (IH b Heq).
    simpl in Hab. lia.
Qed.

Lemma path_join_suffix (a b : string) :
  starts_with_sep b = false -> exists pre, path_join a b = pre +:+ b.
Proof.
  intros Hb. unfold path_join. rewrite Hb.
  destruct (bool_decide (a = "") || ends_with_sep a).
  - exists a. reflexivity.
  - exists (a +:+ "/"). rewrite append_assoc. reflexivity.
Qed.

Lemma knn_png_is_no_isomap_png (a b : string) :
  path_join a "knn.png" <> path_join b "isomap.png".
Proof.
  destruct (path_join_suffix a "knn.png" eq_refl) as [pa ->].
  destruct (path_join_suffix b "isomap.png" eq_refl) as [pb ->].
  intros Heq. change "isomap.png" with ("iso" +:+ "map.png") in Heq.
  rewrite <- append_assoc in Heq.
  apply append_suffix_inj in Heq; [discriminate | reflexivity].
Qed.

(** X15.  A run of [run_isomaps] that raises has written nothing but
    scatter figures of feature families: [knn.png] is written last, so it
    is only there if it was there before.  On an empty feature dictionary
    the run raises [IndexError] and leaves the world untouched. *)
Theorem run_isomaps_failure_writes_no_summary (L : libs)
    (X : list (string * mat)) (cmap : mat) (out_dir : string)
    (n_neighbors : nat) (w : world) (e : exn) :
  (run_isomaps L X cmap out_dir n_neighbors w).1 = Raise e ->
  let w' := (run_isomaps L X cmap out_dir n_neighbors w).2 in
  fs_files w'
  ⊆ fs_files w
    ∪ list_to_set ((fun feat => path_join (path_join out_dir feat) "isomap.png")
                   <$> X.*1)
  /\ (path_join out_dir "knn.png" ∈ fs_files w' ->
      path_join out_dir "knn.png" ∈ fs_files w)
  /\ (X = [] -> e = IndexError /\ w' = w).
Proof.
  intros Hraise w'.
  assert (Hbound : fs_files w'
            ⊆ fs_files w
              ∪ list_to_set
                  ((fun feat => path_join (path_join out_dir feat) "isomap.png")
                   <$> X.*1)).
  { unfold w', run_isomaps, run_isomaps_loop in *.
    pose proof (writes_within_loop L X cmap out_dir n_neighbors X.*1 [] w) as Hloop.
    unfold mbind at 1, M_bind at 1. unfold mbind at 1, M_bind at 1 in Hraise.
    destruct (for_each_M _ _ _ w) as [[ratios|e'] w1]; simpl in *; [|exact Hloop].
    rewrite (plot_knn_regression_raise L ratios out_dir w1 e Hraise). exact Hloop. }
  split; [exact Hbound|]. split.
  - intros Hin. apply Hbound in Hin. apply elem_of_union in Hin as [Hin|Hin];
      [exact Hin|].
    apply elem_of_list_to_set, list_elem_of_fmap in Hin as (feat & Heq & _).
    destruct (knn_png_is_no_isomap_png _ _ Heq).
  - intros ->. unfold w' in *. simpl in *. injection Hraise as <-. auto.
Qed.

Lemma run_isomaps_failure_writes_no_summary_witness :
  (run_isomaps strict_libs five_families one_sample_map "/out" 40
     (initial_world "/home")).1
  = Raise (ValueError "Expected n_neighbors <= n_samples")
  /\ fs_files (run_isomaps strict_libs five_families one_sample_map "/out" 40
                 (initial_world "/home")).2
     ⊆ fs_files (initial_world "/home")
       ∪ list_to_set ((fun feat => path_join (path_join "/out" feat) "isomap.png")
                      <$> five_families.*1).
Proof.
  assert (Hrun : (run_isomaps strict_libs five_families one_sample_map "/out" 40
                    (initial_world "/home")).1
                 = Raise (ValueError "Expected n_neighbors <= n_samples"))
    by (vm_compute; reflexivity).
  split; [exact Hrun|].
  destruct (run_isomaps_failure_writes_no_summary strict_libs five_families
              one_sample_map "/out" 40 (initial_world "/home")
              (ValueError "Expected n_neighbors <= n_samples") Hrun) as (H & _).
  exact H.
Defined.

Lemma world_blind_ret {A : Type} (a : A) : world_blind (mret a : M A).
Proof. intros w1 w2. reflexivity. Qed.

Lemma world_blind_lift {A : Type} (o : outcome A) : world_blind (lift o).
Proof. intros w1 w2. reflexivity. Qed.

Lemma world_blind_bind {A B : Type} (m : M A) (f : A -> M B) :
  world_blind m -> (forall a, world_blind (f a)) -> world_blind (m ≫= f).
Proof.
  intros Hm Hf w1 w2. unfold mbind, M_bind. specialize (Hm w1 w2).
  destruct (m w1) as [[a1|e1] w1'], (m w2) as [[a2|e2] w2']; simpl in Hm;
    try discriminate.
  - injection Hm as ->. apply Hf.
  - injection Hm as ->. reflexivity.
Qed.

Lemma world_blind_for_each_M {A S : Type} (xs : list A) (body : A -> S -> M S) :
  (forall x s, world_blind (body x s)) ->
  forall s, world_blind (for_each_M xs body s).
Proof.
  intros Hbody. induction xs as [|x xs IH]; intros s; simpl.
  - apply world_blind_ret.
  - apply world_blind_bind; [apply Hbody | exact IH].
Qed.

Lemma world_blind_log_event (ev : event) : world_blind (log_event ev).
Proof. intros w1 w2. reflexivity. Qed.

Lemma world_blind_os_makedirs_exist_ok (p : string) :
  world_blind (os_makedirs p true).
Proof.
  intros w1 w2. unfold os_makedirs.
  destruct (decide (p ∈ fs_dirs w1)), (decide (p ∈ fs_dirs w2)); reflexivity.
Qed.

Lemma world_blind_plt_savefig (p : string) : world_blind (plt_savefig p).
Proof. intros w1 w2. reflexivity. Qed.

Lemma world_blind_run_isomaps (L : libs) (X : list (string * mat)) (cmap : mat)
    (out_dir : string) (n_neighbors : nat) :
  world_blind (run_isomaps L X cmap out_dir n_neighbors).
Proof.
  unfold run_isomaps, run_isomaps_loop, run_isomaps_feat, isomap_fit,
    plot_isomap, plot_knn_regression.
  repeat first
    [ apply world_blind_bind; [| intros ?]
    | apply world_blind_for_each_M; intros ? ?
    | apply world_blind_lift
    | apply world_blind_ret
    | apply world_blind_log_event
    | apply world_blind_os_makedirs_exist_ok
    | apply world_blind_plt_savefig ].
Qed.

Lemma os_makedirs_existing (p : string) (w : world) :
  p ∈ fs_dirs w -> (os_makedirs p true w).2 = w.
Proof. intros Hp. unfold os_makedirs. rewrite decide_True by exact Hp. reflexivity. Qed.

Lemma run_isomaps_loop_keeps_dirs (L : libs) (X : list (string * mat))
    (cmap : mat) (out_dir : string) (n_neighbors : nat) (keys : list string) :
  forall acc ratios w w',
    (forall feat, feat ∈ keys -> path_join out_dir feat ∈ fs_dirs w) ->
    for_each_M keys (run_isomaps_feat L X cmap out_dir n_neighbors) acc w
    = (Ok ratios, w') ->
    fs_dirs w' = fs_dirs w.
Proof.
  induction keys as [|feat keys IH]; intros acc ratios w w' Hdirs Hrun.
  - simpl in Hrun. injection Hrun as _ <-. reflexivity.
  - simpl in Hrun. apply M_bind_Ok in Hrun as (acc1 & w1 & Hstep & Hrest).
    apply run_isomaps_feat_Ok in Hstep as (ratio & ind & table & _ & _ & Hw1).
    rewrite os_makedirs_existing in Hw1 by (apply Hdirs, list_elem_of_here).
    assert (Hsame : fs_dirs w1 = fs_dirs w) by (rewrite Hw1; reflexivity).
    rewrite (IH acc1 ratios w1 w' ); [exact Hsame | | exact Hrest].
    intros feat' Hin. rewrite Hsame. apply Hdirs, list_elem_of_further. exact Hin.
Qed.

(** X16.  [run_isomaps] can be run again on its own output: after a run
    that returned, a second run with the same arguments returns too, and
    neither adds a file nor a directory ([os.makedirs] is called with
    [exist_ok=True] and the figures are overwritten). *)
Theorem run_isomaps_rerun (L : libs) (X : list (string * mat)) (cmap : mat)
    (out_dir : string) (n_neighbors : nat) (w w' : world) :
  run_isomaps L X cmap out_dir n_neighbors w = (Ok (), w') ->
  exists w'',
    run_isomaps L X cmap out_dir n_neighbors w' = (Ok (), w'')
    /\ fs_files w'' = fs_files w'
    /\ fs_dirs w'' = fs_dirs w'.
Proof.
  intros Hrun.
  pose proof (world_blind_run_isomaps L X cmap out_dir n_neighbors w w') as Hblind.
  rewrite Hrun in Hblind. simpl in Hblind.
  destruct (run_isomaps L X cmap out_dir n_neighbors w') as [o w''] eqn:Hagain.
  simpl in Hblind. subst o. exists w''. split; [reflexivity|].
  pose proof (run_isomaps_images _ _ _ _ _ _ _ _ Hrun) as (Hfiles & _ & Hdirs).
  pose proof (run_isomaps_images _ _ _ _ _ _ _ _ Hagain) as (Hfiles' & _ & _).
  split.
  - rewrite Hfiles'. rewrite Hfiles. set_solver.
  - unfold run_isomaps in Hagain.
    apply M_bind_Ok in Hagain as (ratios & w1 & Hloop & Hplot).
    apply plot_knn_regression_Ok in Hplot as [_ ->]. simpl.
    apply (run_isomaps_loop_keeps_dirs _ _ _ _ _ _ _ _ _ _ Hdirs Hloop).
Qed.

Lemma run_isomaps_rerun_witness :
  exists w' w'',
    run_isomaps constant_libs five_families one_sample_map "/out" 40
      (initial_world "/home") = (Ok (), w')
    /\ run_isomaps constant_libs five_families one_sample_map "/out" 40 w'
       = (Ok (), w'')
    /\ fs_files w'' = fs_files w'.
Proof.
  destruct five_families_run as (w' & Hrun).
  destruct (run_isomaps_rerun constant_libs five_families one_sample_map "/out" 40
              (initial_world "/home") w' Hrun) as (w'' & Hagain & Hfiles & _).
  exists w', w''. split; [exact Hrun|]. split; [exact Hagain | exact Hfiles].
Defined.

(** ** The grids and the whole pipeline *)

Lemma linspace_lookup (start stop : R) (d i : nat) :
  (i <= S d)%nat ->
  np.linspace start stop (S (S d)) !! i
  = Some (start + INR i * ((stop - start) / INR (S d))).
Proof.
  intros Hi. unfold np.linspace.
  rewrite list_lookup_fmap, lookup_seq_lt by lia.
  cbv [fmap option_fmap option_map]. change (0 + i)%nat with i.
  destruct (decide (i = S d)) as [E|_]; [|reflexivity].
  f_equal. rewrite E.
  assert (INR (S d) <> 0) by (apply not_0_INR; lia). field. assumption.
Qed.

Lemma log10_increasing (a b : R) : 0 < a -> a < b -> np.log10 a < np.log10 b.
Proof.
  intros Ha Hab. unfold np.log10.
  assert (H10 : 0 < ln 10) by (rewrite <- ln_1; apply ln_increasing; lra).
  pose proof (ln_increasing a b Ha Hab).
  unfold Rdiv. apply Rmult_lt_compat_r; [apply Rinv_0_lt_compat; exact H10 | assumption].
Qed.

(** X17.  The grids of [run_isomap], for positive bounds [a] and [b]:
    [np.logspace(log10(a), log10(b), n)] has [n] points; for [n = 1] it is
    [a] alone, the upper bound being ignored; for [n >= 2] it starts at [a]
    and ends at [b]; for [a < b] it is strictly increasing, so that the
    grid points are pairwise distinct. *)
Theorem logspace_grid_ends_and_order (a b : R) (n : nat) :
  0 < a -> 0 < b ->
  let g := np.logspace (np.log10 a) (np.log10 b) n in
  length g = n
  /\ (n = 1%nat -> g = [a])
  /\ ((2 <= n)%nat -> g !! 0%nat = Some a /\ g !! (n - 1)%nat = Some b)
  /\ (a < b -> forall i j x y,
        (i < j)%nat -> g !! i = Some x -> g !! j = Some y -> x < y).
Proof.
  intros Ha Hb g. unfold g.
  split; [apply logspace_length|].
  split.
  { intros ->. unfold np.logspace, np.linspace. simpl.
    rewrite Rpower_10_log10 by exact Ha. reflexivity. }
  destruct n as [|[|d]].
  - split; [lia|]. intros _ i j x y _ Hx. discriminate.
  - split; [lia|]. intros _ i j x y Hij Hx Hy.
    apply lookup_lt_Some in Hy. rewrite logspace_length in Hy. lia.
  - assert (Hd : 0 < INR (S d)) by (apply lt_0_INR; lia).
    split.
    + intros _. unfold np.logspace. rewrite !list_lookup_fmap.
      rewrite !linspace_lookup by lia. cbv [fmap option_fmap option_map].
      split; f_equal.
      * replace (np.log10 a + INR 0 * ((np.log10 b - np.log10 a) / INR (S d)))
          with (np.log10 a) by (change (INR 0) with 0; lra).
        apply Rpower_10_log10. exact Ha.
      * replace (S (S d) - 1)%nat with (S d) by lia.
        replace (np.log10 a + INR (S d) * ((np.log10 b - np.log10 a) / INR (S d)))
          with (np.log10 b) by (field; lra).
        apply Rpower_10_log10. exact Hb.
    + intros Hab i j x y Hij Hx Hy.
      assert (Hj : (j <= S d)%nat).
      { apply lookup_lt_Some in Hy. rewrite logspace_length in Hy. lia. }
      unfold np.logspace in Hx, Hy. rewrite list_lookup_fmap in Hx, Hy.
      rewrite linspace_lookup in Hx by lia. rewrite linspace_lookup in Hy by lia.
      cbv [fmap option_fmap option_map] in Hx, Hy.
      injection Hx as <-. injection Hy as <-.
      apply Rpower_lt; [lra|].
      pose proof (log10_increasing a b Ha Hab) as Hlog.
      assert (Hstep : 0 < (np.log10 b - np.log10 a) / INR (S d))
        by (apply Rdiv_lt_0_compat; lra).
      assert (Hlt : INR i < INR j) by (apply lt_INR; exact Hij).
      apply Rplus_lt_compat_l, Rmult_lt_compat_r; assumption.
Qed.

Lemma logspace_grid_ends_and_order_witness :
  np.logspace (np.log10 512) (np.log10 1024) 16 !! 0%nat = Some 512
  /\ np.logspace (np.log10 512) (np.log10 1024) 16 !! 15%nat = Some 1024.
Proof.
  destruct (logspace_grid_ends_and_order 512 1024 16) as (_ & _ & H & _);
    [lra | lra |].
  apply H. lia.
Defined.

(** X18.  With [n_steps = 0] the grids are empty: [run_isomap] creates its
    output directory, generates nothing, and ends with [IndexError] in
    [extract_time_scattering] (for a scattering transform that can be
    built), having written no file. *)
Theorem run_isomap_no_steps (L : libs)
    (f0_min f0_max fm_min fm_max gamma_min gamma_max bw : R)
    (duration sr : nat) (out_dir : string) (w : world)
    (scat : vec -> outcome mat) :
  (0 < duration * sr)%nat ->
  Scattering1D L (duration * sr) (Z.log2 (Z.of_nat (duration * sr)) - 1) = Ok scat ->
  torch_cuda L = Ok () ->
  exists w',
    run_isomap L 0 f0_min f0_max fm_min fm_max gamma_min gamma_max bw
      duration sr out_dir w = (Raise IndexError, w')
    /\ fs_files w' = fs_files w
    /\ (cwd w +:+ out_dir ∉ fs_files w -> cwd w +:+ out_dir ∈ fs_dirs w').
Proof.
  intros HN Hscat Hcuda.
  destruct (run_isomap_makes_out_dir L 0 f0_min f0_max fm_min fm_max gamma_min
              gamma_max bw duration sr out_dir w) as (w2 & -> & _ & Hfiles & Hdir).
  exists w2. split; [|split; assumption].
  unfold run_isomap_grid.
  assert (Hgrid : forall a b, np.logspace a b 0 = []) by reflexivity.
  rewrite !Hgrid.
  assert (Hgen : generate_audio [] [] [] duration sr = Ok ([], [[]; []; []]))
    by reflexivity.
  rewrite Hgen.
  rewrite (M_bind_run (lift (Ok _)) _ w2 w2 _ eq_refl). cbn [fst snd].
  assert (Hmfcc : extract_mfcc L [] [] [] [] sr 20 = Ok []) by reflexivity.
  rewrite Hmfcc.
  rewrite (M_bind_run (lift (Ok _)) _ w2 w2 _ eq_refl).
  assert (Hflat : reshape_rows (duration * sr) [] = Ok []).
  { unfold reshape_rows. rewrite decide_False by lia. reflexivity. }
  rewrite Hflat.
  rewrite (M_bind_run (lift (Ok _)) _ w2 w2 _ eq_refl).
  rewrite (extract_time_scattering_empty L duration sr scat) by (try assumption; lia).
  reflexivity.
Qed.

Lemma run_isomap_no_steps_witness :
  exists w',
    run_isomap constant_libs 0 512 1024 4 16 (1 / 2) 4 2 1 4 "/img"
      (initial_world "/home") = (Raise IndexError, w')
    /\ fs_files w' = ∅.
Proof.
  destruct (run_isomap_no_steps constant_libs 512 1024 4 16 (1 / 2) 4 2 1 4 "/img"
              (initial_world "/home") (fun _ => Ok [[0]]))
    as (w' & Hrun & Hfiles & _).
  - simpl. lia.
  - reflexivity.
  - reflexivity.
  - exists w'. split; [exact Hrun | exact Hfiles].
Defined.

Lemma run_isomap_enters_grid (L : libs) (n_steps : nat)
    (f0_min f0_max fm_min fm_max gamma_min gamma_max bw : R)
    (duration sr : nat) (out_dir : string) (w : world) :
  exists w2,
    run_isomap L n_steps f0_min f0_max fm_min fm_max gamma_min gamma_max bw
      duration sr out_dir w
    = run_isomap_grid L n_steps f0_min f0_max fm_min fm_max gamma_min gamma_max
        duration sr (cwd w +:+ out_dir) w2
    /\ without_makedirs (trace w2) = without_makedirs (trace w).
Proof.
  unfold run_isomap.
  rewrite (M_bind_run os_getcwd _ w w (cwd w) eq_refl).
  rewrite (M_bind_run (os_path_exists _) _ w w _ eq_refl).
  destruct (bool_decide _) eqn:Hex.
  - exists w. split; [reflexivity | reflexivity].
  - apply bool_decide_eq_false in Hex.
    assert (Hout : cwd w +:+ out_dir ∉ fs_dirs w) by (intros H; apply Hex; left; exact H).
    exists (os_makedirs (cwd w +:+ out_dir) false w).2.
    split; [|apply without_makedirs_os_makedirs].
    assert (Hmk : os_makedirs (cwd w +:+ out_dir) false w
                  = (Ok (), (os_makedirs (cwd w +:+ out_dir) false w).2)).
    { unfold os_makedirs. rewrite decide_False by exact Hout. reflexivity. }
    rewrite (M_bind_run (os_makedirs (cwd w +:+ out_dir) false) _ w _ () Hmk).
    reflexivity.
Qed.

Lemma family_names_NoDup : NoDup ["MFCC"; "TS"; "JTFS"; "OPEN-L3"; "STRF"].
Proof. apply (bool_decide_unpack _). vm_compute. exact I. Qed.

(** X19.  [run_isomap] does not pass a neighbour count to [run_isomaps]:
    a run that returns has fitted Isomap five times, in the order MFCC, TS,
    JTFS, OPEN-L3, STRF, each time with the default of 40 neighbours; the
    MFCC, TS, JTFS and STRF tables have [n_steps^3] rows, whatever the
    libraries answer, and [n_steps] is not zero. *)
Theorem run_isomap_fits_with_forty_neighbours (L : libs) (n_steps : nat)
    (f0_min f0_max fm_min fm_max gamma_min gamma_max bw : R)
    (duration sr : nat) (out_dir : string) (w w' : world) :
  run_isomap L n_steps f0_min f0_max fm_min fm_max gamma_min gamma_max bw
    duration sr out_dir w = (Ok (), w') ->
  let p := cwd w +:+ out_dir in
  let n := (n_steps * n_steps * n_steps)%nat in
  (0 < n_steps)%nat
  /\ exists n_ol3,
       without_makedirs (trace w')
       = without_makedirs (trace w)
         ++ [EvIsomapFit 40 n;
             EvSavefig (path_join (path_join p "MFCC") "isomap.png");
             EvIsomapFit 40 n;
             EvSavefig (path_join (path_join p "TS") "isomap.png");
             EvIsomapFit 40 n;
             EvSavefig (path_join (path_join p "JTFS") "isomap.png");
             EvIsomapFit 40 n_ol3;
             EvSavefig (path_join (path_join p "OPEN-L3") "isomap.png");
             EvIsomapFit 40 n;
             EvSavefig (path_join (path_join p "STRF") "isomap.png");
             EvSavefig (path_join p "knn.png")].
Proof.
  intros Hrun p n.
  destruct (run_isomap_enters_grid L n_steps f0_min f0_max fm_min fm_max
              gamma_min gamma_max bw duration sr out_dir w) as (w2 & E & Htrace).
  rewrite E in Hrun. clear E. fold p in Hrun. unfold run_isomap_grid in Hrun.
  set (f0s := np.logspace (np.log10 f0_min) (np.log10 f0_max) n_steps) in *.
  set (fms := np.logspace (np.log10 fm_min) (np.log10 fm_max) n_steps) in *.
  set (gammas := np.logspace (np.log10 gamma_min) (np.log10 gamma_max) n_steps) in *.
  apply M_bind_Ok in Hrun as ([audio cmap] & w3 & Hgen & Hrun).
  apply lift_Ok in Hgen as [Hgen ->]. cbn [fst snd] in Hrun.
  apply M_bind_Ok in Hrun as (mfcc & w3 & Hmfcc & Hrun).
  apply lift_Ok in Hmfcc as [Hmfcc ->].
  apply M_bind_Ok in Hrun as (flat & w3 & Hflat & Hrun).
  apply lift_Ok in Hflat as [Hflat ->].
  apply M_bind_Ok in Hrun as (ts & w3 & Hts & Hrun).
  apply lift_Ok in Hts as [Hts ->].
  apply M_bind_Ok in Hrun as (flat1 & w3 & Hflat1 & Hrun).
  apply lift_Ok in Hflat1 as [Hflat1 ->].
  apply M_bind_Ok in Hrun as (jtfs & w3 & Hjtfs & Hrun).
  apply lift_Ok in Hjtfs as [Hjtfs ->].
  apply M_bind_Ok in Hrun as (flat2 & w3 & Hflat2 & Hrun).
  apply lift_Ok in Hflat2 as [Hflat2 ->].
  apply M_bind_Ok in Hrun as (ol3 & w3 & Hol3 & Hrun).
  apply extract_openl3_Ok in Hol3 as ->.
  apply M_bind_Ok in Hrun as (flat3 & w3 & Hflat3 & Hrun).
  apply lift_Ok in Hflat3 as [Hflat3 ->].
  apply M_bind_Ok in Hrun as (strf & w3 & Hstrf & Hrun).
  apply lift_Ok in Hstrf as [Hstrf ->].
  assert (flat1 = flat) by congruence. assert (flat2 = flat) by congruence.
  assert (flat3 = flat) by congruence. subst flat1 flat2 flat3.
  assert (Hsr : sr <> 0%nat).
  { unfold reshape_rows in Hflat. destruct (decide (duration * sr = 0)%nat);
      [discriminate | lia]. }
  apply generate_audio_shape in Hgen as [Hshape _].
  assert (Hrows : length flat = n).
  { unfold reshape_rows in Hflat. destruct (decide (duration * sr = 0)%nat);
      [discriminate|]. injection Hflat as <-.
    rewrite (flatten_length _ _ _ _ _ Hshape).
    unfold f0s, fms, gammas. rewrite !logspace_length. reflexivity. }
  assert (Hn_mfcc : length mfcc = n).
  { destruct (extract_mfcc_Ok_shape _ _ _ _ _ _ _ _ Hmfcc) as [-> _].
    unfold f0s, fms, gammas. rewrite !logspace_length. reflexivity. }
  assert (Hn_ts : length ts = n).
  { pose proof (extract_time_scattering_rows _ _ _ _ _ Hts) as [-> _]. exact Hrows. }
  assert (Hn_jtfs : length jtfs = n).
  { apply extract_jtfs_rows in Hjtfs as [-> _]. exact Hrows. }
  assert (Hn_strf : length strf = n).
  { apply extract_strf_rows in Hstrf as [-> _]. exact Hrows. }
  split.
  { assert (Hpos : (0 < length flat)%nat).
    { unfold extract_time_scattering in Hts.
      apply bind_Ok in Hts as (J & _ & Hts).
      apply bind_Ok in Hts as (scat & _ & Hts).
      apply bind_Ok in Hts as (u & _ & Hts).
      apply bind_Ok in Hts as (x0 & Hx0 & _).
      apply getitem_Ok, lookup_lt_Some in Hx0. lia. }
    rewrite Hrows in Hpos. unfold n in Hpos. destruct n_steps; [simpl in Hpos|]; lia. }
  exists (length ol3).
  unfold run_isomaps, run_isomaps_loop in Hrun.
  apply M_bind_Ok in Hrun as (ratios & w1 & Hloop & Hplot).
  apply plot_knn_regression_Ok in Hplot as [_ ->].
  simpl trace. rewrite without_makedirs_app.
  match type of Hloop with
  | for_each_M _ (run_isomaps_feat _ ?X _ _ _) _ _ = _ =>
      rewrite (run_isomaps_loop_events L X _ _ _ [] X eq_refl family_names_NoDup
                 _ _ _ _ Hloop)
  end.
  rewrite Htrace. simpl. rewrite Hn_mfcc, Hn_ts, Hn_jtfs, Hn_strf.
  rewrite <- app_assoc. reflexivity.
Qed.

Lemma constant_libs_one_sample_run (r1 r2 r3 r4 r5 : vec) (a b c : R) (w : world) :
  exists w',
    run_isomaps constant_libs
      [("MFCC", [r1]); ("TS", [r2]); ("JTFS", [r3]); ("OPEN-L3", [r4]);
       ("STRF", [r5])]
      [[a]; [b]; [c]] "/home/img" 40 w = (Ok (), w').
Proof.
  pose proof (world_blind_run_isomaps constant_libs
                [("MFCC", [r1]); ("TS", [r2]); ("JTFS", [r3]); ("OPEN-L3", [r4]);
                 ("STRF", [r5])]
                [[a]; [b]; [c]] "/home/img" 40 w (initial_world "/home")) as Hblind.
  assert (Hrun : (run_isomaps constant_libs
                    [("MFCC", [r1]); ("TS", [r2]); ("JTFS", [r3]); ("OPEN-L3", [r4]);
                     ("STRF", [r5])]
                    [[a]; [b]; [c]] "/home/img" 40 (initial_world "/home")).1
                 = Ok ()) by (vm_compute; reflexivity).
  rewrite Hrun in Hblind.
  destruct (run_isomaps _ _ _ _ _ w) as [o w']. simpl in Hblind. subst o.
  exists w'. reflexivity.
Qed.

Lemma run_isomap_fits_with_forty_neighbours_witness :
  exists w',
    run_isomap constant_libs 1 512 1024 4 16 (1 / 2) 4 2 1 4 "/img"
      (World "/home" ∅ ∅ []
         (Some (fun audio _ => Ok ((fun _ => [[1; 2]; [3; 6]]) <$> audio, [])))
         false)
    = (Ok (), w')
    /\ exists n_ol3,
         without_makedirs (trace w')
         = [EvIsomapFit 40 1; EvSavefig "/home/img/MFCC/isomap.png";
            EvIsomapFit 40 1; EvSavefig "/home/img/TS/isomap.png";
            EvIsomapFit 40 1; EvSavefig "/home/img/JTFS/isomap.png";
            EvIsomapFit 40 n_ol3; EvSavefig "/home/img/OPEN-L3/isomap.png";
            EvIsomapFit 40 1; EvSavefig "/home/img/STRF/isomap.png";
            EvSavefig "/home/img/knn.png"].
Proof.
  set (g := fun (audio : list vec) (_ : nat) =>
              Ok ((fun _ : vec => [[1; 2]; [3; 6]]) <$> audio, @nil vec)
              : outcome (list mat * list vec)).
  set (w0 := World "/home" ∅ ∅ [] (Some g) false).
  assert (Hrun : exists w',
            run_isomap constant_libs 1 512 1024 4 16 (1 / 2) 4 2 1 4 "/img" w0
            = (Ok (), w')).
  { destruct (run_isomap_makes_out_dir constant_libs 1 512 1024 4 16 (1 / 2) 4 2 1 4
                "/img" w0) as (w2 & -> & (_ & Hopen & _) & _).
    change (cwd w0 +:+ "/img") with "/home/img".
    unfold run_isomap_grid.
    rewrite generate_audio_Ok
      by first [ lia | exact time_axis_len_one_second_at_4
               | apply positive_nonzero, logspace_pos ].
    rewrite (M_bind_run (lift (Ok _)) _ w2 w2 _ eq_refl). cbn [fst snd].
    match goal with |- context [lift (extract_mfcc ?L ?a ?f ?m ?g ?s ?n)] =>
      assert (Hmfcc : exists r, extract_mfcc L a f m g s n = Ok [r])
        by (eexists; reflexivity);
      destruct Hmfcc as [r1 Hmfcc]; rewrite Hmfcc end.
    rewrite (M_bind_run (lift (Ok _)) _ w2 w2 _ eq_refl).
    match goal with |- context [lift (reshape_rows ?n ?a)] =>
      assert (Hflat : exists x, reshape_rows n a = Ok [x])
        by (eexists; reflexivity);
      destruct Hflat as [x Hflat]; rewrite Hflat end.
    rewrite (M_bind_run (lift (Ok _)) _ w2 w2 _ eq_refl).
    assert (Hts : exists r, extract_time_scattering constant_libs [x] 1 4 = Ok [r])
      by (eexists; reflexivity).
    destruct Hts as [r2 Hts]. rewrite Hts.
    rewrite (M_bind_run (lift (Ok _)) _ w2 w2 _ eq_refl).
    rewrite (M_bind_run (lift (Ok _)) _ w2 w2 _ eq_refl).
    assert (Hjtfs : exists r, extract_jtfs constant_libs [x] 1 4 = Ok [r])
      by (eexists; reflexivity).
    destruct Hjtfs as [r3 Hjtfs]. rewrite Hjtfs.
    rewrite (M_bind_run (lift (Ok _)) _ w2 w2 _ eq_refl).
    rewrite (M_bind_run (lift (Ok _)) _ w2 w2 _ eq_refl).
    assert (Hol3 : exists r, extract_openl3 [x] 4 w2 = (Ok [r], w2)).
    { unfold extract_openl3. rewrite Hopen. eexists. reflexivity. }
    destruct Hol3 as [r4 Hol3].
    rewrite (M_bind_run (extract_openl3 [x] 4) _ w2 w2 _ Hol3).
    rewrite (M_bind_run (lift (Ok _)) _ w2 w2 _ eq_refl).
    assert (Hstrf : exists r, extract_strf constant_libs [x] 1 4 = Ok [r])
      by (eexists; reflexivity).
    destruct Hstrf as [r5 Hstrf]. rewrite Hstrf.
    rewrite (M_bind_run (lift (Ok _)) _ w2 w2 _ eq_refl).
    apply constant_libs_one_sample_run. }
  destruct Hrun as [w' Hrun]. exists w'. split; [exact Hrun|].
  destruct (run_isomap_fits_with_forty_neighbours _ _ _ _ _ _ _ _ _ _ _ _ _ _ Hrun)
    as (_ & n_ol3 & Htrace).
  exists n_ol3. exact Htrace.
Defined.

Lemma writes_within_run_isomaps (L : libs) (X : list (string * mat))
    (cmap : mat) (out_dir : string) (n_neighbors : nat) :
  writes_within
    (list_to_set ((fun feat => path_join (path_join out_dir feat) "isomap.png")
                  <$> X.*1)
     ∪ {[ path_join out_dir "knn.png" ]})
    (run_isomaps L X cmap out_dir n_neighbors).
Proof.
  unfold run_isomaps, run_isomaps_loop. apply writes_within_bind.
  - eapply writes_within_weaken; [|apply writes_within_loop]. set_solver.
  - intros ratios. unfold plot_knn_regression.
    repeat first
      [ apply writes_within_bind; [| intros ?]
      | apply writes_within_lift
      | apply writes_within_plt_savefig; set_solver ].
Qed.

Lemma writes_within_extract_openl3 (P : gset string) (audio : mat) (sr : nat) :
  writes_within P (extract_openl3 audio sr).
Proof.
  intros w. unfold extract_openl3. destruct (openl3 w); simpl; set_solver.
Qed.

Lemma writes_within_run_isomap_grid (L : libs) (n_steps : nat)
    (f0_min f0_max fm_min fm_max gamma_min gamma_max : R)
    (duration sr : nat) (out_dir : string) :
  writes_within
    (list_to_set ((fun feat => path_join (path_join out_dir feat) "isomap.png")
                  <$> ["MFCC"; "TS"; "JTFS"; "OPEN-L3"; "STRF"])
     ∪ {[ path_join out_dir "knn.png" ]})
    (run_isomap_grid L n_steps f0_min f0_max fm_min fm_max gamma_min gamma_max
       duration sr out_dir).
Proof.
  unfold run_isomap_grid.
  repeat first
    [ apply writes_within_run_isomaps
    | apply writes_within_bind; [| intros ?]
    | apply writes_within_lift
    | apply writes_within_extract_openl3 ].
Qed.

(** X20.  Whatever its outcome, [run_isomap] only adds to the world: the
    working directory and the module globals are as before, no directory or
    file disappears, and the only files that can be new are the five
    scatter figures and [knn.png] below [os.getcwd() + out_dir]. *)
Theorem run_isomap_touches_only_its_output (L : libs) (n_steps : nat)
    (f0_min f0_max fm_min fm_max gamma_min gamma_max bw : R)
    (duration sr : nat) (out_dir : string) (w : world) :
  let p := cwd w +:+ out_dir in
  let w' := (run_isomap L n_steps f0_min f0_max fm_min fm_max gamma_min
               gamma_max bw duration sr out_dir w).2 in
  cwd w' = cwd w
  /\ openl3 w' = openl3 w /\ skip_openl3 w' = skip_openl3 w
  /\ fs_dirs w ⊆ fs_dirs w'
  /\ fs_files w ⊆ fs_files w'
  /\ trace w `prefix_of` trace w'
  /\ fs_files w'
     ⊆ fs_files w
       ∪ list_to_set ((fun feat => path_join (path_join p feat) "isomap.png")
                      <$> ["MFCC"; "TS"; "JTFS"; "OPEN-L3"; "STRF"])
       ∪ {[ path_join p "knn.png" ]}.
Proof.
  intros p w'.
  pose proof (monotone_run_isomap L n_steps f0_min f0_max fm_min fm_max gamma_min
                gamma_max bw duration sr out_dir w)
    as (H1 & H2 & H3 & H4 & H5 & H6).
  fold w' in H1, H2, H3, H4, H5, H6.
  do 6 (split; [assumption|]).
  unfold w'.
  destruct (run_isomap_makes_out_dir L n_steps f0_min f0_max fm_min fm_max
              gamma_min gamma_max bw duration sr out_dir w)
    as (w2 & -> & _ & Hfiles & _).
  fold p. rewrite <- Hfiles. rewrite <- (assoc_L (∪)).
  apply writes_within_run_isomap_grid.
Qed.
